(** * golang-book-ru: the content pipeline scripts, embedded and verified

    The scripts of this repository (content-checker.js, structure-validator.js,
    godojo-validator.js, the content author tool and the content builder) are
    Node.js programs working on JavaScript strings, on objects read from JSON
    and YAML, and on the file tree under the working directory.  This file
    translates the functions the specification talks about and proves, or
    refutes, what the specification says about them.

    Layout: [JS] holds what the language itself provides (strings as sequences
    of UTF-16 code units, a backtracking regular-expression matcher with the
    String methods built on it, values and objects, path functions, a state and
    exception monad).  One module per script follows, and the theorems come
    last. *)

From Stdlib Require Import List NArith ZArith QArith Bool Lia Ascii String PeanoNat
  Permutation Sorted
  DecimalString.
Import ListNotations.
Close Scope Q_scope.

Set Warnings "-register-all".

(* ================================================================== *)
(** * JavaScript strings *)
(* ================================================================== *)

Module JS.

(** A JavaScript string is a sequence of 16-bit code units. *)
Definition char := N.
Definition jsstring := list char.

Definition char_eqb (a b : char) : bool := N.eqb a b.

Fixpoint str_eqb (a b : jsstring) : bool :=
  match a, b with
  | [], [] => true
  | x :: a', y :: b' => char_eqb x y && str_eqb a' b'
  | _, _ => false
  end.

(** ** Literals

    Source literals are written here as Rocq strings, whose bytes are the
    UTF-8 encoding of the text; [utf16] decodes them into code units (a code
    point above U+FFFF becomes a surrogate pair), which is what the
    JavaScript engine holds for the same literal. *)

Definition bytes_of (s : string) : list N :=
  List.map N_of_ascii (list_ascii_of_string s).

Definition cont (b : N) : N := N.land b 63.

Definition units_of_code_point (cp : N) : jsstring :=
  if (cp <? 65536)%N then [cp]
  else let v := (cp - 65536)%N in
       [(55296 + N.shiftr v 10)%N; (56320 + N.land v 1023)%N].

Fixpoint decode_utf8 (fuel : nat) (bs : list N) : jsstring :=
  match fuel with
  | O => []
  | S fuel' =>
    match bs with
    | [] => []
    | b :: rest =>
      if (b <? 128)%N then b :: decode_utf8 fuel' rest
      else if (b <? 224)%N then
        match rest with
        | b2 :: rest' =>
            (N.shiftl (N.land b 31) 6 + cont b2)%N :: decode_utf8 fuel' rest'
        | _ => []
        end
      else if (b <? 240)%N then
        match rest with
        | b2 :: b3 :: rest' =>
            (N.shiftl (N.land b 15) 12 + N.shiftl (cont b2) 6 + cont b3)%N
              :: decode_utf8 fuel' rest'
        | _ => []
        end
      else
        match rest with
        | b2 :: b3 :: b4 :: rest' =>
            units_of_code_point
              (N.shiftl (N.land b 7) 18 + N.shiftl (cont b2) 12
               + N.shiftl (cont b3) 6 + cont b4)%N
              ++ decode_utf8 fuel' rest'
        | _ => []
        end
    end
  end.

Definition utf16 (s : string) : jsstring :=
  let bs := bytes_of s in decode_utf8 (List.length bs) bs.
Arguments utf16 s%_string.

(** A natural number in decimal, as a template literal prints it. *)
Definition decimal (n : nat) : jsstring :=
  utf16 (NilEmpty.string_of_uint (Nat.to_uint n)).

(** The double quote, which a Rocq literal cannot hold undoubled. *)
Definition dquote : char := 34%N.
Definition newline : char := 10%N.

(** ** Character classes of ECMAScript regular expressions *)

Definition is_line_terminator (c : char) : bool :=
  (c =? 10)%N || (c =? 13)%N || (c =? 0x2028)%N || (c =? 0x2029)%N.

Definition is_white_space (c : char) : bool :=
  (c =? 9)%N || (c =? 11)%N || (c =? 12)%N || (c =? 32)%N || (c =? 160)%N
  || (c =? 0x1680)%N || ((0x2000 <=? c)%N && (c <=? 0x200A)%N)
  || (c =? 0x202F)%N || (c =? 0x205F)%N || (c =? 0x3000)%N || (c =? 0xFEFF)%N.

(** [\s] *)
Definition is_space (c : char) : bool := is_white_space c || is_line_terminator c.

(** [\d] *)
Definition is_digit (c : char) : bool := (48 <=? c)%N && (c <=? 57)%N.

Definition is_lower (c : char) : bool := (97 <=? c)%N && (c <=? 122)%N.
Definition is_upper (c : char) : bool := (65 <=? c)%N && (c <=? 90)%N.

(** [\w] *)
Definition is_word (c : char) : bool :=
  is_lower c || is_upper c || is_digit c || (c =? 95)%N.

(** [.] without the s flag *)
Definition is_dot (c : char) : bool := negb (is_line_terminator c).

(** [[\s\S]] *)
Definition any_char (c : char) : bool := true.

(** A literal character under the i flag (no u flag): two characters match
    when their upper-case forms agree, and a character outside ASCII never
    folds onto an ASCII one, so an ASCII letter matches exactly its two
    cases. *)
Definition ascii_upper (c : char) : char := if is_lower c then (c - 32)%N else c.
Definition char_eqb_ci (a c : char) : bool := char_eqb (ascii_upper a) (ascii_upper c).

(** ** String methods that take no regular expression *)

Fixpoint startsWith (p s : jsstring) : bool :=
  match p, s with
  | [], _ => true
  | a :: p', b :: s' => char_eqb a b && startsWith p' s'
  | _ :: _, [] => false
  end.

(** [s.includes(p)] *)
Fixpoint includes (p s : jsstring) : bool :=
  startsWith p s ||
  match s with
  | [] => false
  | _ :: s' => includes p s'
  end.

Definition endsWith (p s : jsstring) : bool := startsWith (rev p) (rev s).

(** [s.split(c)] for a one-character separator. *)
Fixpoint split_char (c : char) (s : jsstring) : list jsstring :=
  match s with
  | [] => [[]]
  | x :: s' =>
    if char_eqb x c then [] :: split_char c s'
    else match split_char c s' with
         | [] => [[x]]
         | w :: ws => (x :: w) :: ws
         end
  end.

(** [a.join(sep)] *)
Fixpoint join (sep : jsstring) (parts : list jsstring) : jsstring :=
  match parts with
  | [] => []
  | [w] => w
  | w :: ws => w ++ sep ++ join sep ws
  end.

Fixpoint trimStart (s : jsstring) : jsstring :=
  match s with
  | c :: s' => if is_space c then trimStart s' else s
  | [] => []
  end.

Definition trim (s : jsstring) : jsstring := rev (trimStart (rev (trimStart s))).

(* ------------------------------------------------------------------ *)
(** ** Regular expressions

    The subset of ECMAScript patterns the scripts use, matched the way the
    language specifies it: by backtracking, alternatives and quantifiers tried
    in order, with continuations.  The flags [m] and [i] are part of the
    pattern here ([Bol true], [Eol true], [ClassCI]); the flag [g] is in the
    choice of the method ([match_all], [replace_all]). *)

Inductive regex : Type :=
| Empty
| Class (p : char -> bool)
| Seq (r1 r2 : regex)
| Alt (r1 r2 : regex)
| Star (greedy : bool) (r : regex)
| Group (r : regex)
| Bol (multiline : bool)
| Eol (multiline : bool)
| Ahead (r : regex)
| NotAhead (r : regex).

Definition Chr (c : char) : regex := Class (char_eqb c).
Definition ChrCI (c : char) : regex := Class (char_eqb_ci c).

Fixpoint Lit (s : jsstring) : regex :=
  match s with
  | [] => Empty
  | [c] => Chr c
  | c :: s' => Seq (Chr c) (Lit s')
  end.

Fixpoint LitCI (s : jsstring) : regex :=
  match s with
  | [] => Empty
  | [c] => ChrCI c
  | c :: s' => Seq (ChrCI c) (LitCI s')
  end.

(** [r+], [r+?], [r?], [r{n}], [r{n,n+k}] *)
Definition Plus (greedy : bool) (r : regex) : regex := Seq r (Star greedy r).
Definition Opt (r : regex) : regex := Alt r Empty.

Fixpoint Times (n : nat) (r : regex) : regex :=
  match n with
  | O => Empty
  | S O => r
  | S n' => Seq r (Times n' r)
  end.

Fixpoint UpTo (k : nat) (r : regex) : regex :=
  match k with
  | O => Empty
  | S k' => Opt (Seq r (UpTo k' r))
  end.

Definition Between (n k : nat) (r : regex) : regex := Seq (Times n r) (UpTo k r).

Fixpoint seqs (rs : list regex) : regex :=
  match rs with
  | [] => Empty
  | [r] => r
  | r :: rs' => Seq r (seqs rs')
  end.

(** A position in the input: what lies before it (nearest first), what lies
    after it, and the text of the groups closed so far (latest first). *)
Record mstate : Type := MState {
  before : jsstring;
  after : jsstring;
  caps : list jsstring
}.

Definition step (c : char) (rest : jsstring) (s : mstate) : mstate :=
  MState (c :: before s) rest (caps s).

(** The text between two positions [s] and [s'] of one input, [s'] the later. *)
Definition between (s s' : mstate) : jsstring :=
  firstn (List.length (after s) - List.length (after s')) (after s).

Definition at_bol (multiline : bool) (s : mstate) : bool :=
  match before s with
  | [] => true
  | c :: _ => multiline && is_line_terminator c
  end.

Definition at_eol (multiline : bool) (s : mstate) : bool :=
  match after s with
  | [] => true
  | c :: _ => multiline && is_line_terminator c
  end.

Definition consumed (s s' : mstate) : bool :=
  (List.length (after s') <? List.length (after s))%nat.

(** The iterations of a star over a matcher [body] of one iteration, at most
    [n] of them: a greedy star tries one more iteration before it goes on
    with [k], a lazy one goes on with [k] first.  An iteration that consumes
    nothing is rejected, as the language requires. *)
Fixpoint star_loop (body : mstate -> (mstate -> option mstate) -> option mstate)
         (greedy : bool) (k : mstate -> option mstate) (n : nat) (s : mstate)
  {struct n} : option mstate :=
  match n with
  | O => k s
  | S n' =>
    if greedy then
      match body s (fun s' => if consumed s s' then star_loop body greedy k n' s'
                              else None) with
      | Some e => Some e
      | None => k s
      end
    else
      match k s with
      | Some e => Some e
      | None => body s (fun s' => if consumed s s' then star_loop body greedy k n' s'
                                  else None)
      end
  end.

(** [mt r s k]: match [r] at [s], then hand the position reached to the
    continuation [k]; the first success wins.  The iterations of a star each
    consume a character, so their number is bounded by the length of the
    remaining input. *)
Fixpoint mt (r : regex) (s : mstate) (k : mstate -> option mstate)
  {struct r} : option mstate :=
  match r with
  | Empty => k s
  | Class p =>
      match after s with
      | c :: rest => if p c then k (step c rest s) else None
      | [] => None
      end
  | Seq r1 r2 => mt r1 s (fun s1 => mt r2 s1 k)
  | Alt r1 r2 =>
      match mt r1 s k with
      | Some e => Some e
      | None => mt r2 s k
      end
  | Star greedy r1 => star_loop (mt r1) greedy k (List.length (after s)) s
  | Group r1 =>
      mt r1 s (fun s' => k (MState (before s') (after s') (between s s' :: caps s')))
  | Bol ml => if at_bol ml s then k s else None
  | Eol ml => if at_eol ml s then k s else None
  | Ahead r1 =>
      match mt r1 s Some with
      | Some _ => k s
      | None => None
      end
  | NotAhead r1 =>
      match mt r1 s Some with
      | Some _ => None
      | None => k s
      end
  end.

(** One match: where it starts and where it ends. *)
Record found : Type := Found { m_start : mstate; m_end : mstate }.

Definition matched (f : found) : jsstring := between (m_start f) (m_end f).

(** Group [i] (from 1), in the order the groups open in the patterns used
    here, where no group is nested or repeated. *)
Definition group (i : nat) (f : found) : jsstring :=
  nth (i - 1) (rev (caps (m_end f))) [].

Definition exec_at (r : regex) (bef aft : jsstring) : option found :=
  let s := MState bef aft [] in
  match mt r s Some with
  | Some e => Some (Found s e)
  | None => None
  end.

(** The leftmost match at or after a position. *)
Fixpoint search (r : regex) (bef aft : jsstring) : option found :=
  match exec_at r bef aft with
  | Some f => Some f
  | None =>
    match aft with
    | [] => None
    | c :: aft' => search r (c :: bef) aft'
    end
  end.

(** [r.test(s)] and [s.match(r)] for a pattern without the g flag. *)
Definition test (r : regex) (s : jsstring) : bool :=
  match search r [] s with Some _ => true | None => false end.

Definition match_first (r : regex) (s : jsstring) : option found := search r [] s.

Definition is_empty_match (f : found) : bool :=
  (List.length (after (m_start f)) =? List.length (after (m_end f)))%nat.

(** All matches, left to right, each search resuming where the last match
    ended (one further after an empty match): [s.match(r)] and the
    [r.exec(s)] loop for a pattern with the g flag. *)
Fixpoint matches_from (fuel : nat) (r : regex) (bef aft : jsstring) : list found :=
  match fuel with
  | O => []
  | S fuel' =>
    match search r bef aft with
    | None => []
    | Some f =>
      let e := m_end f in
      if is_empty_match f then
        match after e with
        | [] => [f]
        | c :: rest => f :: matches_from fuel' r (c :: before e) rest
        end
      else f :: matches_from fuel' r (before e) (after e)
    end
  end.

Definition match_all (r : regex) (s : jsstring) : list found :=
  matches_from (S (List.length s)) r [] s.

(** [s.replace(r, '')] without the g flag: the first match is removed. *)
Definition remove_first (r : regex) (s : jsstring) : jsstring :=
  match search r [] s with
  | None => s
  | Some f => rev (before (m_start f)) ++ after (m_end f)
  end.

(** [s.replace(r, '')] with the g flag: every match is removed. *)
Fixpoint remove_from (fuel : nat) (r : regex) (bef aft : jsstring) : jsstring :=
  match fuel with
  | O => aft
  | S fuel' =>
    match search r bef aft with
    | None => aft
    | Some f =>
      let kept := firstn (List.length aft - List.length (after (m_start f))) aft in
      let e := m_end f in
      if is_empty_match f then
        match after e with
        | [] => kept
        | c :: rest => kept ++ c :: remove_from fuel' r (c :: before e) rest
        end
      else kept ++ remove_from fuel' r (before e) (after e)
    end
  end.

Definition remove_all (r : regex) (s : jsstring) : jsstring :=
  remove_from (S (List.length s)) r [] s.

(** [s.split(r)]: the pattern is tried at each position [q] in turn; a match
    that ends where the current piece starts is passed over; otherwise the
    piece is closed, the groups of the match follow it in the result, and the
    next piece starts where the match ended. *)
Fixpoint split_from (fuel : nat) (r : regex) (piece bef aft : jsstring)
  : list jsstring :=
  match fuel with
  | O => [rev piece ++ aft]
  | S fuel' =>
    match aft with
    | [] => [rev piece]
    | c :: rest =>
      match exec_at r bef aft with
      | None => split_from fuel' r (c :: piece) (c :: bef) rest
      | Some f =>
        let e := m_end f in
        if is_empty_match f && (match piece with [] => true | _ => false end)
        then split_from fuel' r (c :: piece) (c :: bef) rest
        else rev piece :: rev (caps e) ++ split_from fuel' r [] (before e) (after e)
      end
    end
  end.

Definition split (r : regex) (s : jsstring) : list jsstring :=
  match s with
  | [] => match exec_at r [] [] with Some _ => [] | None => [[]] end
  | _ => split_from (2 * List.length s + 2) r [] [] s
  end.

(* ------------------------------------------------------------------ *)
(** ** Values

    What [JSON.parse] and the YAML front-matter parser hand to the scripts.
    Numbers are the rationals together with the three non-finite doubles;
    an object is the list of its own properties in insertion order. *)

Inductive number : Type := NaN | PosInf | NegInf | Fin (q : Q).

Inductive value : Type :=
| VUndefined
| VNull
| VBool (b : bool)
| VNum (n : number)
| VStr (s : jsstring)
| VArr (items : list value)
| VObj (props : list (jsstring * value)).

Definition num (z : Z) : value := VNum (Fin (inject_Z z)).
Definition str (s : string) : value := VStr (utf16 s).
Arguments str s%_string.

Definition Qltb (a b : Q) : bool := negb (Qle_bool b a).

(** [a < b] on numbers: false as soon as one side is NaN. *)
Definition num_ltb (a b : number) : bool :=
  match a, b with
  | NaN, _ | _, NaN => false
  | PosInf, _ => false
  | _, NegInf => false
  | NegInf, _ => true
  | _, PosInf => true
  | Fin x, Fin y => Qltb x y
  end.

(** ToBoolean *)
Definition truthy (v : value) : bool :=
  match v with
  | VUndefined | VNull => false
  | VBool b => b
  | VNum NaN => false
  | VNum (Fin q) => negb (Qeq_bool q 0)
  | VNum _ => true
  | VStr s => match s with [] => false | _ => true end
  | VArr _ | VObj _ => true
  end.

Fixpoint assoc (k : jsstring) (props : list (jsstring * value)) : option value :=
  match props with
  | [] => None
  | (k', v) :: rest => if str_eqb k k' then Some v else assoc k rest
  end.

(** Own property [k] of an object, [undefined] when there is none. *)
Definition prop (k : jsstring) (props : list (jsstring * value)) : value :=
  match assoc k props with Some v => v | None => VUndefined end.

(** [o[k] = v]: an existing key keeps its place, a new one goes last. *)
Fixpoint set_prop (k : jsstring) (v : value) (props : list (jsstring * value))
  : list (jsstring * value) :=
  match props with
  | [] => [(k, v)]
  | (k', v') :: rest =>
      if str_eqb k k' then (k, v) :: rest else (k', v') :: set_prop k v rest
  end.

(** [{...a, ...b}] *)
Definition spread (a b : list (jsstring * value)) : list (jsstring * value) :=
  fold_left (fun acc kv => set_prop (fst kv) (snd kv) acc) b a.

Definition nat_value (n : nat) : value := VNum (Fin (inject_Z (Z.of_nat n))).

Fixpoint indexed (i : nat) (items : list value) : list (jsstring * value) :=
  match items with
  | [] => []
  | x :: rest => (decimal i, x) :: indexed (S i) rest
  end.

(** The own enumerable properties [...v] copies: those of an object, the
    indexed items of an array or of a string, none of another primitive. *)
Definition own_properties (v : value) : list (jsstring * value) :=
  match v with
  | VObj props => props
  | VArr items => indexed 0 items
  | VStr s => indexed 0 (List.map (fun c => VStr [c]) s)
  | _ => []
  end.

(** SameValueZero, the equality of [Set.prototype.has]: primitives by value;
    two arrays or objects are the same only when they are one object, and the
    values compared here are distinct results of one parse. *)
Definition same_value_zero (a b : value) : bool :=
  match a, b with
  | VUndefined, VUndefined => true
  | VNull, VNull => true
  | VBool x, VBool y => Bool.eqb x y
  | VNum NaN, VNum NaN => true
  | VNum PosInf, VNum PosInf => true
  | VNum NegInf, VNum NegInf => true
  | VNum (Fin x), VNum (Fin y) => Qeq_bool x y
  | VStr x, VStr y => str_eqb x y
  | _, _ => false
  end.

(** [a === b], which differs from SameValueZero on NaN only. *)
Definition strict_equal (a b : value) : bool :=
  match a, b with
  | VNum NaN, _ => false
  | _, _ => same_value_zero a b
  end.

(** What a failed zod parse reports: one issue per offending field, with
    the path of keys and indices that leads to it. *)
Inductive zod_code : Type := invalid_type | too_small | invalid_enum_value.

Inductive path_item : Type := Key (k : jsstring) | Index (i : nat).

Record zod_issue : Type := ZodIssue { code : zod_code; path : list path_item }.

(* ------------------------------------------------------------------ *)
(** ** Exceptions and the state monad of a script

    Every script is a class whose methods push findings onto the fields of
    [this] and may throw.  A method is a function from the state before to an
    outcome and the state after; what was pushed before a throw stays
    pushed. *)

Inductive exn : Type :=
| TypeError (message : jsstring)
| SyntaxError (message : jsstring)
| SystemError (message : jsstring)
| ZodError (errors : list zod_issue)
| Custom (name code : jsstring) (details : value).

Definition exn_message (e : exn) : jsstring :=
  match e with
  | TypeError m | SyntaxError m | SystemError m => m
  | ZodError _ | Custom _ _ _ => []
  end.

Inductive outcome (A : Type) : Type :=
| Ok (a : A)
| Throw (e : exn).
Arguments Ok {A} a.
Arguments Throw {A} e.

Definition M (St A : Type) : Type := St -> outcome A * St.

Definition ret {St A} (a : A) : M St A := fun st => (Ok a, st).
Definition throw {St A} (e : exn) : M St A := fun st => (Throw e, st).
Definition bind {St A B} (m : M St A) (f : A -> M St B) : M St B :=
  fun st => match m st with
            | (Ok a, st') => f a st'
            | (Throw e, st') => (Throw e, st')
            end.
Definition try_catch {St A} (m : M St A) (h : exn -> M St A) : M St A :=
  fun st => match m st with
            | (Ok a, st') => (Ok a, st')
            | (Throw e, st') => h e st'
            end.
Definition modify {St} (f : St -> St) : M St unit := fun st => (Ok tt, f st).
Definition gets {St A} (f : St -> A) : M St A := fun st => (Ok (f st), st).
Definition lift {St A} (o : outcome A) : M St A := fun st => (o, st).
Definition when {St} (b : bool) (m : M St unit) : M St unit :=
  if b then m else ret tt.

(** [for (const x of xs) body(x)] *)
Fixpoint for_each {St A} (xs : list A) (body : A -> M St unit) : M St unit :=
  match xs with
  | [] => ret tt
  | x :: xs' => bind (body x) (fun _ => for_each xs' body)
  end.

Declare Scope js_scope.
Delimit Scope js_scope with js.
Notation "x <- m ;; k" := (bind m (fun x => k))
  (at level 61, m at next level, right associativity) : js_scope.
Notation "m ;; k" := (bind m (fun _ => k))
  (at level 61, right associativity) : js_scope.

(** [v[k]]: a TypeError on [undefined] and [null]; the [length] of a string
    or an array; an own property of an object; [undefined] otherwise (none of
    the keys the scripts read is inherited from a prototype). *)
Definition length_key : jsstring := utf16 "length".

Definition get (v : value) (k : jsstring) : outcome value :=
  match v with
  | VUndefined | VNull => Throw (TypeError (utf16 "Cannot read properties of undefined"))
  | VObj props => Ok (prop k props)
  | VStr s => Ok (if str_eqb k length_key
                  then VNum (Fin (inject_Z (Z.of_nat (List.length s))))
                  else VUndefined)
  | VArr items => Ok (if str_eqb k length_key
                      then VNum (Fin (inject_Z (Z.of_nat (List.length items))))
                      else VUndefined)
  | _ => Ok VUndefined
  end.

(* ------------------------------------------------------------------ *)
(** ** zod schemas

    The combinators the scripts build their schemas from, and [parse] as zod 3
    runs it: every field is visited, every offending field adds an issue, an
    object keeps the keys of its shape only, and the parse succeeds when no
    issue was added. *)

Inductive schema : Type :=
| ZString
| ZNumber (positive : bool)
| ZEnum (options : list jsstring)
| ZArray (min_length : nat) (item : schema)
| ZObject (shape : list (jsstring * schema))
| ZOptional (inner : schema).

Definition positive_number (n : number) : bool := num_ltb (Fin 0) n.

(** The items of an array, each parsed by [parse_item] under its index. *)
Fixpoint parse_items (parse_item : list path_item -> value -> list zod_issue * value)
         (at_path : list path_item) (i : nat) (xs : list value)
  : list zod_issue * list value :=
  match xs with
  | [] => ([], [])
  | x :: xs' =>
      let (e1, x') := parse_item (at_path ++ [Index i]) x in
      let (e2, rest) := parse_items parse_item at_path (S i) xs' in
      (e1 ++ e2, x' :: rest)
  end.

Fixpoint zparse (sch : schema) (at_path : list path_item) (v : value) {struct sch}
  : list zod_issue * value :=
  match sch with
  | ZString =>
      match v with
      | VStr _ => ([], v)
      | _ => ([ZodIssue invalid_type at_path], v)
      end
  | ZNumber positive =>
      match v with
      | VNum NaN => ([ZodIssue invalid_type at_path], v)
      | VNum n =>
          if positive && negb (positive_number n)
          then ([ZodIssue too_small at_path], v) else ([], v)
      | _ => ([ZodIssue invalid_type at_path], v)
      end
  | ZEnum options =>
      match v with
      | VStr s => if existsb (str_eqb s) options then ([], v)
                  else ([ZodIssue invalid_enum_value at_path], v)
      | _ => ([ZodIssue invalid_type at_path], v)
      end
  | ZArray min_length item =>
      match v with
      | VArr items =>
          let short := if (List.length items <? min_length)%nat
                       then [ZodIssue too_small at_path] else [] in
          let (es, out) := parse_items (zparse item) at_path 0 items in
          (short ++ es, VArr out)
      | _ => ([ZodIssue invalid_type at_path], v)
      end
  | ZObject shape =>
      match v with
      | VObj props =>
          let fix each (fields : list (jsstring * schema))
            : list zod_issue * list (jsstring * value) :=
            match fields with
            | [] => ([], [])
            | (k, sk) :: fields' =>
                let (e1, x') := zparse sk (at_path ++ [Key k]) (prop k props) in
                let (e2, rest) := each fields' in
                (e1 ++ e2,
                 match x' with VUndefined => rest | _ => (k, x') :: rest end)
            end in
          let (es, out) := each shape in
          (es, VObj out)
      | _ => ([ZodIssue invalid_type at_path], v)
      end
  | ZOptional inner =>
      match v with
      | VUndefined => ([], v)
      | _ => zparse inner at_path v
      end
  end.

(** [schema.parse(v)]: the parsed value, or a ZodError holding the issues. *)
Definition schema_parse (sch : schema) (v : value) : outcome value :=
  match zparse sch [] v with
  | ([], out) => Ok out
  | (errors, _) => Throw (ZodError errors)
  end.

Definition code_name (c : zod_code) : jsstring :=
  match c with
  | invalid_type => utf16 "invalid_type"
  | too_small => utf16 "too_small"
  | invalid_enum_value => utf16 "invalid_enum_value"
  end.

Definition path_value (i : path_item) : value :=
  match i with
  | Key k => VStr k
  | Index i => VNum (Fin (inject_Z (Z.of_nat i)))
  end.

(** An issue as the object [error.errors] holds (its [code] and [path]). *)
Definition issue_value (i : zod_issue) : value :=
  VObj [(utf16 "code", VStr (code_name (code i)));
        (utf16 "path", VArr (List.map path_value (path i)))].

(** [for (const x of v)]: the items of an array, the code points of a
    string (a surrogate pair is one item), and a TypeError on what is not
    iterable. *)
Definition is_high_surrogate (c : char) : bool := (0xD800 <=? c)%N && (c <=? 0xDBFF)%N.
Definition is_low_surrogate (c : char) : bool := (0xDC00 <=? c)%N && (c <=? 0xDFFF)%N.

Fixpoint code_points (s : jsstring) : list jsstring :=
  match s with
  | [] => []
  | c :: rest =>
    match rest with
    | d :: rest' =>
        if is_high_surrogate c && is_low_surrogate d
        then [c; d] :: code_points rest'
        else [c] :: code_points rest
    | [] => [[c]]
    end
  end.

Definition iterate (v : value) : outcome (list value) :=
  match v with
  | VArr items => Ok items
  | VStr s => Ok (List.map VStr (code_points s))
  | _ => Throw (TypeError (utf16 "is not iterable"))
  end.

(* ------------------------------------------------------------------ *)
(** ** node:path (POSIX) *)

Definition slash : char := 47%N.
Definition dot : jsstring := utf16 ".".
Definition dotdot : jsstring := utf16 "..".

(** [normalizeString]: empty and [.] segments go, [..] takes the segment
    before it away when there is one to take. *)
Fixpoint normalize_segments (allow_above_root : bool) (acc segs : list jsstring)
  : list jsstring :=
  match segs with
  | [] => rev acc
  | seg :: rest =>
    if str_eqb seg [] || str_eqb seg dot then normalize_segments allow_above_root acc rest
    else if str_eqb seg dotdot then
      match acc with
      | last :: acc' =>
          if str_eqb last dotdot
          then normalize_segments allow_above_root (dotdot :: acc) rest
          else normalize_segments allow_above_root acc' rest
      | [] =>
          if allow_above_root
          then normalize_segments allow_above_root [dotdot] rest
          else normalize_segments allow_above_root [] rest
      end
    else normalize_segments allow_above_root (seg :: acc) rest
  end.

Definition normalize (p : jsstring) : jsstring :=
  match p with
  | [] => dot
  | c :: _ =>
    let absolute := char_eqb c slash in
    let trailing := endsWith [slash] p in
    let body := join [slash]
                  (normalize_segments (negb absolute) [] (split_char slash p)) in
    match body with
    | [] => if absolute then [slash] else if trailing then utf16 "./" else dot
    | _ => (if absolute then [slash] else [])
             ++ body ++ (if trailing then [slash] else [])
    end
  end.

(** [path.join(...parts)] *)
Definition path_join (parts : list jsstring) : jsstring :=
  match filter (fun s => negb (str_eqb s [])) parts with
  | [] => dot
  | ps => normalize (join [slash] ps)
  end.

(** [path.join] checks that every argument is a string. *)
Definition path_join_value (dir : jsstring) (v : value) : outcome jsstring :=
  match v with
  | VStr s => Ok (path_join [dir; s])
  | _ => Throw (TypeError (utf16 "The path argument must be of type string"))
  end.

Fixpoint strip_trailing_slashes (r : jsstring) : jsstring :=
  match r with
  | c :: r' => if char_eqb c slash then strip_trailing_slashes r' else r
  | [] => []
  end.

Fixpoint drop_to_slash (r : jsstring) : jsstring :=
  match r with
  | c :: r' => if char_eqb c slash then r else drop_to_slash r'
  | [] => []
  end.

(** [path.dirname(p)]: from the end and down to the second character, pass
    over the trailing slashes and then over the last segment; what precedes
    the slash found there is the directory. *)
Definition dirname (p : jsstring) : jsstring :=
  match p with
  | [] => dot
  | c :: rest =>
    let has_root := char_eqb c slash in
    match drop_to_slash (strip_trailing_slashes (rev rest)) with
    | [] => if has_root then [slash] else dot
    | _ :: r' =>
        match r' with
        | [] => if has_root then [slash; slash] else [c]
        | _ => c :: rev r'
        end
    end
  end.

(** [path.relative(process.cwd(), p)] for a relative [p]: [p] normalized,
    without a trailing slash, and the empty string for the working directory
    itself. *)
Definition relative_to_cwd (p : jsstring) : jsstring :=
  let n := rev (strip_trailing_slashes (rev (normalize p))) in
  if str_eqb n dot then [] else n.

(* ------------------------------------------------------------------ *)
(** ** The file tree under the working directory

    A file may be unreadable and a directory may refuse to be listed; the
    entries of a directory come in the order [readdir] returns them.  Links
    are left out (the specification assumes an acyclic tree), so an entry is
    a file exactly when it is not a directory. *)

Inductive node : Type :=
| File (content : option jsstring)
| Dir (listable : bool) (entries : list (jsstring * node)).

Fixpoint child (name : jsstring) (entries : list (jsstring * node)) : option node :=
  match entries with
  | [] => None
  | (n, x) :: rest => if str_eqb name n then Some x else child name rest
  end.

Fixpoint walk (n : node) (segs : list jsstring) : option node :=
  match segs with
  | [] => Some n
  | seg :: rest =>
    match n with
    | Dir _ entries =>
        match child seg entries with
        | Some x => walk x rest
        | None => None
        end
    | File _ => None
    end
  end.

(** The node a path names, from the working directory [cwd].  A path that
    leaves the working directory names nothing the model can see. *)
Definition lookup (cwd : node) (p : jsstring) : option node :=
  let n := normalize p in
  if startsWith [slash] n then None
  else
    let segs := filter (fun s => negb (str_eqb s [] || str_eqb s dot))
                       (split_char slash n) in
    match walk cwd segs with
    | Some (File c) => if endsWith [slash] n then None else Some (File c)
    | r => r
    end.

Definition existsSync (cwd : node) (p : jsstring) : bool :=
  match lookup cwd p with Some _ => true | None => false end.

Definition ENOENT : exn := SystemError (utf16 "ENOENT: no such file or directory").
Definition EISDIR : exn := SystemError (utf16 "EISDIR: illegal operation on a directory").
Definition ENOTDIR : exn := SystemError (utf16 "ENOTDIR: not a directory").
Definition EACCES : exn := SystemError (utf16 "EACCES: permission denied").

Definition read_node (n : node) : outcome jsstring :=
  match n with
  | File (Some c) => Ok c
  | File None => Throw EACCES
  | Dir _ _ => Throw EISDIR
  end.

(** [readFile(p, 'utf8')] *)
Definition readFile (cwd : node) (p : jsstring) : outcome jsstring :=
  match lookup cwd p with
  | Some n => read_node n
  | None => Throw ENOENT
  end.

Definition list_node (n : node) : outcome (list (jsstring * node)) :=
  match n with
  | Dir true entries => Ok entries
  | Dir false _ => Throw EACCES
  | File _ => Throw ENOTDIR
  end.

(** [readdir(p, { withFileTypes: true })] *)
Definition readdir (cwd : node) (p : jsstring) : outcome (list (jsstring * node)) :=
  match lookup cwd p with
  | Some n => list_node n
  | None => Throw ENOENT
  end.

Definition isDirectory (n : node) : bool :=
  match n with Dir _ _ => true | File _ => false end.

(* ------------------------------------------------------------------ *)
(** ** What the libraries and the runtime provide

    The scripts call into gray-matter, the JSON and YAML serializers, the URL
    parser and the number conversions of the language.  None of them is code
    of this repository; a [Host] supplies them, and every theorem below holds
    for every host. *)

Class Host : Type := {
  (** gray-matter: [matter(text)] gives [{ data, content }] or throws. *)
  matter : jsstring -> outcome (value * jsstring);
  (** [JSON.parse]: the value, or the message of the SyntaxError thrown. *)
  JSON_parse : jsstring -> jsstring + value;
  (** [JSON.stringify(v, null, 2)] and [yaml.stringify(v)]. *)
  JSON_stringify : value -> jsstring;
  yaml_stringify : value -> jsstring;
  (** ToNumber on strings, arrays and objects; ToString on numbers, arrays
      and objects. *)
  to_number_other : value -> number;
  number_to_string : number -> jsstring;
  object_to_string : value -> jsstring;
  (** Whether [new URL(s)] returns. *)
  URL_valid : jsstring -> bool
}.

Section WithHost.
Context {H : Host}.

(** ToNumber *)
Definition to_number (v : value) : number :=
  match v with
  | VUndefined => NaN
  | VNull => Fin 0
  | VBool b => if b then Fin 1 else Fin 0
  | VNum n => n
  | _ => to_number_other v
  end.

Definition json_parse (text : jsstring) : outcome value :=
  match JSON_parse text with
  | inl message => Throw (SyntaxError message)
  | inr v => Ok v
  end.

(** ToString, as a template literal applies it. *)
Definition to_string (v : value) : jsstring :=
  match v with
  | VUndefined => utf16 "undefined"
  | VNull => utf16 "null"
  | VBool b => if b then utf16 "true" else utf16 "false"
  | VNum n => number_to_string n
  | VStr s => s
  | _ => object_to_string v
  end.

(** [Math.min(...vs)] and [Math.max(...vs)] *)
Definition num_min (a b : number) : number :=
  match a, b with
  | NaN, _ | _, NaN => NaN
  | _, _ => if num_ltb b a then b else a
  end.
Definition num_max (a b : number) : number :=
  match a, b with
  | NaN, _ | _, NaN => NaN
  | _, _ => if num_ltb a b then b else a
  end.
Definition math_min (vs : list value) : number :=
  fold_left (fun acc v => num_min acc (to_number v)) vs PosInf.
Definition math_max (vs : list value) : number :=
  fold_left (fun acc v => num_max acc (to_number v)) vs NegInf.

(** [v < n] and [v > n] against a number literal. *)
Definition lt_num (v : value) (n : Z) : bool := num_ltb (to_number v) (Fin (inject_Z n)).
Definition gt_num (v : value) (n : Z) : bool := num_ltb (Fin (inject_Z n)) (to_number v).

End WithHost.

End JS.

(* ================================================================== *)
(** * scripts/content-checker.js: class ContentChecker *)
(* ================================================================== *)

Module ContentChecker.
Import JS.
Local Open Scope js_scope.

(** The texts the checker pushes, one constructor per template, holding what
    the template interpolates. *)
Inductive message : Type :=
| CannotReadFile (error_message : jsstring)
| MissingField (field : jsstring)
| DescriptionTooShort
| UnusualStudyTime
| NotEnoughContent (words : nat)
| FewHeadings
| UnfinishedTodo
| PlaceholderText
| MissingSection (section : jsstring)
| NotEnoughCodeExamples (blocks : nat)
| NoPackageDeclaration (example : nat)
| ErrorsNotChecked (example : nat)
| BrokenInternalLink (path : jsstring)
| InvalidURL (url : jsstring).

Record finding : Type := Finding { file : jsstring; text : message }.

Record counters : Type := Counters {
  totalFiles : nat;
  checkedFiles : nat;
  issue_count : nat;
  warning_count : nat
}.

(** The fields of [this]. *)
Record checker : Type := Checker {
  issues : list finding;
  warnings : list finding;
  stats : counters
}.

(** [constructor()] *)
Definition new : checker := Checker [] [] (Counters 0 0 0 0).

Definition addIssue (f : jsstring) (m : message) : M checker unit :=
  modify (fun c =>
    let s := stats c in
    Checker (issues c ++ [Finding f m]) (warnings c)
            (Counters (totalFiles s) (checkedFiles s) (S (issue_count s)) (warning_count s))).

Definition addWarning (f : jsstring) (m : message) : M checker unit :=
  modify (fun c =>
    let s := stats c in
    Checker (issues c) (warnings c ++ [Finding f m])
            (Counters (totalFiles s) (checkedFiles s) (issue_count s) (S (warning_count s)))).

Section WithHost.
Context {H : Host}.

Definition requiredFields : list jsstring :=
  [utf16 "title"; utf16 "description"; utf16 "authorId"; utf16 "category"].

(** [checkFrontmatter(frontmatter, filePath)] *)
Definition checkFrontmatter (frontmatter : value) (filePath : jsstring) : M checker unit :=
  for_each requiredFields (fun field =>
    v <- lift (get frontmatter field) ;;
    when (negb (truthy v)) (addIssue filePath (MissingField field))) ;;
  description <- lift (get frontmatter (utf16 "description")) ;;
  (if truthy description then
     len <- lift (get description (utf16 "length")) ;;
     when (lt_num len 50) (addWarning filePath DescriptionTooShort)
   else ret tt) ;;
  estimatedMinutes <- lift (get frontmatter (utf16 "estimatedMinutes")) ;;
  when (truthy estimatedMinutes
        && (lt_num estimatedMinutes 5 || gt_num estimatedMinutes 120))
       (addWarning filePath UnusualStudyTime).

(** [markdown.split(/\s+/).filter(word => word.length > 0)] *)
Definition words_of (markdown : jsstring) : list jsstring :=
  filter (fun word => (0 <? List.length word)%nat)
         (split (Plus true (Class is_space)) markdown).

(** [/^#{1,6}\s+.+$/gm] *)
Definition heading_re : regex :=
  seqs [Bol true; Between 1 5 (Chr 35%N); Plus true (Class is_space);
        Plus true (Class is_dot); Eol true].

(** [/lorem\s+ipsum/i] *)
Definition lorem_re : regex :=
  seqs [LitCI (utf16 "lorem"); Plus true (Class is_space); LitCI (utf16 "ipsum")].

(** [checkContent(markdown, filePath)] *)
Definition checkContent (markdown : jsstring) (filePath : jsstring) : M checker unit :=
  let words := words_of markdown in
  when (List.length words <? 800)%nat
       (addIssue filePath (NotEnoughContent (List.length words))) ;;
  let headings := match_all heading_re markdown in
  when (List.length headings <? 3)%nat (addWarning filePath FewHeadings) ;;
  when (includes (utf16 "TODO") markdown) (addWarning filePath UnfinishedTodo) ;;
  when (test lorem_re markdown) (addIssue filePath PlaceholderText).

Definition requiredSections : list jsstring :=
  [utf16 "## 🎯 Что вы изучите";
   utf16 "## 📚 Теоретическая часть";
   utf16 "## 💻 Практические примеры";
   utf16 "## 🎯 Практические упражнения"].

(** [checkStructure(markdown, filePath)] *)
Definition checkStructure (markdown : jsstring) (filePath : jsstring) : M checker unit :=
  for_each requiredSections (fun section =>
    when (negb (includes section markdown)) (addWarning filePath (MissingSection section))).

(** [/```go[\s\S]*?```/g] *)
Definition go_block_re : regex :=
  seqs [Lit (utf16 "```go"); Star false (Class any_char); Lit (utf16 "```")].

(** [block.replace(/```go\n?/, '').replace(/\n?```/, '')] *)
Definition strip_fence (block : jsstring) : jsstring :=
  remove_first (Seq (Opt (Chr newline)) (Lit (utf16 "```")))
    (remove_first (Seq (Lit (utf16 "```go")) (Opt (Chr newline))) block).

Fixpoint for_each_indexed {A} (i : nat) (xs : list A) (body : A -> nat -> M checker unit)
  : M checker unit :=
  match xs with
  | [] => ret tt
  | x :: xs' => body x i ;; for_each_indexed (S i) xs' body
  end.

(** [checkCodeExamples(markdown, filePath)] *)
Definition checkCodeExamples (markdown : jsstring) (filePath : jsstring) : M checker unit :=
  let codeBlocks := List.map matched (match_all go_block_re markdown) in
  when (List.length codeBlocks <? 3)%nat
       (addIssue filePath (NotEnoughCodeExamples (List.length codeBlocks))) ;;
  for_each_indexed 0 codeBlocks (fun block index =>
    let code := strip_fence block in
    when (negb (includes (utf16 "package ") code))
         (addWarning filePath (NoPackageDeclaration (index + 1))) ;;
    when (includes (utf16 "err :=") code && negb (includes (utf16 "if err != nil") code))
         (addWarning filePath (ErrorsNotChecked (index + 1)))).

Definition not_char (c : char) : char -> bool := fun x => negb (char_eqb c x).
Definition lbracket : char := 91%N.
Definition rbracket : char := 93%N.
Definition lparen : char := 40%N.
Definition rparen : char := 41%N.

(** [/\[([^\]]+)\]\((?!http)([^)]+)\)/g] *)
Definition internal_link_re : regex :=
  seqs [Chr lbracket; Group (Plus true (Class (not_char rbracket))); Chr rbracket;
        Chr lparen; NotAhead (Lit (utf16 "http"));
        Group (Plus true (Class (not_char rparen))); Chr rparen].

(** [/\(([^)]+)\)/] *)
Definition paren_re : regex :=
  seqs [Chr lparen; Group (Plus true (Class (not_char rparen))); Chr rparen].

(** [https?:\/\/[^)]+] *)
Definition url_body : regex :=
  seqs [Lit (utf16 "http"); Opt (Chr 115%N); Lit (utf16 "://");
        Plus true (Class (not_char rparen))].

(** [/\[([^\]]+)\]\((https?:\/\/[^)]+)\)/g] *)
Definition external_link_re : regex :=
  seqs [Chr lbracket; Group (Plus true (Class (not_char rbracket))); Chr rbracket;
        Chr lparen; Group url_body; Chr rparen].

(** [/\((https?:\/\/[^)]+)\)/] *)
Definition paren_url_re : regex := seqs [Chr lparen; Group url_body; Chr rparen].

(** [link.match(re)[1]]: indexing [null] throws. *)
Definition first_group (re : regex) (link : jsstring) : outcome jsstring :=
  match match_first re link with
  | Some f => Ok (group 1 f)
  | None => Throw (TypeError (utf16 "Cannot read properties of null"))
  end.

(** [checkLinks(markdown, filePath)] *)
Definition checkLinks (cwd : node) (markdown : jsstring) (filePath : jsstring)
  : M checker unit :=
  let internalLinks := List.map matched (match_all internal_link_re markdown) in
  for_each internalLinks (fun link =>
    path <- lift (first_group paren_re link) ;;
    when (negb (startsWith (utf16 "#") path)
          && negb (existsSync cwd (path_join [utf16 "content"; path])))
         (addWarning filePath (BrokenInternalLink path))) ;;
  let externalLinks := List.map matched (match_all external_link_re markdown) in
  for_each externalLinks (fun link =>
    url <- lift (first_group paren_url_re link) ;;
    when (negb (URL_valid url)) (addWarning filePath (InvalidURL url))).

(** [checkFile(filePath)], the file being the entry [readdir] listed. *)
Definition checkFile (cwd : node) (filePath : jsstring) (entry : node) : M checker unit :=
  try_catch
    (content <- lift (read_node entry) ;;
     parsed <- lift (matter content) ;;
     let frontmatter := fst parsed in
     let markdown := snd parsed in
     let relativePath := relative_to_cwd filePath in
     checkFrontmatter frontmatter relativePath ;;
     checkContent markdown relativePath ;;
     checkStructure markdown relativePath ;;
     checkCodeExamples markdown relativePath ;;
     checkLinks cwd markdown relativePath)
    (fun error => addIssue filePath (CannotReadFile (exn_message error))).

(** [findMarkdownFiles(dir)], [n] being the node at [dir]. *)
Fixpoint findMarkdownFiles (dir : jsstring) (n : node) {struct n}
  : outcome (list (jsstring * node)) :=
  match n with
  | File _ => Throw ENOTDIR
  | Dir false _ => Throw EACCES
  | Dir true entries =>
    (fix each (es : list (jsstring * node)) : outcome (list (jsstring * node)) :=
       match es with
       | [] => Ok []
       | (name, x) :: rest =>
         let fullPath := path_join [dir; name] in
         match (if isDirectory x then findMarkdownFiles fullPath x
                else Ok (if endsWith (utf16 ".md") name then [(fullPath, x)] else []))
         with
         | Throw e => Throw e
         | Ok here =>
           match each rest with
           | Ok more => Ok (here ++ more)
           | Throw e => Throw e
           end
         end
       end) entries
  end.

Definition set_totalFiles (n : nat) : M checker unit :=
  modify (fun c => let s := stats c in
    Checker (issues c) (warnings c)
            (Counters n (checkedFiles s) (issue_count s) (warning_count s))).

Definition count_checked : M checker unit :=
  modify (fun c => let s := stats c in
    Checker (issues c) (warnings c)
            (Counters (totalFiles s) (S (checkedFiles s)) (issue_count s) (warning_count s))).

(** The body of the [try] block of [run], up to the exit code it passes to
    [process.exit]. *)
Definition run_body (cwd : node) : M checker nat :=
  files <- lift (match lookup cwd (utf16 "content") with
                 | Some n => findMarkdownFiles (utf16 "content") n
                 | None => Throw ENOENT
                 end) ;;
  set_totalFiles (List.length files) ;;
  for_each files (fun f => checkFile cwd (fst f) (snd f) ;; count_checked) ;;
  found <- gets issues ;;
  ret (if (0 <? List.length found)%nat then 1 else 0)%nat.

(** [run()]: the exit code of the process and the checker it leaves.  Without
    a [content] directory [run] returns at once and the process ends with
    code 0; an exception that reaches the [catch] of [run] ends it with 1. *)
Definition run (cwd : node) : nat * checker :=
  if negb (existsSync cwd (utf16 "content")) then (0%nat, new)
  else
    match run_body cwd new with
    | (Ok code, c) => (code, c)
    | (Throw _, c) => (1%nat, c)
    end.

End WithHost.
End ContentChecker.

(* ================================================================== *)
(** * scripts/content-author.js: ConfigManager and ContentValidator *)
(* ================================================================== *)

Module ContentAuthor.
Import JS.
Local Open Scope js_scope.

Definition CONFIG_FILE : jsstring := utf16 "content.config.json".

(** [new ConfigError(message, code, details)] and
    [new ValidationError(message, code, details)] *)
Definition ConfigError (code : string) (details : list (jsstring * value)) : exn :=
  Custom (utf16 "ConfigError") (utf16 code) (VObj details).
Definition ValidationError (code : string) (details : list (jsstring * value)) : exn :=
  Custom (utf16 "ValidationError") (utf16 code) (VObj details).

(** [error instanceof ValidationError || error instanceof ConfigError] *)
Definition is_author_error (e : exn) : bool :=
  match e with
  | Custom name _ _ =>
      str_eqb name (utf16 "ValidationError") || str_eqb name (utf16 "ConfigError")
  | _ => false
  end.

Definition structure_schema : schema :=
  ZObject [(utf16 "defaultLanguage", ZString);
           (utf16 "languages", ZArray 1 ZString)].

Definition godojo_schema : schema :=
  ZObject [(utf16 "platform", ZOptional ZString);
           (utf16 "apiEndpoint", ZOptional ZString)].

Definition category_schema : schema :=
  ZObject [(utf16 "slug", ZString);
           (utf16 "titleRu", ZString);
           (utf16 "titleEn", ZOptional ZString);
           (utf16 "descriptionRu", ZString);
           (utf16 "descriptionEn", ZOptional ZString);
           (utf16 "modules", ZString);
           (utf16 "difficulty",
              ZEnum [utf16 "Beginner"; utf16 "Intermediate"; utf16 "Advanced"]);
           (utf16 "estimatedHours", ZNumber true)].

Definition categories_schema : schema := ZArray 0 category_schema.

Definition quality_schema : schema :=
  ZObject [(utf16 "minWords", ZNumber true);
           (utf16 "minCodeExamples", ZNumber true);
           (utf16 "minExercises", ZNumber true)].

(** [ConfigSchema] *)
Definition ConfigSchema : schema :=
  ZObject [(utf16 "structure", structure_schema);
           (utf16 "godojo", godojo_schema);
           (utf16 "categories", categories_schema);
           (utf16 "quality", quality_schema)].

(** The private field [#config] of a ConfigManager, [null] until loaded. *)
Record manager : Type := Manager { config : option value }.

Definition new : manager := Manager None.

Section WithHost.
Context {H : Host}.

(** [#validateConfig(config)] *)
Definition validateConfig (raw : value) : outcome value := schema_parse ConfigSchema raw.

(** [loadConfig(configPath = CONFIG_FILE)] *)
Definition loadConfig (cwd : node) (configPath : jsstring) : M manager value :=
  if negb (existsSync cwd configPath) then
    throw (ConfigError "CONFIG_NOT_FOUND" [(utf16 "configPath", VStr configPath)])
  else
    try_catch
      (configContent <- lift (readFile cwd configPath) ;;
       rawConfig <- lift (json_parse configContent) ;;
       validated <- lift (validateConfig rawConfig) ;;
       modify (fun _ => Manager (Some validated)) ;;
       ret validated)
      (fun error =>
         match error with
         | SyntaxError message =>
             throw (ConfigError "CONFIG_INVALID_JSON"
                      [(utf16 "configPath", VStr configPath);
                       (utf16 "originalError", VStr message)])
         | ZodError errors =>
             throw (ValidationError "VALIDATION_SCHEMA_FAILED"
                      [(utf16 "errors", VArr (List.map issue_value errors))])
         | _ =>
             if is_author_error error then throw error
             else throw (ConfigError "CONFIG_LOAD_FAILED"
                           [(utf16 "configPath", VStr configPath);
                            (utf16 "originalError", VStr (exn_message error))])
         end).

(** [getConfig()] and [getQualityStandards()] *)
Definition getConfig : M manager value :=
  c <- gets config ;;
  match c with
  | Some v => ret v
  | None => throw (ConfigError "CONFIG_NOT_LOADED" [])
  end.

Definition getQualityStandards : M manager value :=
  c <- getConfig ;; lift (get c (utf16 "quality")).

(** [/^---[\s\S]*?---\n/] *)
Definition frontmatter_re : regex :=
  seqs [Bol false; Lit (utf16 "---"); Star false (Class any_char);
        Lit (utf16 "---"); Chr newline].

(** [/```[\s\S]*?```/g] *)
Definition code_block_re : regex :=
  seqs [Lit (utf16 "```"); Star false (Class any_char); Lit (utf16 "```")].

(** [#countWords(content)] *)
Definition countWords (content : jsstring) : nat :=
  let contentWithoutFrontmatter := remove_first frontmatter_re content in
  let contentWithoutCode := remove_all code_block_re contentWithoutFrontmatter in
  List.length
    (filter (fun word => (0 <? List.length word)%nat)
            (split (Plus true (Class is_space)) contentWithoutCode)).

(** [#countCodeExamples(content)], on [/```go[\s\S]*?```/g] *)
Definition countCodeExamples (content : jsstring) : nat :=
  List.length
    (match_all (seqs [Lit (utf16 "```go"); Star false (Class any_char);
                      Lit (utf16 "```")]) content).

(** [#countExercises(content)], on [/### Упражнение \d+:/g] *)
Definition countExercises (content : jsstring) : nat :=
  List.length
    (match_all (seqs [Lit (utf16 "### Упражнение "); Plus true (Class is_digit);
                      Chr 58%N]) content).

(** The entries of the array [errors] of [validateContent]. *)
Inductive quality_error : Type :=
| WordCountBelow (wordCount : nat) (minWords : value)
| CodeExamplesBelow (codeExamples : nat) (minCodeExamples : value)
| ExercisesBelow (exercises : nat) (minExercises : value).

(** [count < standards.field] *)
Definition below (count : nat) (minimum : value) : bool :=
  num_ltb (Fin (inject_Z (Z.of_nat count))) (to_number minimum).

Definition field_of (standards : value) (k : string) : value :=
  match standards with
  | VObj props => prop (utf16 k) props
  | _ => VUndefined
  end.

(** The three rules of [validateContent], in order. *)
Definition quality_errors (content : jsstring) (standards : value)
  : list quality_error :=
  let minWords := field_of standards "minWords" in
  let minCodeExamples := field_of standards "minCodeExamples" in
  let minExercises := field_of standards "minExercises" in
  let wordCount := countWords content in
  let codeExamples := countCodeExamples content in
  let exercises := countExercises content in
  (if below wordCount minWords then [WordCountBelow wordCount minWords] else [])
  ++ (if below codeExamples minCodeExamples
      then [CodeExamplesBelow codeExamples minCodeExamples] else [])
  ++ (if below exercises minExercises
      then [ExercisesBelow exercises minExercises] else []).

(** [`${v}`] for a threshold of the configuration. *)
Definition show_value (v : value) : jsstring :=
  match v with
  | VNum n => number_to_string n
  | VStr s => s
  | _ => []
  end.

(** The text pushed for each entry. *)
Definition render (e : quality_error) : jsstring :=
  match e with
  | WordCountBelow n m =>
      utf16 "Word count (" ++ decimal n ++ utf16 ") is below minimum ("
        ++ show_value m ++ utf16 ")"
  | CodeExamplesBelow n m =>
      utf16 "Code examples (" ++ decimal n ++ utf16 ") below minimum ("
        ++ show_value m ++ utf16 ")"
  | ExercisesBelow n m =>
      utf16 "Exercises (" ++ decimal n ++ utf16 ") below minimum ("
        ++ show_value m ++ utf16 ")"
  end.

(** [validateContent(filePath)] *)
Definition validateContent (cwd : node) (filePath : jsstring) : M manager unit :=
  if negb (existsSync cwd filePath) then
    throw (ValidationError "VALIDATION_FILE_NOT_FOUND" [(utf16 "filePath", VStr filePath)])
  else
    content <- lift (readFile cwd filePath) ;;
    standards <- getQualityStandards ;;
    match standards with
    | VUndefined | VNull =>
        throw (TypeError (utf16 "Cannot read properties of undefined"))
    | _ =>
      let errors := quality_errors content standards in
      if (0 <? List.length errors)%nat then
        throw (ValidationError "VALIDATION_QUALITY_FAILED"
                 [(utf16 "filePath", VStr filePath);
                  (utf16 "errors", VArr (List.map (fun e => VStr (render e)) errors))])
      else ret tt
    end.

End WithHost.
End ContentAuthor.

(* ================================================================== *)
(** * scripts/structure-validator.js: class StructureValidator *)
(* ================================================================== *)

Module StructureValidator.
Import JS.
Local Open Scope js_scope.

(** The texts pushed onto [errors] and [warnings], one constructor per
    template, holding what the template interpolates. *)
Inductive message : Type :=
| MissingRootItem (item : jsstring)
| MissingScript (script : jsstring)
| NoContentDirectory
| MissingCategoryDirectory (slug : value)
| MissingCategoryIndex (slug : value)
| ConfigReadError (error_message : jsstring)
| SlugMismatch (indexPath : jsstring)
| MissingIndexField (field indexPath : jsstring)
| IndexReadError (indexPath error_message : jsstring)
| NoTopics (categoryPath : jsstring)
| BadTopicDirectoryName (name : jsstring)
| MissingTopicFile (topicPath : jsstring)
| MissingTopicField (field topicPath : jsstring)
| BadModuleNumber (module : value) (topicPath : jsstring)
| TopicReadError (topicPath error_message : jsstring)
| ConfigNotFound
| MissingConfigSection (section : jsstring)
| DuplicateSlug (slug : value)
| MissingCategoryField (field : jsstring) (category : value)
| ConfigParseError (error_message : jsstring)
| BadDirectoryName (path : jsstring)
| BadFileName (path : jsstring)
| NumberingGap (category : jsstring) (expected found : nat).

(** The fields [errors] and [warnings] of [this]. *)
Record validator : Type := Validator {
  errors : list message;
  warnings : list message
}.

Definition new : validator := Validator [] [].

Definition addError (m : message) : M validator unit :=
  modify (fun v => Validator (errors v ++ [m]) (warnings v)).

Definition addWarning (m : message) : M validator unit :=
  modify (fun v => Validator (errors v) (warnings v ++ [m])).

(** [expectedStructure] *)
Definition expected_root : list jsstring :=
  [utf16 "content"; utf16 "content.config.json"; utf16 "package.json";
   utf16 "CONTRIBUTING.md"; utf16 "README.md"; utf16 "scripts"].

Definition expected_scripts : list jsstring :=
  [utf16 "content-author.js"; utf16 "content-checker.js";
   utf16 "content-formatter.js"; utf16 "content-builder.js"; utf16 "git-sync.js";
   utf16 "structure-validator.js"; utf16 "structure-generator.js"; utf16 "help.js"].

Section WithHost.
Context {H : Host}.
Variable cwd : node.

(** [validateRootStructure()] *)
Definition validateRootStructure : M validator unit :=
  for_each expected_root (fun item =>
    when (negb (existsSync cwd item)) (addError (MissingRootItem item))) ;;
  when (existsSync cwd (utf16 "scripts"))
    (for_each expected_scripts (fun script =>
       let scriptPath := path_join [utf16 "scripts"; script] in
       when (negb (existsSync cwd scriptPath)) (addWarning (MissingScript script)))).

(** [loadConfig()]: the parsed configuration, or [null] after pushing an
    error. *)
Definition loadConfig : M validator value :=
  try_catch
    (configContent <- lift (readFile cwd (utf16 "content.config.json")) ;;
     lift (json_parse configContent))
    (fun error => addError (ConfigReadError (exn_message error)) ;; ret VNull).

(** [validateCategoryIndex(indexPath, categoryConfig)] *)
Definition validateCategoryIndex (indexPath : jsstring) (categoryConfig : value)
  : M validator unit :=
  try_catch
    (content <- lift (readFile cwd indexPath) ;;
     parsed <- lift (matter content) ;;
     let frontmatter := fst parsed in
     category <- lift (get frontmatter (utf16 "category")) ;;
     slug <- lift (get categoryConfig (utf16 "slug")) ;;
     when (negb (strict_equal category slug)) (addError (SlugMismatch indexPath)) ;;
     for_each [utf16 "title"; utf16 "description"; utf16 "difficulty"; utf16 "authorId"]
       (fun field =>
          v <- lift (get frontmatter field) ;;
          when (negb (truthy v)) (addError (MissingIndexField field indexPath))))
    (fun error => addError (IndexReadError indexPath (exn_message error))).

Definition topic_fields : list jsstring :=
  [utf16 "title"; utf16 "description"; utf16 "module"; utf16 "category";
   utf16 "slug"; utf16 "difficulty"; utf16 "authorId"].

(** [validateTopicFile(topicPath)], the file being the node at that path. *)
Definition validateTopicFile (topicPath : jsstring) (file : node) : M validator unit :=
  try_catch
    (content <- lift (read_node file) ;;
     parsed <- lift (matter content) ;;
     let frontmatter := fst parsed in
     for_each topic_fields (fun field =>
       v <- lift (get frontmatter field) ;;
       when (negb (truthy v))
            (addError (MissingTopicField field (relative_to_cwd topicPath)))) ;;
     module <- lift (get frontmatter (utf16 "module")) ;;
     when (truthy module && (lt_num module 1 || gt_num module 79))
          (addWarning (BadModuleNumber module (relative_to_cwd topicPath))))
    (fun error =>
       addError (TopicReadError (relative_to_cwd topicPath) (exn_message error))).

Definition hyphen : char := 45%N.

(** [/^\d{2}-/] *)
Definition topic_prefix_re : regex :=
  seqs [Bol false; Times 2 (Class is_digit); Chr hyphen].

(** [validateTopicsStructure(categoryPath)] *)
Definition validateTopicsStructure (categoryPath : jsstring) : M validator unit :=
  entries <- lift (readdir cwd categoryPath) ;;
  let topicDirs := filter (fun e => isDirectory (snd e)) entries in
  when (List.length topicDirs =? 0)%nat
       (addWarning (NoTopics (relative_to_cwd categoryPath))) ;;
  for_each topicDirs (fun dir =>
    let topicPath := path_join [categoryPath; fst dir] in
    when (negb (test topic_prefix_re (fst dir)))
         (addWarning (BadTopicDirectoryName (fst dir))) ;;
    let topicFile := path_join [topicPath; utf16 "topic.md"] in
    match walk (snd dir) [utf16 "topic.md"] with
    | None => addError (MissingTopicFile (relative_to_cwd topicPath))
    | Some file => validateTopicFile topicFile file
    end).

(** [validateContentStructure()] *)
Definition validateContentStructure : M validator unit :=
  let contentDir := utf16 "content" in
  if negb (existsSync cwd contentDir) then addError NoContentDirectory
  else
    config <- loadConfig ;;
    if negb (truthy config) then ret tt
    else
      cats <- lift (get config (utf16 "categories")) ;;
      categories <- lift (iterate cats) ;;
      for_each categories (fun category =>
        slug <- lift (get category (utf16 "slug")) ;;
        categoryPath <- lift (path_join_value contentDir slug) ;;
        if negb (existsSync cwd categoryPath) then
          addError (MissingCategoryDirectory slug)
        else
          let indexPath := path_join [categoryPath; utf16 "index.md"] in
          (if negb (existsSync cwd indexPath)
           then addError (MissingCategoryIndex slug)
           else validateCategoryIndex indexPath category) ;;
          validateTopicsStructure categoryPath).

Definition config_sections : list jsstring :=
  [utf16 "structure"; utf16 "categories"; utf16 "quality"; utf16 "godojo"].

Definition category_fields : list jsstring :=
  [utf16 "slug"; utf16 "titleRu"; utf16 "modules"; utf16 "difficulty"].

(** The loop of [validateConfiguration] over [config.categories], with the
    Set [slugs] as the list of the slugs added so far. *)
Fixpoint check_categories (slugs : list value) (categories : list value)
  : M validator unit :=
  match categories with
  | [] => ret tt
  | category :: rest =>
    slug <- lift (get category (utf16 "slug")) ;;
    when (existsb (same_value_zero slug) slugs) (addError (DuplicateSlug slug)) ;;
    for_each category_fields (fun field =>
      v <- lift (get category field) ;;
      when (negb (truthy v))
           (addError (MissingCategoryField field
                        (if truthy slug then slug else str "unknown")))) ;;
    check_categories (slugs ++ [slug]) rest
  end.

(** [validateConfiguration()] *)
Definition validateConfiguration : M validator unit :=
  let configPath := utf16 "content.config.json" in
  if negb (existsSync cwd configPath) then addError ConfigNotFound
  else
    try_catch
      (content <- lift (readFile cwd configPath) ;;
       config <- lift (json_parse content) ;;
       for_each config_sections (fun section =>
         v <- lift (get config section) ;;
         when (negb (truthy v)) (addError (MissingConfigSection section))) ;;
       categories <- lift (get config (utf16 "categories")) ;;
       match categories with
       | VArr items => check_categories [] items
       | _ => ret tt
       end)
      (fun error => addError (ConfigParseError (exn_message error))).

Definition name_char (c : char) : bool := is_lower c || is_digit c || char_eqb c hyphen.

(** [/^[a-z0-9-]+$/] and [/^[a-z0-9-]+\.md$/] *)
Definition dir_name_re : regex := seqs [Bol false; Plus true (Class name_char); Eol false].
Definition md_name_re : regex :=
  seqs [Bol false; Plus true (Class name_char); Lit (utf16 ".md"); Eol false].

(** [checkNaming(dir)], [n] being the node at [dir]. *)
Fixpoint checkNaming (dir : jsstring) (n : node) {struct n} : M validator unit :=
  match n with
  | File _ => throw ENOTDIR
  | Dir false _ => throw EACCES
  | Dir true entries =>
    (fix each (es : list (jsstring * node)) : M validator unit :=
       match es with
       | [] => ret tt
       | (name, x) :: rest =>
         let fullPath := path_join [dir; name] in
         (if isDirectory x then
            when (negb (test dir_name_re name))
                 (addWarning (BadDirectoryName (relative_to_cwd fullPath))) ;;
            checkNaming fullPath x
          else
            when (endsWith (utf16 ".md") name && negb (test md_name_re name))
                 (addWarning (BadFileName (relative_to_cwd fullPath)))) ;;
         each rest
       end) entries
  end.

(** [validateNamingConventions()] *)
Definition validateNamingConventions : M validator unit :=
  let contentDir := utf16 "content" in
  match lookup cwd contentDir with
  | None => ret tt
  | Some n => checkNaming contentDir n
  end.

(** [/^(\d{2})-/] *)
Definition topic_number_re : regex :=
  seqs [Bol false; Group (Times 2 (Class is_digit)); Chr hyphen].

(** [parseInt] of a string of decimal digits. *)
Definition parse_digits (s : jsstring) : nat :=
  fold_left (fun acc c => 10 * acc + N.to_nat (c - 48)%N)%nat s 0%nat.

Fixpoint insert_sorted (n : nat) (l : list nat) : list nat :=
  match l with
  | [] => [n]
  | m :: l' => if (n <? m)%nat then n :: l else m :: insert_sorted n l'
  end.

(** [topicNumbers.sort((a, b) => a - b)] *)
Definition sort_numbers (l : list nat) : list nat :=
  fold_left (fun acc n => insert_sorted n acc) l [].

(** The loop that compares [topicNumbers[i]] with [i + 1] and stops at the
    first difference. *)
Fixpoint check_sequence (category : jsstring) (i : nat) (numbers : list nat)
  : M validator unit :=
  match numbers with
  | [] => ret tt
  | n :: rest =>
    let expected := (i + 1)%nat in
    if negb (n =? expected)%nat then addWarning (NumberingGap category expected n)
    else check_sequence category (S i) rest
  end.

(** [validateIntegrity()] *)
Definition validateIntegrity : M validator unit :=
  let contentDir := utf16 "content" in
  if negb (existsSync cwd contentDir) then ret tt
  else
    categories <- lift (readdir cwd contentDir) ;;
    for_each categories (fun category =>
      if negb (isDirectory (snd category)) then ret tt
      else
        topics <- lift (list_node (snd category)) ;;
        let topicNumbers :=
          flat_map (fun topic =>
            if negb (isDirectory (snd topic)) then []
            else match match_first topic_number_re (fst topic) with
                 | Some f => [parse_digits (group 1 f)]
                 | None => []
                 end) topics in
        check_sequence (fst category) 0 (sort_numbers topicNumbers)).

(** The body of the [try] block of [run], up to the exit code it passes to
    [process.exit]. *)
Definition run_body : M validator nat :=
  validateRootStructure ;;
  validateContentStructure ;;
  validateConfiguration ;;
  validateNamingConventions ;;
  validateIntegrity ;;
  found <- gets errors ;;
  ret (if (0 <? List.length found)%nat then 1 else 0)%nat.

(** Whether the [try] block of [run] ran to its end. *)
Inductive ending : Type := Completed | Aborted (error : exn).

(** [run()]: the exit code of the process, how the run ended, and the
    validator it leaves.  An exception that reaches the [catch] of [run] ends
    the process with code 1. *)
Definition run : nat * ending * validator :=
  match run_body new with
  | (Ok exit_code, v) => (exit_code, Completed, v)
  | (Throw e, v) => (1%nat, Aborted e, v)
  end.

End WithHost.
End StructureValidator.

(* ================================================================== *)
(** * scripts/godojo-validator.js: GoDojoValidator and GoDojoPrepare *)
(* ================================================================== *)

Module GoDojoValidator.
Import JS.
Local Open Scope js_scope.

Inductive dangerous : Type := OsExit | Panic | EmptyFor | Goroutine.

(** The texts pushed onto [errors] and [warnings]; each starts with the path
    of the file, which is the first argument. *)
Inductive message : Type :=
| FileTooLarge (path : jsstring)
| NoFrontmatter (path : jsstring)
| MissingField (path field : jsstring)
| BadDifficulty (path difficulty : jsstring)
| BadLanguage (path language : jsstring)
| BadModule (path module : jsstring)
| FrontmatterParseError (path : jsstring)
| NotEnoughContent (path : jsstring) (words : nat)
| NotEnoughCodeExamples (path : jsstring) (blocks : nat)
| ForbiddenImport (path forbidden : jsstring)
| NotEnoughExercises (path : jsstring) (exercises : nat)
| ReadError (path error_message : jsstring)
| CodeBlockTooLarge (path : jsstring) (size : nat)
| DangerousCode (path : jsstring) (pattern : dangerous)
| MissingSection (path section : jsstring).

Record validator : Type := Validator {
  errors : list message;
  warnings : list message;
  passed : list jsstring
}.

Definition new : validator := Validator [] [] [].

Definition addError (m : message) : M validator unit :=
  modify (fun v => Validator (errors v ++ [m]) (warnings v) (passed v)).
Definition addWarning (m : message) : M validator unit :=
  modify (fun v => Validator (errors v) (warnings v ++ [m]) (passed v)).

(** [requirements] *)
Definition minWordsPerTopic : nat := 800.
Definition minCodeExamples : nat := 3.
Definition minExercises : nat := 2.
Definition maxTopicSize : N := 50000.
Definition maxCodeBlockSize : N := 5000.
Definition requiredFields : list jsstring :=
  [utf16 "title"; utf16 "description"; utf16 "module"; utf16 "category";
   utf16 "difficulty"; utf16 "authorId"; utf16 "language"].
Definition validDifficulties : list jsstring :=
  [utf16 "Beginner"; utf16 "Intermediate"; utf16 "Advanced"].
Definition validLanguages : list jsstring := [utf16 "ru"; utf16 "en"].
Definition forbiddenImports : list jsstring :=
  [utf16 "os/exec"; utf16 "syscall"; utf16 "unsafe"].

(** [/^---\n([\s\S]*?)\n---/] *)
Definition frontmatter_match_re : regex :=
  seqs [Bol false; Lit (utf16 "---"); Chr newline;
        Group (Star false (Class any_char)); Chr newline; Lit (utf16 "---")].

(** [/^---[\s\S]*?---\n/] *)
Definition frontmatter_strip_re : regex :=
  seqs [Bol false; Lit (utf16 "---"); Star false (Class any_char);
        Lit (utf16 "---"); Chr newline].

(** [/^(\w+):\s*(.+)$/] *)
Definition line_re : regex :=
  seqs [Bol false; Group (Plus true (Class is_word)); Chr 58%N;
        Star true (Class is_space); Group (Plus true (Class is_dot)); Eol false].

Definition is_quote (c : char) : bool := char_eqb c dquote || char_eqb c 39%N.

(** [/^["']|["']$/g] *)
Definition quotes_re : regex :=
  Alt (Seq (Bol false) (Class is_quote)) (Seq (Class is_quote) (Eol false)).

(** The loop of [validateFrontmatter] that fills the object [frontmatter]
    line by line; its values are strings. *)
Definition parse_lines (frontmatterText : jsstring) : list (jsstring * value) :=
  fold_left
    (fun frontmatter line =>
       match match_first line_re line with
       | Some f => set_prop (group 1 f) (VStr (remove_all quotes_re (group 2 f))) frontmatter
       | None => frontmatter
       end)
    (split_char newline frontmatterText) [].

Definition hex_value (c : char) : option nat :=
  if is_digit c then Some (N.to_nat (c - 48)%N)
  else if (97 <=? c)%N && (c <=? 102)%N then Some (N.to_nat (c - 87)%N)
  else if (65 <=? c)%N && (c <=? 70)%N then Some (N.to_nat (c - 55)%N)
  else None.

Fixpoint digits_value (radix : nat) (acc : option nat) (s : jsstring) : option nat :=
  match s with
  | [] => acc
  | c :: rest =>
    match hex_value c with
    | Some d =>
        if (d <? radix)%nat
        then digits_value radix
               (Some (radix * match acc with Some a => a | None => 0 end + d)%nat) rest
        else acc
    | None => acc
    end
  end.

(** [parseInt(s)]: leading white space, a sign, [0x] for radix 16, then the
    digits there are; [None] is NaN.  The integer is exact here, where the
    language rounds it to a double; the comparisons made on it are the
    same. *)
Definition parseInt (s : jsstring) : option Z :=
  let t := trimStart s in
  let (negative, t1) :=
    match t with
    | c :: rest => if char_eqb c 45%N then (true, rest)
                   else if char_eqb c 43%N then (false, rest) else (false, t)
    | [] => (false, t)
    end in
  let (radix, t2) :=
    match t1 with
    | z :: x :: rest =>
        if char_eqb z 48%N && (char_eqb x 120%N || char_eqb x 88%N)
        then (16%nat, rest) else (10%nat, t1)
    | _ => (10%nat, t1)
    end in
  match digits_value radix None t2 with
  | Some n => Some (if negative then (- Z.of_nat n)%Z else Z.of_nat n)
  | None => None
  end.

Definition string_field (k : string) (frontmatter : list (jsstring * value)) : jsstring :=
  match prop (utf16 k) frontmatter with VStr s => s | _ => [] end.

(** [validateFrontmatter(frontmatterText, filePath)] *)
Definition validateFrontmatter (frontmatterText filePath : jsstring) : M validator unit :=
  try_catch
    (let frontmatter := parse_lines frontmatterText in
     for_each requiredFields (fun field =>
       when (negb (truthy (prop field frontmatter)))
            (addError (MissingField filePath field))) ;;
     let difficulty := string_field "difficulty" frontmatter in
     when (truthy (VStr difficulty) && negb (existsb (str_eqb difficulty) validDifficulties))
          (addError (BadDifficulty filePath difficulty)) ;;
     let language := string_field "language" frontmatter in
     when (truthy (VStr language) && negb (existsb (str_eqb language) validLanguages))
          (addError (BadLanguage filePath language)) ;;
     let module := string_field "module" frontmatter in
     when (truthy (VStr module)
           && match parseInt module with
              | None => true
              | Some m => (m <? 1)%Z || (79 <? m)%Z
              end)
          (addError (BadModule filePath module)))
    (fun _ => addError (FrontmatterParseError filePath)).

(** [/```go[\s\S]*?```/g] and [/### Упражнение \d+:/g] *)
Definition go_block_re : regex :=
  seqs [Lit (utf16 "```go"); Star false (Class any_char); Lit (utf16 "```")].
Definition exercise_re : regex :=
  seqs [Lit (utf16 "### Упражнение "); Plus true (Class is_digit); Chr 58%N].

(** [dangerousPatterns]: [/os\.Exit/], [/panic\(/], [/for\s*{\s*}/],
    [/go\s+func/] *)
Definition dangerous_re (d : dangerous) : regex :=
  match d with
  | OsExit => Lit (utf16 "os.Exit")
  | Panic => Lit (utf16 "panic(")
  | EmptyFor => seqs [Lit (utf16 "for"); Star true (Class is_space); Chr 123%N;
                      Star true (Class is_space); Chr 125%N]
  | Goroutine => seqs [Lit (utf16 "go"); Plus true (Class is_space); Lit (utf16 "func")]
  end.

(** [validateCodeBlock(codeBlock, filePath)] *)
Definition validateCodeBlock (codeBlock filePath : jsstring) : M validator unit :=
  let code :=
    remove_first (Seq (Opt (Chr newline)) (Lit (utf16 "```")))
      (remove_first (Seq (Lit (utf16 "```go")) (Opt (Chr newline))) codeBlock) in
  when (maxCodeBlockSize <? N.of_nat (List.length code))%N
       (addWarning (CodeBlockTooLarge filePath (List.length code))) ;;
  for_each forbiddenImports (fun forbiddenImport =>
    when (includes (utf16 "import " ++ [dquote] ++ forbiddenImport ++ [dquote]) code
          || includes (utf16 "import " ++ forbiddenImport) code)
         (addError (ForbiddenImport filePath forbiddenImport))) ;;
  for_each [OsExit; Panic; EmptyFor; Goroutine] (fun pattern =>
    when (test (dangerous_re pattern) code) (addWarning (DangerousCode filePath pattern))).

Definition requiredSections : list jsstring :=
  [utf16 "🎯 Что вы изучите"; utf16 "📚 Теоретическая часть";
   utf16 "💻 Практические примеры"].

(** [validateContent(markdown, filePath)] *)
Definition validateContent (markdown filePath : jsstring) : M validator unit :=
  let words := List.length (filter (fun w => (0 <? List.length w)%nat)
                              (split (Plus true (Class is_space)) markdown)) in
  when (words <? minWordsPerTopic)%nat (addError (NotEnoughContent filePath words)) ;;
  let codeBlocks := List.map matched (match_all go_block_re markdown) in
  when (List.length codeBlocks <? minCodeExamples)%nat
       (addError (NotEnoughCodeExamples filePath (List.length codeBlocks))) ;;
  for_each codeBlocks (fun block => validateCodeBlock block filePath) ;;
  let exercises := match_all exercise_re markdown in
  when (List.length exercises <? minExercises)%nat
       (addError (NotEnoughExercises filePath (List.length exercises))) ;;
  for_each requiredSections (fun section =>
    when (negb (includes (utf16 "## " ++ section) markdown))
         (addWarning (MissingSection filePath section))).

(** [validateMarkdownFile(filePath)], the file being the entry [readdir]
    listed.  Without a match of the front-matter pattern the method pushes
    one error and returns. *)
Definition validateMarkdownFile (filePath : jsstring) (entry : node) : M validator unit :=
  try_catch
    (content <- lift (read_node entry) ;;
     let relativePath := relative_to_cwd filePath in
     when (maxTopicSize <? N.of_nat (List.length content))%N
          (addError (FileTooLarge relativePath)) ;;
     match match_first frontmatter_match_re content with
     | None => addError (NoFrontmatter relativePath)
     | Some frontmatterMatch =>
       validateFrontmatter (group 1 frontmatterMatch) relativePath ;;
       let markdown := remove_first frontmatter_strip_re content in
       validateContent markdown relativePath
     end)
    (fun error => addError (ReadError filePath (exn_message error))).

End GoDojoValidator.

Module GoDojoPrepare.
Import JS.

Definition package_main : jsstring := utf16 "package main".
Definition func_main : jsstring := utf16 "func main()".

(** [isRunnableCode(code)] *)
Definition isRunnableCode (code : jsstring) : bool :=
  includes package_main code && includes func_main code.

(** The text of the template before and after the interpolated code. *)
Definition template_head : jsstring :=
  utf16 "package main

import (
    " ++ [dquote] ++ utf16 "fmt" ++ [dquote] ++ utf16 "
)

func main() {
    ".

Definition template_tail : jsstring := utf16 "
}".

(** [code.split('\n').map(line => '    ' + line).join('\n')] *)
Definition indent (code : jsstring) : jsstring :=
  join [newline] (List.map (fun line => utf16 "    " ++ line) (split_char newline code)).

(** [generatePlaygroundTemplate(code)] *)
Definition generatePlaygroundTemplate (code : jsstring) : jsstring :=
  if includes package_main code && includes func_main code then code
  else template_head ++ indent code ++ template_tail.

End GoDojoPrepare.

(* ================================================================== *)
(** * scripts/content-builder.js: class ContentBuilder *)
(* ================================================================== *)

Module ContentBuilder.
Import JS.
Local Open Scope js_scope.

Record counters : Type := Counters {
  category_count : nat;
  topic_count : nat;
  exercise_count : nat;
  example_count : nat
}.

(** The fields of [this]: the Map [categories] in insertion order, the array
    [topics], the counters, and with them the files written so far, each with
    its path and its bytes.  [ensureDir] creates the directory of a file
    before the file is written; the output directory is taken to accept every
    write. *)
Record builder : Type := Builder {
  categories : list (jsstring * value);
  topics : list value;
  stats : counters;
  written : list (jsstring * jsstring)
}.

Definition outputDir : jsstring := utf16 "build".

(** [constructor()] *)
Definition new : builder := Builder [] [] (Counters 0 0 0 0) [].

Definition writeFile (path bytes : jsstring) : M builder unit :=
  modify (fun b => Builder (categories b) (topics b) (stats b) (written b ++ [(path, bytes)])).

Definition set_categories (cs : list (jsstring * value)) : M builder unit :=
  modify (fun b => Builder cs (topics b) (stats b) (written b)).

Definition push_topic (t : value) : M builder unit :=
  modify (fun b => Builder (categories b) (topics b ++ [t]) (stats b) (written b)).

Definition update_stats (f : counters -> counters) : M builder unit :=
  modify (fun b => Builder (categories b) (topics b) (f (stats b)) (written b)).

(** [Map.prototype.set]: a key already present keeps its place. *)
Fixpoint map_set (k : jsstring) (v : value) (m : list (jsstring * value))
  : list (jsstring * value) :=
  match m with
  | [] => [(k, v)]
  | (k', v') :: rest =>
      if str_eqb k k' then (k, v) :: rest else (k', v') :: map_set k v rest
  end.

Record example : Type := MkExample { e_title : jsstring; e_code : jsstring; e_explanation : jsstring }.
Record exercise : Type := MkExercise { x_number : nat; x_title : jsstring; x_content : jsstring }.

Record sections : Type := Sections {
  theory : jsstring;
  examples : list example;
  exercises : list exercise;
  bestPractices : jsstring;
  commonMistakes : jsstring;
  realWorld : jsstring;
  summary : jsstring
}.

Definition heading3 : jsstring := utf16 "###".

(** [/### (.+?)\n([\s\S]*?)(?=###|$)/g] *)
Definition example_re : regex :=
  seqs [Lit (utf16 "### "); Group (Plus false (Class is_dot)); Chr newline;
        Group (Star false (Class any_char));
        Ahead (Alt (Lit heading3) (Eol false))].

(** [/```go\n([\s\S]*?)\n```/] *)
Definition go_code_re : regex :=
  seqs [Lit (utf16 "```go"); Chr newline; Group (Star false (Class any_char));
        Chr newline; Lit (utf16 "```")].

(** [extractCodeExamples(content)] *)
Definition extractCodeExamples (content : jsstring) : list example :=
  List.map
    (fun m =>
       let title := trim (group 1 m) in
       let exampleContent := trim (group 2 m) in
       let code := match match_first go_code_re exampleContent with
                   | Some codeMatch => group 1 codeMatch
                   | None => []
                   end in
       let explanation := trim (remove_all go_code_re exampleContent) in
       MkExample title code explanation)
    (match_all example_re content).

(** [/### Упражнение (\d+): (.+?)\n([\s\S]*?)(?=###|$)/g] *)
Definition exercise_re : regex :=
  seqs [Lit (utf16 "### Упражнение "); Group (Plus true (Class is_digit));
        Lit (utf16 ": "); Group (Plus false (Class is_dot)); Chr newline;
        Group (Star false (Class any_char));
        Ahead (Alt (Lit heading3) (Eol false))].

(** [parseInt] of a string of decimal digits. *)
Definition parse_digits (s : jsstring) : nat :=
  fold_left (fun acc c => 10 * acc + N.to_nat (c - 48)%N)%nat s 0%nat.

(** [extractExercises(content)] *)
Definition extractExercises (content : jsstring) : list exercise :=
  List.map
    (fun m => MkExercise (parse_digits (group 1 m)) (trim (group 2 m)) (trim (group 3 m)))
    (match_all exercise_re content).

(** [/^## (.+)$/gm] *)
Definition section_re : regex :=
  seqs [Bol true; Lit (utf16 "## "); Group (Plus true (Class is_dot)); Eol true].

(** The [switch] of [parseMarkdown] on one heading and what follows it. *)
Definition assign (s : sections) (heading content : jsstring) : sections :=
  if str_eqb heading (utf16 "📚 Теоретическая часть") then
    Sections (trim content) (examples s) (exercises s) (bestPractices s)
             (commonMistakes s) (realWorld s) (summary s)
  else if str_eqb heading (utf16 "💻 Практические примеры") then
    Sections (theory s) (extractCodeExamples content) (exercises s) (bestPractices s)
             (commonMistakes s) (realWorld s) (summary s)
  else if str_eqb heading (utf16 "🎯 Практические упражнения") then
    Sections (theory s) (examples s) (extractExercises content) (bestPractices s)
             (commonMistakes s) (realWorld s) (summary s)
  else if str_eqb heading (utf16 "🔧 Лучшие практики") then
    Sections (theory s) (examples s) (exercises s) (trim content)
             (commonMistakes s) (realWorld s) (summary s)
  else if str_eqb heading (utf16 "⚠️ Частые ошибки") then
    Sections (theory s) (examples s) (exercises s) (bestPractices s)
             (trim content) (realWorld s) (summary s)
  else if str_eqb heading (utf16 "🌍 Применение в реальном мире") then
    Sections (theory s) (examples s) (exercises s) (bestPractices s)
             (commonMistakes s) (trim content) (summary s)
  else if str_eqb heading (utf16 "📝 Резюме") then
    Sections (theory s) (examples s) (exercises s) (bestPractices s)
             (commonMistakes s) (realWorld s) (trim content)
  else s.

(** The loop of [parseMarkdown] over [parts[i]], [parts[i + 1]] from
    [i = 1] in steps of two. *)
Fixpoint fill (fuel : nat) (s : sections) (parts : list jsstring) : sections :=
  match fuel with
  | O => s
  | S fuel' =>
    match parts with
    | [] => s
    | [heading] => assign s heading []
    | heading :: content :: rest => fill fuel' (assign s heading content) rest
    end
  end.

(** [parseMarkdown(markdown)] *)
Definition parseMarkdown (markdown : jsstring) : sections :=
  let parts := split section_re markdown in
  fill (List.length parts) (Sections [] [] [] [] [] [] []) (tl parts).

(** [/```[\s\S]*?```/g] and [/^---[\s\S]*?---/m] *)
Definition code_block_re : regex :=
  seqs [Lit (utf16 "```"); Star false (Class any_char); Lit (utf16 "```")].
Definition frontmatter_re : regex :=
  seqs [Bol true; Lit (utf16 "---"); Star false (Class any_char); Lit (utf16 "---")].

(** [countWords(text)] *)
Definition countWords (text : jsstring) : nat :=
  let cleanText := remove_first frontmatter_re (remove_all code_block_re text) in
  List.length
    (filter (fun word => (0 <? List.length word)%nat)
            (split (Plus true (Class is_space)) cleanText)).

(** [Math.ceil(n / 200)] for a count [n]. *)
Definition ceil_div_200 (n : nat) : nat := ((n + 199) / 200)%nat.

Definition example_value (e : example) : value :=
  VObj [(utf16 "title", VStr (e_title e)); (utf16 "code", VStr (e_code e));
        (utf16 "explanation", VStr (e_explanation e))].

Definition exercise_value (x : exercise) : value :=
  VObj [(utf16 "number", nat_value (x_number x)); (utf16 "title", VStr (x_title x));
        (utf16 "content", VStr (x_content x))].

(** The object [stats] of a topic. *)
Definition topic_stats (markdown : jsstring) (parsed : sections) : list (jsstring * value) :=
  [(utf16 "wordCount", nat_value (countWords markdown));
   (utf16 "codeExamples", nat_value (List.length (examples parsed)));
   (utf16 "exercises", nat_value (List.length (exercises parsed)));
   (utf16 "readingTime", nat_value (ceil_div_200 (countWords markdown)))].

(** The object [topic] of [scanTopic]. *)
Definition topic_value (frontmatter : value) (categorySlug markdown : jsstring) : value :=
  let parsed := parseMarkdown markdown in
  VObj
    (spread (own_properties frontmatter)
       [(utf16 "category", VStr categorySlug);
        (utf16 "content",
           VObj [(utf16 "theory", VStr (theory parsed));
                 (utf16 "examples", VArr (List.map example_value (examples parsed)));
                 (utf16 "exercises", VArr (List.map exercise_value (exercises parsed)));
                 (utf16 "bestPractices", VStr (bestPractices parsed));
                 (utf16 "commonMistakes", VStr (commonMistakes parsed));
                 (utf16 "realWorld", VStr (realWorld parsed));
                 (utf16 "summary", VStr (summary parsed))]);
        (utf16 "stats", VObj (topic_stats markdown parsed))]).

Section WithHost.
Context {H : Host}.
Variable cwd : node.

(** [loadConfig()] *)
Definition loadConfig : M builder value :=
  let configPath := utf16 "content.config.json" in
  if negb (existsSync cwd configPath) then
    throw (Custom (utf16 "Error") [] VUndefined)
  else
    configContent <- lift (readFile cwd configPath) ;;
    lift (json_parse configContent).

(** [category.topics.push(entry)] on the category the Map holds. *)
Definition push_category_topic (category entry : value) : outcome value :=
  match category with
  | VObj props =>
      match prop (utf16 "topics") props with
      | VArr items => Ok (VObj (set_prop (utf16 "topics") (VArr (items ++ [entry])) props))
      | _ => Throw (TypeError (utf16 "category.topics.push is not a function"))
      end
  | _ => Throw (TypeError (utf16 "Cannot read properties of undefined"))
  end.

(** [scanTopic(topicPath, categorySlug)], [n] being the node at [topicPath]. *)
Definition scanTopic (n : node) (categorySlug : jsstring) : M builder unit :=
  match walk n [utf16 "topic.md"] with
  | None => ret tt
  | Some file =>
    content <- lift (read_node file) ;;
    parsed_file <- lift (matter content) ;;
    let frontmatter := fst parsed_file in
    let markdown := snd parsed_file in
    let parsed := parseMarkdown markdown in
    push_topic (topic_value frontmatter categorySlug markdown) ;;
    cs <- gets categories ;;
    match assoc categorySlug cs with
    | Some category =>
        slug <- lift (get frontmatter (utf16 "slug")) ;;
        title <- lift (get frontmatter (utf16 "title")) ;;
        module <- lift (get frontmatter (utf16 "module")) ;;
        category' <- lift (push_category_topic category
                             (VObj [(utf16 "slug", slug); (utf16 "title", title);
                                    (utf16 "module", module)])) ;;
        set_categories (map_set categorySlug category' cs)
    | None => ret tt
    end ;;
    update_stats (fun s =>
      Counters (category_count s) (S (topic_count s))
               (exercise_count s + List.length (exercises parsed))
               (example_count s + List.length (examples parsed)))
  end.

(** [list.pop()] of a list that [split] returned, which is never empty. *)
Definition pop (l : list jsstring) : jsstring := last l [].

(** [scanCategory(categoryPath)], [n] being the node at [categoryPath]. *)
Definition scanCategory (categoryPath : jsstring) (n : node) : M builder unit :=
  let categorySlug := pop (split_char slash (dirname categoryPath)) in
  match walk n [utf16 "index.md"] with
  | Some index =>
      content <- lift (read_node index) ;;
      parsed <- lift (matter content) ;;
      let data := fst parsed in
      cs <- gets categories ;;
      set_categories
        (map_set categorySlug
           (VObj (spread [(utf16 "slug", VStr categorySlug)]
                    (own_properties data ++ [(utf16 "topics", VArr [])])))
           cs) ;;
      update_stats (fun s =>
        Counters (S (category_count s)) (topic_count s) (exercise_count s) (example_count s))
  | None => ret tt
  end ;;
  topicDirs <- lift (list_node n) ;;
  for_each topicDirs (fun dir =>
    if isDirectory (snd dir) then scanTopic (snd dir) categorySlug else ret tt).

(** [scanContent()] *)
Definition scanContent : M builder unit :=
  let contentDir := utf16 "content" in
  if negb (existsSync cwd contentDir) then
    throw (Custom (utf16 "Error") [] VUndefined)
  else
    categoryDirs <- lift (readdir cwd contentDir) ;;
    for_each categoryDirs (fun dir =>
      if isDirectory (snd dir) then scanCategory (path_join [contentDir; fst dir]) (snd dir)
      else ret tt).

Definition field (k : string) (v : value) : value :=
  match v with
  | VObj props => prop (utf16 k) props
  | _ => VUndefined
  end.

(** [generateOutput(config)] *)
Definition generateOutput : M builder unit :=
  ts <- gets topics ;;
  for_each ts (fun topic =>
    let outputPath :=
      path_join [outputDir; utf16 "topics"; to_string (field "category" topic);
                 to_string (field "slug" topic) ++ utf16 ".json"] in
    writeFile outputPath (JSON_stringify topic)) ;;
  cs <- gets categories ;;
  for_each cs (fun entry =>
    let outputPath :=
      path_join [outputDir; utf16 "categories"; fst entry ++ utf16 ".yaml"] in
    writeFile outputPath (yaml_stringify (snd entry))).

(** [cat.topics.length] *)
Definition topics_length (cat : value) : outcome value :=
  match field "topics" cat with
  | VUndefined | VNull => Throw (TypeError (utf16 "Cannot read properties of undefined"))
  | t => get t (utf16 "length")
  end.

(** [generateIndexes()] *)
Definition generateIndexes : M builder unit :=
  ts <- gets topics ;;
  let topicsIndex :=
    List.map (fun topic =>
      VObj [(utf16 "slug", field "slug" topic);
            (utf16 "title", field "title" topic);
            (utf16 "category", field "category" topic);
            (utf16 "module", field "module" topic);
            (utf16 "difficulty", field "difficulty" topic);
            (utf16 "estimatedMinutes", field "estimatedMinutes" topic);
            (utf16 "tags", field "tags" topic)]) ts in
  writeFile (path_join [outputDir; utf16 "topics-index.json"])
            (JSON_stringify (VArr topicsIndex)) ;;
  cs <- gets categories ;;
  categoriesIndex <- lift
    ((fix each (l : list (jsstring * value)) : outcome (list value) :=
        match l with
        | [] => Ok []
        | (_, cat) :: rest =>
          match topics_length cat with
          | Throw e => Throw e
          | Ok n =>
            match each rest with
            | Throw e => Throw e
            | Ok more =>
                Ok (VObj [(utf16 "slug", field "slug" cat);
                          (utf16 "title", field "title" cat);
                          (utf16 "description", field "description" cat);
                          (utf16 "difficulty", field "difficulty" cat);
                          (utf16 "topicsCount", n)] :: more)
            end
          end
        end) cs) ;;
  writeFile (path_join [outputDir; utf16 "categories-index.json"])
            (JSON_stringify (VArr categoriesIndex)).

(** The object [manifest] of [generateManifest(config)], [now] being
    [new Date().toISOString()]. *)
Definition manifest_value (now : jsstring) (config : value) (b : builder) : outcome value :=
  match get config (utf16 "structure") with
  | Throw e => Throw e
  | Ok structure =>
    match get structure (utf16 "defaultLanguage") with
    | Throw e => Throw e
    | Ok language =>
      let modules := List.map (field "module") (topics b) in
      Ok (VObj
        [(utf16 "version", str "1.0.0");
         (utf16 "generated", VStr now);
         (utf16 "platform", str "godojo.dev");
         (utf16 "language", language);
         (utf16 "repository", str "golang-book-ru");
         (utf16 "stats",
            VObj [(utf16 "categories", nat_value (category_count (stats b)));
                  (utf16 "topics", nat_value (topic_count (stats b)));
                  (utf16 "exercises", nat_value (exercise_count (stats b)));
                  (utf16 "codeExamples", nat_value (example_count (stats b)))]);
         (utf16 "structure",
            VObj [(utf16 "categories", VArr (List.map (fun e => VStr (fst e)) (categories b)));
                  (utf16 "modulesRange",
                     VObj [(utf16 "min", VNum (math_min modules));
                           (utf16 "max", VNum (math_max modules))])])])
    end
  end.

Definition manifest_path : jsstring := path_join [outputDir; utf16 "manifest.json"].

(** [generateManifest(config)] *)
Definition generateManifest (now : jsstring) (config : value) : M builder unit :=
  b <- gets (fun b => b) ;;
  manifest <- lift (manifest_value now config b) ;;
  writeFile manifest_path (JSON_stringify manifest).

(** What [run] does before it asks for the time. *)
Definition build : M builder value :=
  config <- loadConfig ;;
  scanContent ;;
  generateOutput ;;
  generateIndexes ;;
  ret config.

(** [run()], started at a moment whose ISO text is [now]: the exit code of
    the process and the builder it leaves.  The process ends with code 1
    when an exception reaches the [catch] of [run], with 0 otherwise. *)
Definition run (now : jsstring) : nat * builder :=
  match (config <- build ;; generateManifest now config) new with
  | (Ok _, b) => (0%nat, b)
  | (Throw _, b) => (1%nat, b)
  end.

End WithHost.
End ContentBuilder.

(* ================================================================== *)
(** * content-author.js: the getters of ConfigManager, AuthorManager's
      identifiers and ContentGenerator's slugs *)
(* ================================================================== *)

Module ConfigManager.
Import JS.
Local Open Scope js_scope.

Section WithHost.
Context {H : Host}.

(** [getConfig()], [getCategories()] and [getQualityStandards()] *)
Definition getConfig : M ContentAuthor.manager value := ContentAuthor.getConfig.

Definition getCategories : M ContentAuthor.manager value :=
  c <- getConfig ;; lift (get c (utf16 "categories")).

Definition getQualityStandards : M ContentAuthor.manager value :=
  ContentAuthor.getQualityStandards.

(** [getLanguageConfig()] *)
Definition getLanguageConfig : M ContentAuthor.manager value :=
  config <- getConfig ;;
  structure <- lift (get config (utf16 "structure")) ;;
  default <- lift (get structure (utf16 "defaultLanguage")) ;;
  supported <- lift (get structure (utf16 "languages")) ;;
  ret (VObj [(utf16 "default", default); (utf16 "supported", supported)]).

End WithHost.
End ConfigManager.

Module AuthorManager.
Import JS.

(** ToInt32: the integer modulo 2^32, read as a signed 32-bit number. *)
Definition to_int32 (z : Z) : Z := ((z + 2 ^ 31) mod 2 ^ 32 - 2 ^ 31)%Z.

(** [a << k] and [a & b] on 32-bit integers. *)
Definition shl32 (a : Z) (k : Z) : Z := to_int32 (Z.shiftl (to_int32 a) k).
Definition and32 (a b : Z) : Z := to_int32 (Z.land (to_int32 a) (to_int32 b)).

(** One turn of the loop of [#simpleHash]:
    [hash = ((hash << 5) - hash) + char; hash = hash & hash].  The
    subtraction and the addition are exact: their operands are below 2^32 in
    size. *)
Definition hash_step (hash : Z) (char : char) : Z :=
  let hash := (shl32 hash 5 - hash + Z.of_N char)%Z in
  and32 hash hash.

Definition hex_digit (d : N) : char :=
  if (d <? 10)%N then (48 + d)%N else (87 + d)%N.

Fixpoint hex_digits (fuel : nat) (n : N) (acc : jsstring) : jsstring :=
  match fuel with
  | O => acc
  | S fuel' =>
      let acc' := hex_digit (n mod 16) :: acc in
      if (n / 16 =? 0)%N then acc' else hex_digits fuel' (n / 16) acc'
  end.

(** [n.toString(16)] for a natural number. *)
Definition to_hex (n : N) : jsstring := hex_digits (S (N.to_nat (N.log2 n))) n [].

(** [#simpleHash(str)] *)
Definition simpleHash (str : jsstring) : jsstring :=
  let hash := fold_left hash_step str 0%Z in
  firstn 8 (to_hex (Z.to_N (Z.abs hash))).

(** [generateAuthorId(username)], [timestamp] being [Date.now()], a count
    of milliseconds that [username + timestamp] appends in decimal. *)
Definition generateAuthorId (timestamp : N) (username : jsstring) : jsstring :=
  let hash := simpleHash (username ++ utf16 (NilEmpty.string_of_uint (N.to_uint timestamp))) in
  utf16 "author_" ++ username ++ utf16 "_" ++ hash.

End AuthorManager.

Module ContentGenerator.
Import JS.

(** [s.padStart(n, c)] for a one-character pad. *)
Definition padStart (n : nat) (c : char) (s : jsstring) : jsstring :=
  repeat c (n - List.length s) ++ s.

Section WithHost.
Context {H : Host}.
(** [slugify(title, { lower: true, strict: true })], of the slugify package. *)
Variable slugify : jsstring -> jsstring.

(** [generateSlug(title, moduleNumber = null)]: the default stands in for
    [undefined]. *)
Definition generateSlug (title : jsstring) (moduleNumber : value) : jsstring :=
  let titleSlug := slugify title in
  match moduleNumber with
  | VUndefined | VNull => titleSlug
  | _ =>
      let paddedNumber := padStart 2 48%N (to_string moduleNumber) in
      paddedNumber ++ utf16 "-" ++ titleSlug
  end.

End WithHost.
End ContentGenerator.

(* ================================================================== *)
(** * scripts/godojo-validator.js: class ContentFormatter *)
(* ================================================================== *)

Module ContentFormatter.
Import JS.

(** [s.replace(r, replacement)] with the g flag, for a replacement text
    without [$]: every match is replaced, each search resuming where the
    last match ended (one further after an empty match). *)
Fixpoint replace_from (fuel : nat) (r : regex) (replacement bef aft : jsstring)
  : jsstring :=
  match fuel with
  | O => aft
  | S fuel' =>
    match search r bef aft with
    | None => aft
    | Some f =>
      let kept := firstn (List.length aft - List.length (after (m_start f))) aft in
      let e := m_end f in
      if is_empty_match f then
        match after e with
        | [] => kept ++ replacement
        | c :: rest =>
            kept ++ replacement
              ++ c :: replace_from fuel' r replacement (c :: before e) rest
        end
      else kept ++ replacement ++ replace_from fuel' r replacement (before e) (after e)
    end
  end.

Definition replace_all (r : regex) (replacement s : jsstring) : jsstring :=
  replace_from (S (List.length s)) r replacement [] s.

(** The fence [```] and a line end, and what replaces it. *)
Definition bare_fence : jsstring := utf16 "```" ++ [newline].
Definition go_fence : jsstring := utf16 "```go" ++ [newline].

(** [formatCodeBlocks(markdown)]: [markdown.replace(/```\n/g, '```go\n')] *)
Definition formatCodeBlocks (markdown : jsstring) : jsstring :=
  replace_all (Lit bare_fence) go_fence markdown.

End ContentFormatter.

(* ================================================================== *)
(** * The vocabulary of the specification

    What the statements below say in the words of the specification, defined
    apart from the code: how a text is built, not how the scripts scan it. *)
(* ================================================================== *)

Module Spec.
Import JS.

(** [p] is a prefix of [s]. *)
Definition prefix (p s : jsstring) : Prop := exists rest, s = p ++ rest.

(** [p] occurs in [s]. *)
Definition occurs (p s : jsstring) : Prop := exists a b, s = a ++ p ++ b.

(** A front matter, as a value, has no entry for [field]: it is a mapping
    without that key, or it is no mapping at all. *)
Definition lacks (field : jsstring) (frontmatter : value) : Prop :=
  match frontmatter with
  | VObj props => assoc field props = None
  | _ => True
  end.

(** Every directory of a tree can be listed. *)
Fixpoint all_listable (n : node) : bool :=
  match n with
  | File _ => true
  | Dir listable entries =>
      listable && forallb (fun e => all_listable (snd e)) entries
  end.

(** The content tree is readable: [content] is absent, or it is a directory
    all of whose directories can be listed. *)
Definition readable_content (cwd : node) : Prop :=
  match lookup cwd (utf16 "content") with
  | None => True
  | Some n => isDirectory n = true /\ all_listable n = true
  end.

(** A value is a mapping. *)
Definition is_record (v : value) : Prop := exists props, v = VObj props.

(** The number [q] lies outside the range 1..79 of the module numbers and is
    not zero. *)
Definition outside_1_79 (q : Q) : Prop := (~ q == 0 /\ (q < 1 \/ 79 < q))%Q.

(** ** What a pattern matches

    [matches r s s']: the pattern [r] matches the input from the position [s]
    to the position [s'].  This is the meaning of a pattern; the matcher [mt]
    is a search for such a match. *)
Inductive matches : regex -> mstate -> mstate -> Prop :=
| M_Empty s : matches Empty s s
| M_Class p c rest s :
    after s = c :: rest -> p c = true -> matches (Class p) s (step c rest s)
| M_Seq r1 r2 s s1 s2 :
    matches r1 s s1 -> matches r2 s1 s2 -> matches (Seq r1 r2) s s2
| M_AltL r1 r2 s s' : matches r1 s s' -> matches (Alt r1 r2) s s'
| M_AltR r1 r2 s s' : matches r2 s s' -> matches (Alt r1 r2) s s'
| M_StarStop g r s : matches (Star g r) s s
| M_StarStep g r s s1 s2 :
    matches r s s1 -> matches (Star g r) s1 s2 -> matches (Star g r) s s2
| M_Group r s s' :
    matches r s s' ->
    matches (Group r) s (MState (before s') (after s') (between s s' :: caps s'))
| M_Bol ml s : at_bol ml s = true -> matches (Bol ml) s s
| M_Eol ml s : at_eol ml s = true -> matches (Eol ml) s s
| M_Ahead r s s' : matches r s s' -> matches (Ahead r) s s
| M_NotAhead r s : mt r s Some = None -> matches (NotAhead r) s s.

(** A text begins with a metadata block between two lines of three dashes:
    three dashes and a line end, the mapping, a line end and three dashes. *)
Definition begins_with_front_matter (text : jsstring) : Prop :=
  exists mapping rest,
    text = utf16 "---" ++ [newline] ++ mapping ++ [newline] ++ utf16 "---" ++ rest.

(** ** Well-typed configurations

    [conforms sch v]: the value [v] has the type the schema [sch] describes.
    This says what a schema means, field by field; it collects no issues. *)
Fixpoint conforms (sch : schema) (v : value) {struct sch} : bool :=
  match sch with
  | ZString => match v with VStr _ => true | _ => false end
  | ZNumber positive =>
      match v with
      | VNum NaN => false
      | VNum n => negb positive || positive_number n
      | _ => false
      end
  | ZEnum options =>
      match v with VStr s => existsb (str_eqb s) options | _ => false end
  | ZArray min_length item =>
      match v with
      | VArr items =>
          (min_length <=? List.length items)%nat && forallb (conforms item) items
      | _ => false
      end
  | ZObject shape =>
      match v with
      | VObj props =>
          (fix all (fields : list (jsstring * schema)) : bool :=
             match fields with
             | [] => true
             | (k, sk) :: fields' => conforms sk (prop k props) && all fields'
             end) shape
      | _ => false
      end
  | ZOptional inner =>
      match v with VUndefined => true | _ => conforms inner v end
  end.

(** The section [k] of a configuration is present and has the type [sch]. *)
Definition section_ok (k : string) (sch : schema) (raw : value) : Prop :=
  exists props, raw = VObj props /\ conforms sch (prop (utf16 k) props) = true.

(** What loading a configuration file comes to: no file, a file that cannot
    be read, a text that is not JSON, a value that is not a well-typed
    configuration, or the configuration. *)
Definition load_outcome {H : Host} (cwd : node) (configPath : jsstring) : outcome value :=
  match lookup cwd configPath with
  | None =>
      Throw (ContentAuthor.ConfigError "CONFIG_NOT_FOUND"
               [(utf16 "configPath", VStr configPath)])
  | Some n =>
    match read_node n with
    | Throw e =>
        Throw (ContentAuthor.ConfigError "CONFIG_LOAD_FAILED"
                 [(utf16 "configPath", VStr configPath);
                  (utf16 "originalError", VStr (exn_message e))])
    | Ok text =>
      match JSON_parse text with
      | inl message =>
          Throw (ContentAuthor.ConfigError "CONFIG_INVALID_JSON"
                   [(utf16 "configPath", VStr configPath);
                    (utf16 "originalError", VStr message)])
      | inr raw =>
          if conforms ContentAuthor.ConfigSchema raw
          then Ok (snd (zparse ContentAuthor.ConfigSchema [] raw))
          else Throw (ContentAuthor.ValidationError "VALIDATION_SCHEMA_FAILED"
                        [(utf16 "errors",
                          VArr (List.map issue_value
                                  (fst (zparse ContentAuthor.ConfigSchema [] raw))))])
      end
    end
  end.

(** ** The word count of a topic body

    The count as C9 words it: the fenced code blocks are removed, a
    front-matter block at the very start of the text is removed, and the
    whitespace-separated words of what is left are counted. *)
Definition fenced_block_re : regex :=
  seqs [Lit (utf16 "```"); Star false (Class any_char); Lit (utf16 "```")].

Definition leading_front_matter_re : regex :=
  seqs [Bol false; Lit (utf16 "---"); Star false (Class any_char); Lit (utf16 "---")].

Definition word_count (body : jsstring) : nat :=
  List.length
    (ContentChecker.words_of
       (remove_first leading_front_matter_re (remove_all fenced_block_re body))).

(** ** Outputs of two builds

    Two manifests that differ at most in the text of [generated]. *)
Definition same_but_generated (m1 m2 : value) : Prop :=
  exists first rest t1 t2,
    m1 = VObj (first ++ (utf16 "generated", VStr t1) :: rest) /\
    m2 = VObj (first ++ (utf16 "generated", VStr t2) :: rest) /\
    assoc (utf16 "generated") first = None.

(** ** What an action does to a log

    An action only appends to the log [log] of the state; it appends [x]
    among the rest; it returns, that is, it does not throw. *)
Section Logs.
Variables (St X : Type) (log : St -> list X).

Definition grows {A} (m : M St A) : Prop :=
  forall st, exists added, log (snd (m st)) = log st ++ added.

Definition adds (x : X) {A} (m : M St A) : Prop :=
  forall st, exists added, log (snd (m st)) = log st ++ added /\ In x added.

Definition returns {A} (m : M St A) : Prop :=
  forall st, exists a st', m st = (Ok a, st').

End Logs.
Arguments grows {St X} log {A} m.
Arguments adds {St X} log x {A} m.
Arguments returns {St A} m.

(** ** Readings of the checks

    [undefined] and [null], the values no property can be read from. *)
Definition nullish (v : value) : bool :=
  match v with VUndefined | VNull => true | _ => false end.

(** The errors of the fields a topic lacks: one for each falsy field of
    [topic_fields], in their order. *)
Definition missing_fields (props : list (jsstring * value)) (topicPath : jsstring)
  : list StructureValidator.message :=
  flat_map (fun field =>
              if truthy (prop field props) then []
              else [StructureValidator.MissingTopicField field (relative_to_cwd topicPath)])
           StructureValidator.topic_fields.

(** [frontmatter.module && (frontmatter.module < 1 || frontmatter.module > 79)]
    for a finite number. *)
Definition module_flagged {H : Host} (q : Q) : bool :=
  truthy (VNum (Fin q)) && (lt_num (VNum (Fin q)) 1 || gt_num (VNum (Fin q)) 79).

Definition slug_key : jsstring := utf16 "slug".

(** [slugs.has(s)] for the slugs seen so far. *)
Definition known (s : jsstring) (slugs : list value) : bool :=
  existsb (same_value_zero (VStr s)) slugs.

(** ** Invariants

    An action keeps the property [P] of the state, however it ends. *)
Definition keeps {St A} (P : St -> Prop) (m : M St A) : Prop :=
  forall st, P st -> P (snd (m st)).

(** ** Hashes and digits

    The polynomial in 31 of the code units of a string, the first unit with
    the highest power. *)
Definition polynomial_hash (s : jsstring) : Z :=
  fold_left (fun acc c => (31 * acc + Z.of_N c)%Z) s 0%Z.

(** A digit or one of the letters a to f. *)
Definition is_hex_char (c : char) : bool :=
  is_digit c || ((97 <=? c)%N && (c <=? 102)%N).

(** ** Schemas without a repeated key

    Every object of the schema names each of its keys once. *)
Fixpoint distinct_keys (sch : schema) {struct sch} : bool :=
  match sch with
  | ZArray _ item => distinct_keys item
  | ZObject shape =>
      (fix all (fields : list (jsstring * schema)) : bool :=
         match fields with
         | [] => true
         | (k, sk) :: fields' =>
             negb (existsb (fun f => str_eqb k (fst f)) fields')
             && distinct_keys sk && all fields'
         end) shape
  | ZOptional inner => distinct_keys inner
  | _ => true
  end.

(** A number above zero. *)
Definition positive_threshold (v : value) : Prop :=
  exists n, v = VNum n /\ positive_number n = true.

(** What the parse of an object makes of one field of its shape: the
    issues of the field, and the entry of the output (none for
    [undefined]). *)
Definition field_issues (props : list (jsstring * value)) (at_path : list path_item)
           (f : jsstring * schema) : list zod_issue :=
  fst (zparse (snd f) (at_path ++ [Key (fst f)]) (prop (fst f) props)).

Definition field_output (props : list (jsstring * value)) (at_path : list path_item)
           (f : jsstring * schema) : list (jsstring * value) :=
  match snd (zparse (snd f) (at_path ++ [Key (fst f)]) (prop (fst f) props)) with
  | VUndefined => []
  | x => [(fst f, x)]
  end.

(** ** The counters of the content checker

    The counters [stats.issues] and [stats.warnings] count the entries of
    [issues] and of [warnings]. *)
Definition counted (c : ContentChecker.checker) : Prop :=
  ContentChecker.issue_count (ContentChecker.stats c)
    = List.length (ContentChecker.issues c)
  /\ ContentChecker.warning_count (ContentChecker.stats c)
     = List.length (ContentChecker.warnings c).

(** ** Names of directory entries

    What [readdir] can return as the name of an entry: not empty, without a
    slash, and neither [.] nor [..]. *)
Definition is_entry_name (name : jsstring) : bool :=
  negb (str_eqb name [])
  && forallb (fun c => negb (char_eqb c slash)) name
  && negb (str_eqb name dot) && negb (str_eqb name dotdot).

Definition entry_names (n : node) : bool :=
  match n with
  | Dir _ entries => forallb (fun e => is_entry_name (fst e)) entries
  | File _ => true
  end.

(** ** The categories and topics of a build

    Every category the builder holds is keyed [content], there is at most
    one, and every topic record carries [content] as its category. *)
Definition only_content (b : ContentBuilder.builder) : Prop :=
  (List.length (ContentBuilder.categories b) <= 1)%nat
  /\ Forall (fun e => fst e = utf16 "content") (ContentBuilder.categories b)
  /\ Forall (fun t => ContentBuilder.field "category" t = VStr (utf16 "content"))
            (ContentBuilder.topics b).

(** The entries of the content directory carry names [readdir] can
    return. *)
Definition named_content (cwd : node) : bool :=
  match lookup cwd (utf16 "content") with
  | Some n => entry_names n
  | None => true
  end.

(** ** The counters of a build

    An action hands the property [P] on: where it returns, [P] holds
    after it if it held before. *)
Definition hands_on {St A} (P : St -> Prop) (m : M St A) : Prop :=
  forall st, P st -> forall a st', m st = (Ok a, st') -> P st'.

(** The examples and the exercises a topic record holds. *)
Definition array_length (v : value) : nat :=
  match v with VArr items => List.length items | _ => 0%nat end.

Definition examples_of (topic : value) : nat :=
  array_length (ContentBuilder.field "examples" (ContentBuilder.field "content" topic)).

Definition exercises_of (topic : value) : nat :=
  array_length (ContentBuilder.field "exercises" (ContentBuilder.field "content" topic)).

(** The counters of the builder count the topic records it holds, and their
    examples and exercises. *)
Definition tallied (b : ContentBuilder.builder) : Prop :=
  ContentBuilder.topic_count (ContentBuilder.stats b)
    = List.length (ContentBuilder.topics b)
  /\ ContentBuilder.example_count (ContentBuilder.stats b)
     = list_sum (List.map examples_of (ContentBuilder.topics b))
  /\ ContentBuilder.exercise_count (ContentBuilder.stats b)
     = list_sum (List.map exercises_of (ContentBuilder.topics b)).

(** ** Findings are only added

    An action moves the state along the relation [R], however it ends. *)
Definition follows {St A} (R : St -> St -> Prop) (m : M St A) : Prop :=
  forall st, R st (snd (m st)).

(** The later state of a script holds the findings of the earlier one and
    more after them. *)
Definition godojo_extends (a b : GoDojoValidator.validator) : Prop :=
  exists es ws,
    b = GoDojoValidator.Validator
          (GoDojoValidator.errors a ++ es) (GoDojoValidator.warnings a ++ ws)
          (GoDojoValidator.passed a).

Definition checker_extends (a b : ContentChecker.checker) : Prop :=
  exists found warned,
    ContentChecker.issues b = ContentChecker.issues a ++ found
    /\ ContentChecker.warnings b = ContentChecker.warnings a ++ warned.

Definition structure_extends (a b : StructureValidator.validator) : Prop :=
  exists es ws,
    b = StructureValidator.Validator
          (StructureValidator.errors a ++ es) (StructureValidator.warnings a ++ ws).

End Spec.

(* ================================================================== *)
(** * Sample inputs

    Concrete hosts, trees and texts at which the theorems are instantiated and
    the counterexamples evaluated. *)
(* ================================================================== *)

Module Samples.
Import JS.

(** ** Texts

    A JSON text is written from the value it stands for, by [to_json] (strings
    without escapes, whole numbers); the host below parses it back to that
    value. *)

Definition quoted (s : jsstring) : jsstring := [dquote] ++ s ++ [dquote].

Definition whole_number (q : Q) : jsstring :=
  match Qnum q with
  | Z0 => utf16 "0"
  | Zpos p => decimal (Pos.to_nat p)
  | Zneg p => utf16 "-" ++ decimal (Pos.to_nat p)
  end.

Fixpoint to_json (depth : nat) (v : value) : jsstring :=
  match depth with
  | O => utf16 "null"
  | S d =>
    match v with
    | VUndefined | VNull => utf16 "null"
    | VBool b => if b then utf16 "true" else utf16 "false"
    | VNum (Fin q) => whole_number q
    | VNum _ => utf16 "null"
    | VStr s => quoted s
    | VArr items => utf16 "[" ++ join (utf16 ",") (List.map (to_json d) items) ++ utf16 "]"
    | VObj props =>
        utf16 "{"
        ++ join (utf16 ",")
             (List.map (fun kv => quoted (fst kv) ++ utf16 ":" ++ to_json d (snd kv)) props)
        ++ utf16 "}"
    end
  end.

Definition json (v : value) : jsstring := to_json 8 v.

Definition obj (props : list (string * value)) : value :=
  VObj (List.map (fun kv => (utf16 (fst kv), snd kv)) props).

(** A category of the configuration, as content.config.json declares
    [basics]. *)
Definition basics : value :=
  obj [("slug", str "basics"); ("titleRu", str "Основы языка");
       ("descriptionRu", str "Основы языка Go");
       ("modules", str "1-15"); ("difficulty", str "Beginner");
       ("estimatedHours", num 40)]%string.

Definition structure_section : value :=
  obj [("defaultLanguage", str "ru"); ("languages", VArr [str "ru"])]%string.

Definition quality_section : value :=
  obj [("minWords", num 800); ("minCodeExamples", num 3); ("minExercises", num 2)]%string.

(** A configuration with the one category [basics], modules "1-15". *)
Definition config : value :=
  obj [("structure", structure_section); ("godojo", obj []);
       ("categories", VArr [basics]); ("quality", quality_section)]%string.

(** The same with the category listed twice. *)
Definition config_twice : value :=
  obj [("structure", structure_section); ("godojo", obj []);
       ("categories", VArr [basics; basics]); ("quality", quality_section)]%string.

(** The same as [config] without the section [godojo]. *)
Definition config_without_godojo : value :=
  obj [("structure", structure_section);
       ("categories", VArr [basics]); ("quality", quality_section)]%string.

(** The configuration [{}]. *)
Definition config_empty : value := VObj [].

Definition json_table : list value :=
  [config; config_twice; config_without_godojo; config_empty].

(** A topic of [basics] that declares module 16. *)
Definition topic_text : jsstring :=
  utf16 "---
title: Goroutines
description: How goroutines are started and scheduled by the Go runtime
module: 16
category: basics
slug: goroutines
difficulty: Beginner
authorId: author_1
---
# Goroutines

A goroutine is a function running beside the others.
".

Definition topic_frontmatter : list (jsstring * value) :=
  [(utf16 "title", str "Goroutines");
   (utf16 "description",
      str "How goroutines are started and scheduled by the Go runtime");
   (utf16 "module", num 16);
   (utf16 "category", str "basics");
   (utf16 "slug", str "goroutines");
   (utf16 "difficulty", str "Beginner");
   (utf16 "authorId", str "author_1")].

Definition topic_body : jsstring :=
  utf16 "# Goroutines

A goroutine is a function running beside the others.
".

(** The index of [basics]. *)
Definition index_text : jsstring :=
  utf16 "---
title: Basics
description: The fundamentals of the language and of its tools, step by step
category: basics
difficulty: Beginner
authorId: author_1
---
# Basics
".

Definition index_frontmatter : list (jsstring * value) :=
  [(utf16 "title", str "Basics");
   (utf16 "description",
      str "The fundamentals of the language and of its tools, step by step");
   (utf16 "category", str "basics");
   (utf16 "difficulty", str "Beginner");
   (utf16 "authorId", str "author_1")].

Definition index_body : jsstring := utf16 "# Basics
".

(** A document without front matter. *)
Definition plain_text : jsstring :=
  utf16 "# Notes

Nothing is declared above this line.
".

(** ** A host

    gray-matter on the two documents above gives their mappings and bodies; on
    a text that does not start with the delimiter it gives the empty mapping
    and the whole text, as the library documents.  [JSON.parse] reads the
    texts of [json_table] back. *)
Definition sample_matter (text : jsstring) : outcome (value * jsstring) :=
  if str_eqb text topic_text then Ok (VObj topic_frontmatter, topic_body)
  else if str_eqb text index_text then Ok (VObj index_frontmatter, index_body)
  else if startsWith (utf16 "---") text
  then Throw (SystemError (utf16 "YAMLException"))
  else Ok (VObj [], text).

Definition sample_parse (text : jsstring) : jsstring + value :=
  match find (fun v => str_eqb text (json v)) json_table with
  | Some v => inr v
  | None => inl (utf16 "Unexpected token")
  end.

Definition sample_number_text (n : number) : jsstring :=
  match n with
  | NaN => utf16 "NaN"
  | PosInf => utf16 "Infinity"
  | NegInf => utf16 "-Infinity"
  | Fin q => whole_number q
  end.

Definition host : Host := {|
  matter := sample_matter;
  JSON_parse := sample_parse;
  JSON_stringify := json;
  yaml_stringify := json;
  to_number_other := fun _ => NaN;
  number_to_string := sample_number_text;
  object_to_string := fun _ => utf16 "[object Object]";
  URL_valid := fun _ => true
|}.

(** ** Trees *)

Definition file (name : string) (content : jsstring) : jsstring * node :=
  (utf16 name, File (Some content)).
Definition dir (name : string) (entries : list (jsstring * node)) : jsstring * node :=
  (utf16 name, Dir true entries).

Definition scripts_dir : jsstring * node :=
  dir "scripts"
    (List.map (fun name => (name, File (Some [])))
              StructureValidator.expected_scripts).

Definition content_dir : jsstring * node :=
  dir "content"
    [dir "basics"
       [file "index.md" index_text;
        dir "01-goroutines" [file "topic.md" topic_text]]].

(** A project whose configuration is [cfg]: every file and directory the
    structure validator expects, and the category [basics] with its index and
    one topic, which declares module 16. *)
Definition project (cfg : value) : node :=
  Dir true
    [content_dir;
     file "content.config.json" (json cfg);
     file "package.json" (utf16 "{}");
     file "CONTRIBUTING.md" [];
     file "README.md" [];
     scripts_dir].

(** ** Bodies for the word count *)

Definition words (n : nat) : jsstring :=
  List.concat (List.repeat (utf16 "word ") n).

(** 799 words, then a fenced block with two more. *)
Definition body_799_and_code : jsstring :=
  words 799 ++ utf16 "
```go
package main
```
".

(** Two words around a stretch between two horizontal rules. *)
Definition body_with_rules : jsstring :=
  utf16 "intro
---
" ++ words 250 ++ utf16 "
---
tail
".

(** The project [project cfg] after a build: the same tree with the output
    directory beside the content. *)
Definition project_built (cfg : value) : node :=
  match project cfg with
  | Dir listable entries =>
      Dir listable
        (entries ++ [dir "build" [file "manifest.json" (utf16 "{}");
                                  dir "topics" []; dir "categories" []]])
  | n => n
  end.

(** Two moments, and the paths of a file of notes and of the topic. *)
Definition noon : jsstring := utf16 "2024-05-01T12:00:00.000Z".
Definition midnight : jsstring := utf16 "2024-05-02T00:00:00.000Z".
Definition notes_path : jsstring := utf16 "content/notes.md".
Definition topic_path : jsstring := utf16 "content/basics/01-goroutines".

End Samples.

(* ================================================================== *)
(** * Facts about strings *)
(* ================================================================== *)

Module StringFacts.
Import JS Spec.

Lemma char_eqb_eq (a b : char) : char_eqb a b = true <-> a = b.
Proof. unfold char_eqb. apply N.eqb_eq. Qed.

Lemma str_eqb_eq (a b : jsstring) : str_eqb a b = true <-> a = b.
Proof.
  revert b. induction a as [|x a IH]; intros [|y b]; simpl; split; intro E;
    try reflexivity; try discriminate.
  - apply andb_true_iff in E. destruct E as [E1 E2].
    apply char_eqb_eq in E1. apply IH in E2. congruence.
  - injection E as -> ->. apply andb_true_iff. split.
    + now apply char_eqb_eq.
    + now apply IH.
Qed.

Lemma str_eqb_refl (a : jsstring) : str_eqb a a = true.
Proof. now apply str_eqb_eq. Qed.

Lemma str_eqb_neq (a b : jsstring) : str_eqb a b = false <-> a <> b.
Proof.
  split.
  - intros E F. apply str_eqb_eq in F. congruence.
  - intro F. destruct (str_eqb a b) eqn:E; [|reflexivity].
    apply str_eqb_eq in E. contradiction.
Qed.

Lemma startsWith_prefix (p s : jsstring) : startsWith p s = true <-> prefix p s.
Proof.
  revert s. induction p as [|a p IH]; intros s; simpl.
  - split; [intros _; now exists s | reflexivity].
  - destruct s as [|b s].
    + split; [discriminate | intros [r E]; discriminate].
    + rewrite andb_true_iff, char_eqb_eq, IH. split.
      * intros [-> [r ->]]. now exists r.
      * intros [r E]. injection E as -> ->. split; [reflexivity | now exists r].
Qed.

Lemma includes_occurs (p s : jsstring) : includes p s = true <-> occurs p s.
Proof.
  induction s as [|c s IH].
  - simpl. rewrite orb_false_r, startsWith_prefix. split.
    + intros [r E]. now exists [], r.
    + intros [a [b E]]. destruct a; [now exists b | discriminate].
  - cbn [includes]. rewrite orb_true_iff, startsWith_prefix, IH. split.
    + intros [[r E] | [a [b E]]].
      * now exists [], r.
      * exists (c :: a), b. now rewrite E.
    + intros [a [b E]]. destruct a as [|x a].
      * left. now exists b.
      * right. injection E as -> ->. now exists a, b.
Qed.

Lemma occurs_app_r (p a s : jsstring) : occurs p s -> occurs p (a ++ s).
Proof. intros [x [y ->]]. exists (a ++ x), y. now rewrite app_assoc. Qed.

Lemma occurs_app_l (p s b : jsstring) : occurs p s -> occurs p (s ++ b).
Proof. intros [x [y ->]]. exists x, (y ++ b). now rewrite <- !app_assoc. Qed.

End StringFacts.

(* ================================================================== *)
(** * Facts about the matcher *)
(* ================================================================== *)

Module RegexFacts.
Import JS Spec StringFacts.

(** The matcher is sound: what it finds is a match, and its result is the
    result of the continuation at the end of that match. *)
Lemma star_loop_sound (g : bool) (r : regex) (k : mstate -> option mstate) :
  (forall s k' e, mt r s k' = Some e -> exists s', matches r s s' /\ k' s' = Some e) ->
  forall n s e,
    star_loop (mt r) g k n s = Some e ->
    exists s', matches (Star g r) s s' /\ k s' = Some e.
Proof.
  intros IH n. induction n as [|n IHn]; intros s e E; cbn [star_loop] in E.
  - exists s. split; [constructor | exact E].
  - assert (Again : forall e',
              mt r s (fun s' => if consumed s s' then star_loop (mt r) g k n s' else None)
              = Some e' ->
              exists s', matches (Star g r) s s' /\ k s' = Some e').
    { intros e' A. apply IH in A. destruct A as [s1 [M1 A]].
      destruct (consumed s s1); [|discriminate].
      apply IHn in A. destruct A as [s2 [M2 A]].
      exists s2. split; [eapply M_StarStep; eassumption | exact A]. }
    destruct g.
    + destruct (mt r s _) as [e'|] eqn:A.
      * injection E as <-. now apply Again.
      * exists s. split; [constructor | exact E].
    + destruct (k s) as [e'|] eqn:K.
      * injection E as <-. exists s. split; [constructor | exact K].
      * now apply Again.
Qed.

Theorem mt_sound (r : regex) :
  forall s k e, mt r s k = Some e -> exists s', matches r s s' /\ k s' = Some e.
Proof.
  induction r as [ | p | r1 IH1 r2 IH2 | r1 IH1 r2 IH2 | g r IH | r IH | ml | ml
                 | r IH | r IH ]; intros s k e E; cbn [mt] in E.
  - exists s. split; [constructor | exact E].
  - destruct (after s) as [|c rest] eqn:A; [discriminate|].
    destruct (p c) eqn:P; [|discriminate].
    exists (step c rest s). split; [now constructor | exact E].
  - apply IH1 in E. destruct E as [s1 [M1 E]].
    apply IH2 in E. destruct E as [s2 [M2 E]].
    exists s2. split; [econstructor; eassumption | exact E].
  - destruct (mt r1 s k) as [e'|] eqn:A.
    + injection E as <-. apply IH1 in A. destruct A as [s' [M A]].
      exists s'. split; [now apply M_AltL | exact A].
    + apply IH2 in E. destruct E as [s' [M E]].
      exists s'. split; [now apply M_AltR | exact E].
  - eapply star_loop_sound; eassumption.
  - apply IH in E. destruct E as [s' [M E]].
    eexists. split; [apply M_Group; exact M | exact E].
  - destruct (at_bol ml s) eqn:B; [|discriminate].
    exists s. split; [now constructor | exact E].
  - destruct (at_eol ml s) eqn:B; [|discriminate].
    exists s. split; [now constructor | exact E].
  - destruct (mt r s Some) as [e'|] eqn:A; [|discriminate].
    apply IH in A. destruct A as [s' [M _]].
    exists s. split; [eapply M_Ahead; exact M | exact E].
  - destruct (mt r s Some) as [e'|] eqn:A; [discriminate|].
    exists s. split; [now constructor | exact E].
Qed.

(** A match runs over a stretch of the input. *)
Lemma matches_text (r : regex) (s s' : mstate) :
  matches r s s' -> exists txt, after s = txt ++ after s'.
Proof.
  induction 1 as [ s | p c rest s A P | r1 r2 s s1 s2 _ [t1 E1] _ [t2 E2]
                 | r1 r2 s s' _ IH | r1 r2 s s' _ IH | g r s
                 | g r s s1 s2 _ [t1 E1] _ [t2 E2] | r s s' _ [t E]
                 | ml s B | ml s B | r s s' _ _ | r s N ];
    try (now exists []).
  - exists [c]. now rewrite A.
  - exists (t1 ++ t2). now rewrite E1, E2, app_assoc.
  - exact IH.
  - exact IH.
  - exists (t1 ++ t2). now rewrite E1, E2, app_assoc.
  - now exists t.
Qed.

Lemma matches_Chr (c : char) (s s' : mstate) :
  matches (Chr c) s s' -> after s = c :: after s'.
Proof.
  unfold Chr. inversion 1; subst. cbn [step after].
  match goal with P : char_eqb c _ = true |- _ => apply char_eqb_eq in P; subst end.
  assumption.
Qed.

Lemma matches_Lit (p : jsstring) :
  forall s s', matches (Lit p) s s' -> after s = p ++ after s'.
Proof.
  induction p as [|c p IH]; intros s s' M.
  - cbn [Lit] in M. now inversion M; subst.
  - destruct p as [|c2 p].
    + cbn [Lit] in M. now apply matches_Chr.
    + change (Lit (c :: c2 :: p)) with (Seq (Chr c) (Lit (c2 :: p))) in M.
      remember (Lit (c2 :: p)) as tail_pattern eqn:T.
      inversion M as [ | | ? ? ? s1 ? M1 M2 | | | | | | | | | ]; subst.
      apply matches_Chr in M1. apply IH in M2. rewrite M1, M2. reflexivity.
Qed.

(** A pattern that starts with [^] (without the m flag) matches at the start
    of the input only. *)
Lemma search_anchored (r : regex) (aft : jsstring) :
  forall bef, bef <> [] -> search (Seq (Bol false) r) bef aft = None.
Proof.
  induction aft as [|c aft IH]; intros bef N; cbn [search];
    unfold exec_at; cbn [mt]; unfold at_bol; cbn [before];
    destruct bef as [|b bef]; try contradiction; cbn [andb].
  - reflexivity.
  - apply IH. discriminate.
Qed.

Lemma match_first_anchored (r : regex) (text : jsstring) (f : found) :
  match_first (Seq (Bol false) r) text = Some f ->
  exists e, mt r (MState [] text []) Some = Some e.
Proof.
  unfold match_first. destruct text as [|c text]; cbn [search]; unfold exec_at;
    cbn [mt]; unfold at_bol; cbn [before].
  - destruct (mt r _ Some) as [e|]; [eauto | discriminate].
  - destruct (mt r _ Some) as [e|]; [eauto|].
    rewrite search_anchored; [discriminate | discriminate].
Qed.

(** Where the front-matter pattern of the godojo validator matches, the text
    begins with a metadata block. *)
Lemma frontmatter_match_sound (content : jsstring) (f : found) :
  match_first GoDojoValidator.frontmatter_match_re content = Some f ->
  begins_with_front_matter content.
Proof.
  unfold GoDojoValidator.frontmatter_match_re. cbn [seqs]. intro E.
  apply match_first_anchored in E. destruct E as [e E].
  apply mt_sound in E. destruct E as [s' [M _]].
  inversion M as [ | | ? ? ? s1 ? M1 R1 | | | | | | | | | ]; subst. clear M.
  apply (matches_Lit (utf16 "---")) in M1. cbn [after] in M1.
  inversion R1 as [ | | ? ? ? s2 ? M2 R2 | | | | | | | | | ]; subst. clear R1.
  apply matches_Chr in M2.
  inversion R2 as [ | | ? ? ? s3 ? M3 R3 | | | | | | | | | ]; subst. clear R2.
  inversion M3 as [ | | | | | | | ? ? s3' M3' | | | | ]; subst. clear M3.
  apply matches_text in M3'. destruct M3' as [mapping M3']. cbn [after] in R3.
  inversion R3 as [ | | ? ? ? s4 ? M4 R4 | | | | | | | | | ]; subst. clear R3.
  apply matches_Chr in M4. apply (matches_Lit (utf16 "---")) in R4. cbn [after] in M4.
  exists mapping, (after s'). rewrite M2, M3', M4, R4. reflexivity.
Qed.

End RegexFacts.

(* ================================================================== *)
(** * Facts about the state monad *)
(* ================================================================== *)

Module MonadFacts.
Import JS Spec.
Local Open Scope js_scope.

Section Growth.
Variables (St X : Type) (log : St -> list X).
Local Abbreviation grows := (Spec.grows log).

Lemma grows_ret {A} (a : A) : grows (ret a).
Proof. intro st. exists []. simpl. now rewrite app_nil_r. Qed.

Lemma grows_throw {A} (e : exn) : grows (@throw St A e).
Proof. intro st. exists []. simpl. now rewrite app_nil_r. Qed.

Lemma grows_lift {A} (o : outcome A) : grows (@lift St A o).
Proof. intro st. exists []. simpl. now rewrite app_nil_r. Qed.

Lemma grows_gets {A} (f : St -> A) : grows (gets f).
Proof. intro st. exists []. simpl. now rewrite app_nil_r. Qed.

Lemma grows_bind {A B} (m : M St A) (f : A -> M St B) :
  grows m -> (forall a, grows (f a)) -> grows (bind m f).
Proof.
  intros Hm Hf st. unfold bind. destruct (Hm st) as [a1 E1].
  destruct (m st) as [[a|e] st1]; simpl in *.
  - destruct (Hf a st1) as [a2 E2]. exists (a1 ++ a2).
    now rewrite E2, E1, app_assoc.
  - now exists a1.
Qed.

Lemma grows_try_catch {A} (m : M St A) (h : exn -> M St A) :
  grows m -> (forall e, grows (h e)) -> grows (try_catch m h).
Proof.
  intros Hm Hh st. unfold try_catch. destruct (Hm st) as [a1 E1].
  destruct (m st) as [[a|e] st1]; simpl in *.
  - now exists a1.
  - destruct (Hh e st1) as [a2 E2]. exists (a1 ++ a2).
    now rewrite E2, E1, app_assoc.
Qed.

Lemma grows_when (b : bool) (m : M St unit) : grows m -> grows (when b m).
Proof. intro Hm. destruct b; simpl; [exact Hm | apply grows_ret]. Qed.

Lemma grows_if {A} (b : bool) (m1 m2 : M St A) :
  grows m1 -> grows m2 -> grows (if b then m1 else m2).
Proof. now destruct b. Qed.

Lemma grows_for_each {A} (xs : list A) (body : A -> M St unit) :
  (forall x, grows (body x)) -> grows (for_each xs body).
Proof.
  intro Hb. induction xs as [|x xs IH]; simpl.
  - apply grows_ret.
  - apply grows_bind; [apply Hb | intros _; exact IH].
Qed.

Lemma grows_modify (f : St -> St) :
  (forall st, exists added, log (f st) = log st ++ added) -> grows (modify f).
Proof. intros Hf st. exact (Hf st). Qed.

(** What is in the log before an action is in it afterwards. *)
Lemma grows_keeps {A} (m : M St A) (x : X) (st : St) :
  grows m -> In x (log st) -> In x (log (snd (m st))).
Proof.
  intros Hm Hx. destruct (Hm st) as [added E]. rewrite E.
  apply in_or_app. now left.
Qed.

End Growth.

Section Adding.
Variables (St X : Type) (log : St -> list X).
Local Abbreviation adds := (Spec.adds log).

Lemma adds_bind_l (x : X) {A B} (m : M St A) (f : A -> M St B) :
  adds x m -> (forall a, grows log (f a)) -> adds x (bind m f).
Proof.
  intros Hm Hf st. unfold bind. destruct (Hm st) as [a1 [E1 I1]].
  destruct (m st) as [[a|e] st1]; simpl in *.
  - destruct (Hf a st1) as [a2 E2]. exists (a1 ++ a2). split.
    + now rewrite E2, E1, app_assoc.
    + apply in_or_app. now left.
  - now exists a1.
Qed.

Lemma adds_bind_r (x : X) {A B} (m : M St A) (f : A -> M St B) :
  returns m -> grows log m -> (forall a, adds x (f a)) -> adds x (bind m f).
Proof.
  intros Hr Hm Hf st. unfold bind. destruct (Hr st) as [a [st1 E]].
  destruct (Hm st) as [a1 E1]. rewrite E in *. simpl in *.
  destruct (Hf a st1) as [a2 [E2 I2]]. exists (a1 ++ a2). split.
  - now rewrite E2, E1, app_assoc.
  - apply in_or_app. now right.
Qed.

Lemma adds_try_catch (x : X) {A} (m : M St A) (h : exn -> M St A) :
  adds x m -> (forall e, grows log (h e)) -> adds x (try_catch m h).
Proof.
  intros Hm Hh st. unfold try_catch. destruct (Hm st) as [a1 [E1 I1]].
  destruct (m st) as [[a|e] st1]; simpl in *.
  - now exists a1.
  - destruct (Hh e st1) as [a2 E2]. exists (a1 ++ a2). split.
    + now rewrite E2, E1, app_assoc.
    + apply in_or_app. now left.
Qed.

Lemma returns_ret {A} (a : A) : returns (@ret St A a).
Proof. intro st. now exists a, st. Qed.

Lemma returns_lift {A} (a : A) : returns (@lift St A (Ok a)).
Proof. intro st. now exists a, st. Qed.

Lemma returns_modify (f : St -> St) : returns (modify f).
Proof. intro st. now exists tt, (f st). Qed.

Lemma returns_gets {A} (f : St -> A) : returns (gets f).
Proof. intro st. now exists (f st), st. Qed.

Lemma returns_bind {A B} (m : M St A) (f : A -> M St B) :
  returns m -> (forall a, returns (f a)) -> returns (bind m f).
Proof.
  intros Hm Hf st. unfold bind. destruct (Hm st) as [a [st1 E]]. rewrite E.
  apply Hf.
Qed.

Lemma returns_when (b : bool) (m : M St unit) : returns m -> returns (when b m).
Proof. intro Hm. destruct b; simpl; [exact Hm | apply returns_ret]. Qed.

Lemma returns_for_each {A} (xs : list A) (body : A -> M St unit) :
  (forall x, returns (body x)) -> returns (for_each xs body).
Proof.
  intro Hb. induction xs as [|x xs IH]; simpl.
  - apply returns_ret.
  - apply returns_bind; [apply Hb | intros _; exact IH].
Qed.

Lemma returns_try_catch {A} (m : M St A) (h : exn -> M St A) :
  (forall e, returns (h e)) -> returns (try_catch m h).
Proof.
  intros Hh st. unfold try_catch. destruct (m st) as [[a|e] st1].
  - now exists a, st1.
  - apply Hh.
Qed.

Lemma adds_bind_lift (x : X) {A B} (o : outcome A) (a : A) (f : A -> M St B) :
  o = Ok a -> adds x (f a) -> adds x (bind (lift o) f).
Proof. intros -> Hf st. unfold bind, lift. apply Hf. Qed.

(** A loop adds what its body adds at one of the items, provided the body
    returns at every item. *)
Lemma adds_for_each (x : X) {A} (xs : list A) (body : A -> M St unit) (item : A) :
  In item xs ->
  (forall y, returns (body y)) -> (forall y, grows log (body y)) ->
  adds x (body item) -> adds x (for_each xs body).
Proof.
  intros Hin Hr Hg Ha. induction xs as [|y xs IH]; [contradiction|].
  simpl. destruct Hin as [-> | Hin].
  - apply adds_bind_l; [exact Ha | intros _; now apply grows_for_each].
  - apply adds_bind_r; [apply Hr | apply Hg | intros _; now apply IH].
Qed.

End Adding.

(** Growth follows the shape of an action, read off its head; [leaf] closes
    what is specific to a script. *)
Ltac grow_step leaf :=
  lazymatch goal with
  | |- grows _ (ret _) => apply grows_ret
  | |- grows _ (lift _) => apply grows_lift
  | |- grows _ (gets _) => apply grows_gets
  | |- grows _ (throw _) => apply grows_throw
  | |- grows _ (when _ _) => apply grows_when
  | |- grows _ (for_each _ _) => apply grows_for_each; intro
  | |- grows _ (bind _ _) => apply grows_bind; [|intro]
  | |- grows _ (try_catch _ _) => apply grows_try_catch; [|intro]
  | |- grows _ (if _ then _ else _) => apply grows_if
  | |- grows _ (match ?x with _ => _ end) => destruct x
  | |- grows _ (let _ := _ in _) => cbv zeta
  | |- _ => leaf
  end.

Ltac grow_with leaf := repeat (grow_step leaf).

(** An action that returns did so through each of its steps. *)
Lemma bind_returned {St A B} (m : M St A) (f : A -> M St B) st b st2 :
  bind m f st = (Ok b, st2) ->
  exists a st1, m st = (Ok a, st1) /\ f a st1 = (Ok b, st2).
Proof.
  unfold bind. destruct (m st) as [[a|e] st1]; intro E; [eauto | discriminate].
Qed.

Lemma bind_ok {St A B} (m : M St A) (f : A -> M St B) st a st1 :
  m st = (Ok a, st1) -> bind m f st = f a st1.
Proof. intro E. unfold bind. now rewrite E. Qed.

Lemma bind_throw {St A B} (m : M St A) (f : A -> M St B) st e st1 :
  m st = (Throw e, st1) -> bind m f st = (Throw e, st1).
Proof. intro E. unfold bind. now rewrite E. Qed.

End MonadFacts.

(* ================================================================== *)
(** * The exporter's playground fields (godojo-validator.js) *)
(* ================================================================== *)

Module PrepareFacts.
Import JS Spec StringFacts GoDojoPrepare.

Lemma head_has_package_main : occurs package_main template_head.
Proof.
  apply includes_occurs. vm_compute. reflexivity.
Qed.

Lemma head_has_func_main : occurs func_main template_head.
Proof.
  apply includes_occurs. vm_compute. reflexivity.
Qed.

(** C6: for every code example snippet, the derived runnable flag is true
    exactly when the snippet contains both 'package main' and 'func main()';
    the playground template is the snippet itself when it is runnable and the
    boilerplate around the indented snippet otherwise, and in either case,
    so in particular for a snippet lacking both markers, it contains both
    markers. *)
Theorem C6_runnable_flag_and_template :
  forall code : jsstring,
    (isRunnableCode code = true
       <-> occurs package_main code /\ occurs func_main code)
    /\ generatePlaygroundTemplate code
       = (if isRunnableCode code then code
          else template_head ++ indent code ++ template_tail)
    /\ occurs package_main (generatePlaygroundTemplate code)
    /\ occurs func_main (generatePlaygroundTemplate code).
Proof.
  intro code.
  assert (Hflag : isRunnableCode code = true
                  <-> occurs package_main code /\ occurs func_main code).
  { unfold isRunnableCode. now rewrite andb_true_iff, !includes_occurs. }
  split; [exact Hflag|].
  split; [reflexivity|].
  unfold generatePlaygroundTemplate. fold (isRunnableCode code).
  destruct (isRunnableCode code) eqn:R.
  - now apply Hflag.
  - split.
    + apply occurs_app_l, head_has_package_main.
    + apply occurs_app_l, head_has_func_main.
Qed.

End PrepareFacts.

(* ================================================================== *)
(** * Facts about file trees *)
(* ================================================================== *)

Module TreeFacts.
Import JS.

(** Induction on a tree, with the hypothesis at every entry of a directory. *)
Lemma node_rect_entries (P : node -> Prop) :
  (forall c, P (File c)) ->
  (forall l es, Forall (fun e => P (snd e)) es -> P (Dir l es)) ->
  forall n, P n.
Proof.
  intros Hf Hd. fix IH 1. intros [c | l es].
  - apply Hf.
  - apply Hd. induction es as [|[name x] es IHes]; constructor.
    + apply IH.
    + exact IHes.
Qed.

End TreeFacts.

(* ================================================================== *)
(** * The quality checker (content-checker.js) *)
(* ================================================================== *)

Module CheckerFacts.
Import JS Spec StringFacts MonadFacts TreeFacts ContentChecker.
Local Open Scope js_scope.

Lemma grows_addIssue f m : grows issues (addIssue f m).
Proof. intro st. now exists [Finding f m]. Qed.

Lemma grows_addWarning f m : grows issues (addWarning f m).
Proof. intro st. exists []. simpl. now rewrite app_nil_r. Qed.

Lemma adds_addIssue f m : adds issues (Finding f m) (addIssue f m).
Proof. intro st. exists [Finding f m]. split; [reflexivity | now left]. Qed.

Lemma returns_addIssue f m : returns (addIssue f m).
Proof. apply returns_modify. Qed.

Lemma returns_addWarning f m : returns (addWarning f m).
Proof. apply returns_modify. Qed.

Lemma grows_for_each_indexed {A} (xs : list A) (body : A -> nat -> M checker unit) i :
  (forall x j, grows issues (body x j)) -> grows issues (for_each_indexed i xs body).
Proof.
  intro Hb. revert i. induction xs as [|x xs IH]; intro i; simpl.
  - apply grows_ret.
  - apply grows_bind; [apply Hb | intros _; apply IH].
Qed.

(** Every step of the checker only appends to [issues]. *)
Ltac checker_leaf :=
  idtac;
  lazymatch goal with
  | |- grows _ (addIssue _ _) => apply grows_addIssue
  | |- grows _ (addWarning _ _) => apply grows_addWarning
  | |- grows _ (for_each_indexed _ _ _) => apply grows_for_each_indexed; intros
  end.

Ltac grow := grow_with checker_leaf.

Section WithHost.
Context {H : Host}.

Lemma grows_checkFrontmatter fm p : grows issues (checkFrontmatter fm p).
Proof. unfold checkFrontmatter. grow. Qed.

Lemma grows_checkContent md p : grows issues (checkContent md p).
Proof. unfold checkContent. grow. Qed.

Lemma grows_checkStructure md p : grows issues (checkStructure md p).
Proof. unfold checkStructure. grow. Qed.

Lemma grows_checkCodeExamples md p : grows issues (checkCodeExamples md p).
Proof. unfold checkCodeExamples. grow. Qed.

Lemma grows_checkLinks cwd md p : grows issues (checkLinks cwd md p).
Proof. unfold checkLinks. grow. Qed.

Ltac checks_leaf :=
  idtac;
  lazymatch goal with
  | |- grows _ (checkFrontmatter _ _) => apply grows_checkFrontmatter
  | |- grows _ (checkContent _ _) => apply grows_checkContent
  | |- grows _ (checkStructure _ _) => apply grows_checkStructure
  | |- grows _ (checkCodeExamples _ _) => apply grows_checkCodeExamples
  | |- grows _ (checkLinks _ _ _) => apply grows_checkLinks
  | |- _ => checker_leaf
  end.

Lemma grows_checkFile cwd p entry : grows issues (checkFile cwd p entry).
Proof. unfold checkFile. grow_with checks_leaf. Qed.

Lemma returns_checkFile cwd p entry : returns (checkFile cwd p entry).
Proof.
  unfold checkFile. apply returns_try_catch. intro e. apply returns_addIssue.
Qed.

Lemma get_not_nullish (v : value) (k : jsstring) :
  nullish v = false -> exists x, get v k = Ok x.
Proof. destruct v; simpl; intro E; try discriminate; eauto. Qed.

Lemma get_nullish (v : value) (k : jsstring) :
  nullish v = true -> exists e, get v k = Throw e.
Proof. destruct v; simpl; intro E; try discriminate; eauto. Qed.

Lemma required_not_length (field : jsstring) :
  In field requiredFields -> str_eqb field length_key = false.
Proof.
  intro F. repeat (destruct F as [<- | F]; [vm_compute; reflexivity|]).
  contradiction.
Qed.

Lemma get_lacking (fm : value) (field : jsstring) :
  nullish fm = false -> In field requiredFields -> lacks field fm ->
  get fm field = Ok VUndefined.
Proof.
  intros N F L. destruct fm; simpl in *; try discriminate; try reflexivity.
  - now rewrite required_not_length.
  - now rewrite required_not_length.
  - unfold prop. now rewrite L.
Qed.

Lemma returns_field_check (fm : value) (p field : jsstring) :
  nullish fm = false ->
  returns (v <- lift (get fm field) ;;
           when (negb (truthy v)) (addIssue p (MissingField field))).
Proof.
  intro N. destruct (get_not_nullish fm field N) as [x ->].
  apply returns_bind; [apply returns_lift|].
  intro a. apply returns_when, returns_addIssue.
Qed.

(** With a front matter that lacks a required field, [checkFrontmatter]
    appends the issue naming that field. *)
Lemma checkFrontmatter_reports (fm : value) (p field : jsstring) :
  nullish fm = false -> In field requiredFields -> lacks field fm ->
  adds issues (Finding p (MissingField field)) (checkFrontmatter fm p).
Proof.
  intros N F L. unfold checkFrontmatter.
  apply adds_bind_l; [|intros _; grow].
  apply adds_for_each with (item := field); [exact F | | |].
  - intro y. now apply returns_field_check.
  - intro y. grow.
  - intro st. unfold bind, lift. rewrite (get_lacking fm field N F L). simpl.
    exact (adds_addIssue p (MissingField field) st).
Qed.

(** With a front matter that can be read from and lacks a required field,
    [checkFile] appends the issue naming that field. *)
Lemma checkFile_reports (cwd : node) (filePath : jsstring) (entry : node)
      (content markdown : jsstring) (fm : value) (field : jsstring) :
  read_node entry = Ok content ->
  matter content = Ok (fm, markdown) ->
  nullish fm = false -> In field requiredFields -> lacks field fm ->
  adds issues (Finding (relative_to_cwd filePath) (MissingField field))
       (checkFile cwd filePath entry).
Proof.
  intros Hread Hmatter N F L.
  unfold checkFile. apply adds_try_catch; [|intro; apply grows_addIssue].
  eapply adds_bind_lift; [exact Hread|].
  eapply adds_bind_lift; [exact Hmatter|]. cbn [fst snd].
  apply adds_bind_l.
  - now apply checkFrontmatter_reports.
  - intros _. grow_with checks_leaf.
Qed.

(** C8: for every document whose front matter is missing one of the fields
    title, description, authorId and category, the quality checker records a
    blocking finding (an entry of [issues]) that carries the path of the
    document: the issue naming the missing field, under the path relative to
    the working directory, or, when the parser returned no mapping to read
    from, the issue that the file could not be read, under the path as
    found. *)
Theorem C8_missing_required_field_is_blocking :
  forall (cwd : node) (filePath : jsstring) (entry : node)
         (content markdown : jsstring) (frontmatter : value) (field : jsstring),
    read_node entry = Ok content ->
    matter content = Ok (frontmatter, markdown) ->
    In field requiredFields ->
    lacks field frontmatter ->
    forall st : checker,
    exists (added : list finding) (found : finding),
      issues (snd (checkFile cwd filePath entry st)) = issues st ++ added
      /\ In found added
      /\ (found = Finding (relative_to_cwd filePath) (MissingField field)
          \/ exists m, found = Finding filePath (CannotReadFile m)).
Proof.
  intros cwd filePath entry content markdown fm field Hread Hmatter F L st.
  destruct (nullish fm) eqn:N.
  - (* nothing to read the fields from: the first access throws *)
    exists [Finding filePath (CannotReadFile (utf16 "Cannot read properties of undefined"))].
    eexists. split; [|split; [now left | right; eauto]].
    unfold checkFile, try_catch, bind, lift. rewrite Hread, Hmatter.
    destruct fm; try discriminate; reflexivity.
  - destruct (checkFile_reports cwd filePath entry content markdown fm field
                Hread Hmatter N F L st) as [added [E I]].
    exists added. eexists. split; [exact E|]. split; [exact I | now left].
Qed.

(** In a tree whose directories can all be listed, the search for Markdown
    files returns. *)
Lemma findMarkdownFiles_returns (n : node) :
  all_listable n = true -> isDirectory n = true ->
  forall dir, exists files, findMarkdownFiles dir n = Ok files.
Proof.
  induction n as [c | l es IH] using node_rect_entries; [discriminate|].
  cbn [all_listable]. intros L _ dir. apply andb_true_iff in L.
  destruct L as [-> L]. cbn [findMarkdownFiles].
  induction IH as [|[name x] es Hx Hes IHes]; [now exists []|].
  cbn [forallb snd] in L. apply andb_true_iff in L. destruct L as [Lx L].
  destruct (IHes L) as [more ->].
  destruct (isDirectory x) eqn:D.
  - destruct (Hx Lx D (path_join [dir; name])) as [here E]. cbn [snd] in E.
    rewrite E. now eexists.
  - now eexists.
Qed.

Lemma returns_count_checked : returns count_checked.
Proof. apply returns_modify. Qed.

(** Over a readable content tree the [try] block of [run] returns, and the
    code it returns is 1 exactly when [issues] is not empty. *)
Lemma run_body_returns (cwd n : node) (st : checker) :
  lookup cwd (utf16 "content") = Some n ->
  isDirectory n = true -> all_listable n = true ->
  exists c, run_body cwd st
            = (Ok (if (0 <? List.length (issues c))%nat then 1 else 0), c).
Proof.
  intros E D L. unfold run_body. rewrite E.
  destruct (findMarkdownFiles_returns n L D (utf16 "content")) as [files ->].
  unfold bind at 1. unfold lift at 1.
  unfold bind at 1. unfold set_totalFiles at 1, modify at 1.
  unfold bind at 1.
  match goal with |- context [for_each files ?body ?s0] =>
    assert (R : returns (for_each files body))
      by (apply returns_for_each; intro f; apply returns_bind;
          [apply returns_checkFile | intros _; apply returns_count_checked]);
    destruct (R s0) as [[] [c ->]]
  end.
  now exists c.
Qed.

(** The exit code of a run over a readable content tree. *)
Lemma checker_exit_code (cwd : node) :
  readable_content cwd ->
  fst (run cwd) = (if (0 <? List.length (issues (snd (run cwd))))%nat then 1 else 0).
Proof.
  unfold readable_content, run, existsSync.
  destruct (lookup cwd (utf16 "content")) as [n|] eqn:E; [|reflexivity].
  intros [D L]. cbn [negb].
  destruct (run_body_returns cwd n new E D L) as [c ->]. reflexivity.
Qed.

End WithHost.
End CheckerFacts.

(* ================================================================== *)
(** * The structure validator (structure-validator.js) *)
(* ================================================================== *)

Module ValidatorFacts.
Import JS Spec StringFacts MonadFacts TreeFacts StructureValidator.
Local Open Scope js_scope.

Lemma grows_addError_v m : grows errors (addError m).
Proof. intro st. now exists [m]. Qed.

Lemma grows_addWarning_v m : grows errors (addWarning m).
Proof. intro st. exists []. simpl. now rewrite app_nil_r. Qed.

Lemma adds_addError m : adds errors m (addError m).
Proof. intro st. exists [m]. split; [reflexivity | now left]. Qed.

Lemma warns_addWarning m : grows warnings (addWarning m).
Proof. intro st. now exists [m]. Qed.

Lemma warns_addError m : grows warnings (addError m).
Proof. intro st. exists []. simpl. now rewrite app_nil_r. Qed.

(** Every step of the validator only appends to [errors]. *)
Ltac validator_leaf :=
  idtac;
  lazymatch goal with
  | |- grows _ (addError _) => apply grows_addError_v
  | |- grows _ (addWarning _) => apply grows_addWarning_v
  end.

Ltac grow := grow_with validator_leaf.

Section WithHost.
Context {H : Host}.
Variable cwd : node.

Lemma grows_validateRootStructure : grows errors (validateRootStructure cwd).
Proof. unfold validateRootStructure. grow. Qed.

Lemma grows_loadConfig : grows errors (loadConfig cwd).
Proof. unfold loadConfig. grow. Qed.

Lemma grows_validateCategoryIndex p c : grows errors (validateCategoryIndex cwd p c).
Proof. unfold validateCategoryIndex. grow. Qed.

Lemma grows_validateTopicFile p f : grows errors (validateTopicFile p f).
Proof. unfold validateTopicFile. grow. Qed.

Ltac content_leaf :=
  idtac;
  lazymatch goal with
  | |- grows _ (validateTopicFile _ _) => apply grows_validateTopicFile
  | |- grows _ (loadConfig _) => apply grows_loadConfig
  | |- grows _ (validateCategoryIndex _ _ _) => apply grows_validateCategoryIndex
  | |- _ => validator_leaf
  end.

Lemma grows_validateTopicsStructure p : grows errors (validateTopicsStructure cwd p).
Proof. unfold validateTopicsStructure. grow_with content_leaf. Qed.

Lemma grows_validateContentStructure : grows errors (validateContentStructure cwd).
Proof.
  unfold validateContentStructure.
  grow_with ltac:(idtac; lazymatch goal with
                  | |- grows _ (validateTopicsStructure _ _) =>
                      apply grows_validateTopicsStructure
                  | |- _ => content_leaf
                  end).
Qed.

Lemma grows_check_categories slugs cats : grows errors (check_categories slugs cats).
Proof.
  revert slugs. induction cats as [|c cats IH]; intro slugs; cbn [check_categories].
  - grow.
  - grow_with ltac:(idtac; lazymatch goal with
                    | |- grows _ (check_categories _ _) => apply IH
                    | |- _ => validator_leaf
                    end).
Qed.

Lemma grows_validateConfiguration : grows errors (validateConfiguration cwd).
Proof.
  unfold validateConfiguration.
  grow_with ltac:(idtac; lazymatch goal with
                  | |- grows _ (check_categories _ _) => apply grows_check_categories
                  | |- _ => validator_leaf
                  end).
Qed.

Lemma grows_checkNaming n : forall dir, grows errors (checkNaming dir n).
Proof.
  induction n as [c | l es IH] using node_rect_entries; intro dir.
  - cbn [checkNaming]. grow.
  - destruct l; cbn [checkNaming]; [|grow].
    induction IH as [|[name x] es Hx Hes IHes]; [grow|].
    grow_with ltac:(idtac; lazymatch goal with
                    | |- grows _ (checkNaming _ _) => apply Hx
                    | |- grows _ (addError _) => apply grows_addError_v
                    | |- grows _ (addWarning _) => apply grows_addWarning_v
                    | |- _ => exact IHes
                    end).
Qed.

Lemma grows_validateNamingConventions : grows errors (validateNamingConventions cwd).
Proof.
  unfold validateNamingConventions.
  destruct (lookup cwd (utf16 "content")); [apply grows_checkNaming | grow].
Qed.

Lemma grows_check_sequence c i ns : grows errors (check_sequence c i ns).
Proof.
  revert i. induction ns as [|n ns IH]; intro i; cbn [check_sequence]; [grow|].
  destruct (negb (n =? i + 1)%nat); [grow | apply IH].
Qed.

Lemma grows_validateIntegrity : grows errors (validateIntegrity cwd).
Proof.
  unfold validateIntegrity.
  grow_with ltac:(idtac; lazymatch goal with
                  | |- grows _ (check_sequence _ _ _) => apply grows_check_sequence
                  | |- _ => validator_leaf
                  end).
Qed.

(** A run of [run_body] that returns went through the five checks, and the
    exit code it returns is 1 exactly when [errors] is not empty. *)
Lemma run_body_returned (st v : validator) (exit_code : nat) :
  run_body cwd st = (Ok exit_code, v) ->
  exists s1 s2 s3 s4,
    validateRootStructure cwd st = (Ok tt, s1)
    /\ validateContentStructure cwd s1 = (Ok tt, s2)
    /\ validateConfiguration cwd s2 = (Ok tt, s3)
    /\ validateNamingConventions cwd s3 = (Ok tt, s4)
    /\ validateIntegrity cwd s4 = (Ok tt, v)
    /\ exit_code = (if (0 <? List.length (errors v))%nat then 1 else 0).
Proof.
  unfold run_body. intro E.
  apply bind_returned in E. destruct E as [[] [s1 [E1 E]]].
  apply bind_returned in E. destruct E as [[] [s2 [E2 E]]].
  apply bind_returned in E. destruct E as [[] [s3 [E3 E]]].
  apply bind_returned in E. destruct E as [[] [s4 [E4 E]]].
  apply bind_returned in E. destruct E as [[] [s5 [E5 E]]].
  unfold bind, gets, ret in E. injection E as <- <-.
  exists s1, s2, s3, s4. repeat split; assumption.
Qed.

Lemma nonempty_length {A} (l : list A) :
  (if (0 <? List.length l)%nat then 1 else 0) <> 0 <-> l <> [].
Proof.
  destruct l; simpl; split; intro N; try congruence; try discriminate.
Qed.

(** How a run of the structure validator ends: when its checks ran to the
    end, the exit code is not zero exactly when an error was recorded; when
    an exception cut them short, the exit code is 1. *)
Lemma validator_exit_code :
  match run cwd with
  | (exit_code, Completed, v) => exit_code <> 0 <-> errors v <> []
  | (exit_code, Aborted _, _) => exit_code = 1
  end.
Proof.
  unfold run. destruct (run_body cwd new) as [[exit_code|e] v] eqn:E.
  - apply run_body_returned in E.
    destruct E as [s1 [s2 [s3 [s4 [_ [_ [_ [_ [_ ->]]]]]]]]].
    apply nonempty_length.
  - reflexivity.
Qed.

Lemma for_each_errors {A} (xs : list A) (body : A -> M validator unit)
      (e : A -> list message) :
  (forall x st, body x st = (Ok tt, Validator (errors st ++ e x) (warnings st))) ->
  forall st, for_each xs body st
             = (Ok tt, Validator (errors st ++ flat_map e xs) (warnings st)).
Proof.
  intro Hb. induction xs as [|x xs IH]; intro st; simpl.
  - unfold ret. rewrite app_nil_r. now destruct st.
  - unfold bind. rewrite Hb, IH. simpl. now rewrite app_assoc.
Qed.

Lemma module_flagged_iff (q : Q) : module_flagged q = true <-> outside_1_79 q.
Proof.
  unfold module_flagged, outside_1_79, lt_num, gt_num. cbn [truthy to_number num_ltb].
  unfold Qltb.
  rewrite andb_true_iff, orb_true_iff, !negb_true_iff.
  rewrite <- !not_true_iff_false, Qeq_bool_iff, !Qle_bool_iff.
  change (inject_Z 1) with 1%Q. change (inject_Z 79) with 79%Q.
  split; intros [N [L | G]]; (split; [exact N|]).
  - left. now apply Qnot_le_lt.
  - right. now apply Qnot_le_lt.
  - left. now apply Qlt_not_le.
  - right. now apply Qlt_not_le.
Qed.

(** What [validateTopicFile] does on a topic whose front matter is a mapping
    with a finite number as module. *)
Lemma validateTopicFile_effect (topicPath : jsstring) (file : node)
      (content markdown : jsstring) (props : list (jsstring * value)) (q : Q)
      (st : validator) :
  read_node file = Ok content ->
  matter content = Ok (VObj props, markdown) ->
  prop (utf16 "module") props = VNum (Fin q) ->
  validateTopicFile topicPath file st
  = (Ok tt,
     Validator (errors st ++ missing_fields props topicPath)
               (warnings st
                ++ if module_flagged q
                   then [BadModuleNumber (VNum (Fin q)) (relative_to_cwd topicPath)]
                   else [])).
Proof.
  intros Hread Hmatter Hmodule.
  unfold validateTopicFile, try_catch.
  unfold bind at 1. unfold lift at 1. rewrite Hread.
  unfold bind at 1. unfold lift at 1. rewrite Hmatter. cbn [fst snd].
  unfold bind at 1.
  rewrite (for_each_errors topic_fields _
             (fun field => if truthy (prop field props) then []
                           else [MissingTopicField field (relative_to_cwd topicPath)])).
  - fold (missing_fields props topicPath).
    unfold bind, lift. cbn [get]. rewrite Hmodule.
    fold (module_flagged q). destruct (module_flagged q); simpl.
    + reflexivity.
    + now rewrite app_nil_r.
  - intros field s. unfold bind, lift. cbn [get].
    destruct (truthy (prop field props)); simpl.
    + rewrite app_nil_r. now destruct s.
    + reflexivity.
Qed.

(** C3, as the code has it: the structure validator compares the module
    number of a topic with the fixed range 1..79 and never with the modules
    of the topic's category.  For a topic whose front matter is a mapping
    with a finite number as module, it adds the advisory finding that cites
    the number exactly when the number is not zero and lies outside 1..79;
    it adds no other warning, and the errors it adds are those of the fields
    that are missing. *)
Theorem C3_module_range_is_1_to_79 :
  forall (topicPath : jsstring) (file : node) (content markdown : jsstring)
         (props : list (jsstring * value)) (q : Q) (st : validator),
    read_node file = Ok content ->
    matter content = Ok (VObj props, markdown) ->
    prop (utf16 "module") props = VNum (Fin q) ->
    exists advisories : list message,
      warnings (snd (validateTopicFile topicPath file st)) = warnings st ++ advisories
      /\ errors (snd (validateTopicFile topicPath file st))
         = errors st ++ missing_fields props topicPath
      /\ ((outside_1_79 q
           /\ advisories = [BadModuleNumber (VNum (Fin q)) (relative_to_cwd topicPath)])
          \/ (~ outside_1_79 q /\ advisories = [])).
Proof.
  intros topicPath file content markdown props q st Hread Hmatter Hmodule.
  rewrite (validateTopicFile_effect topicPath file content markdown props q st
             Hread Hmatter Hmodule).
  cbn [snd errors warnings]. eexists. split; [reflexivity|]. split; [reflexivity|].
  destruct (module_flagged q) eqn:F.
  - left. split; [now apply module_flagged_iff | reflexivity].
  - right. split; [|reflexivity].
    intro O. apply module_flagged_iff in O. congruence.
Qed.

Lemma known_app (s : jsstring) (slugs more : list value) :
  known s slugs = true -> known s (slugs ++ more) = true.
Proof. unfold known. rewrite existsb_app. now intros ->. Qed.

Lemma known_added (s : jsstring) (slugs : list value) :
  known s (slugs ++ [VStr s]) = true.
Proof.
  unfold known. rewrite existsb_app. simpl. now rewrite str_eqb_refl, orb_true_r.
Qed.

(** One turn of the loop over the categories, when the loop returns. *)
Lemma check_categories_turn (slugs : list value) (c : value) (rest : list value)
      (st st' : validator) :
  check_categories slugs (c :: rest) st = (Ok tt, st') ->
  exists slug s2 added,
    get c slug_key = Ok slug
    /\ errors s2 = errors st ++ added
    /\ (existsb (same_value_zero slug) slugs = true -> In (DuplicateSlug slug) added)
    /\ check_categories (slugs ++ [slug]) rest s2 = (Ok tt, st').
Proof.
  cbn [check_categories]. intro E.
  apply bind_returned in E. destruct E as [slug [s0 [E0 E]]].
  unfold lift in E0. injection E0 as E0 <-.
  apply bind_returned in E. destruct E as [[] [s1 [E1 E]]].
  apply bind_returned in E. destruct E as [[] [s2 [E2 E]]].
  assert (G1 : exists a1, errors s1 = errors st ++ a1
                          /\ (existsb (same_value_zero slug) slugs = true
                              -> In (DuplicateSlug slug) a1)).
  { destruct (existsb (same_value_zero slug) slugs); simpl in E1.
    - injection E1 as <-. exists [DuplicateSlug slug]. split; [reflexivity | now left].
    - injection E1 as <-. exists []. split; [now rewrite app_nil_r | discriminate]. }
  destruct G1 as [a1 [G1 D1]].
  assert (G2 : exists a2, errors s2 = errors s1 ++ a2).
  { match type of E2 with ?m s1 = _ =>
      assert (G : grows errors m) by grow; destruct (G s1) as [a2 Ga] end.
    rewrite E2 in Ga. now exists a2. }
  destruct G2 as [a2 G2].
  exists slug, s2, (a1 ++ a2). repeat split.
  - exact E0.
  - now rewrite G2, G1, app_assoc.
  - intro K. apply in_or_app. left. now apply D1.
  - exact E.
Qed.

(** Once a slug is known, the loop that returns has recorded the next
    category that carries it. *)
Lemma check_categories_known (s : jsstring) (mid : list value) :
  forall (slugs : list value) (c2 : value) (post : list value) (st st' : validator),
    known s slugs = true ->
    get c2 slug_key = Ok (VStr s) ->
    check_categories slugs (mid ++ c2 :: post) st = (Ok tt, st') ->
    exists added, errors st' = errors st ++ added /\ In (DuplicateSlug (VStr s)) added.
Proof.
  induction mid as [|c mid IH]; intros slugs c2 post st st' K G2 E.
  - apply check_categories_turn in E.
    destruct E as [slug [s2 [added [G [Ea [D E]]]]]].
    rewrite G2 in G. injection G as <-.
    destruct (grows_check_categories (slugs ++ [VStr s]) post s2) as [more Em].
    rewrite E in Em. simpl in Em.
    exists (added ++ more). split.
    + now rewrite Em, Ea, app_assoc.
    + apply in_or_app. left. now apply D.
  - simpl in E. apply check_categories_turn in E.
    destruct E as [slug [s2 [added [G [Ea [D E]]]]]].
    destruct (IH (slugs ++ [slug]) c2 post s2 st' (known_app s slugs [slug] K) G2 E)
      as [more [Em Im]].
    exists (added ++ more). split.
    + now rewrite Em, Ea, app_assoc.
    + apply in_or_app. now right.
Qed.

(** Two categories with one slug: the loop that returns has recorded the
    slug as duplicated. *)
Lemma check_categories_duplicate (s : jsstring) (pre : list value) :
  forall (slugs : list value) (c1 : value) (mid : list value) (c2 : value)
         (post : list value) (st st' : validator),
    get c1 slug_key = Ok (VStr s) ->
    get c2 slug_key = Ok (VStr s) ->
    check_categories slugs (pre ++ c1 :: mid ++ c2 :: post) st = (Ok tt, st') ->
    exists added, errors st' = errors st ++ added /\ In (DuplicateSlug (VStr s)) added.
Proof.
  induction pre as [|c pre IH]; intros slugs c1 mid c2 post st st' G1 G2 E.
  - simpl in E. apply check_categories_turn in E.
    destruct E as [slug [s2 [added [G [Ea [_ E]]]]]].
    rewrite G1 in G. injection G as <-.
    destruct (check_categories_known s mid (slugs ++ [VStr s]) c2 post s2 st'
                (known_added s slugs) G2 E) as [more [Em Im]].
    exists (added ++ more). split.
    + now rewrite Em, Ea, app_assoc.
    + apply in_or_app. now right.
  - simpl in E. apply check_categories_turn in E.
    destruct E as [slug [s2 [added [G [Ea [_ E]]]]]].
    destruct (IH (slugs ++ [slug]) c1 mid c2 post s2 st' G1 G2 E) as [more [Em Im]].
    exists (added ++ more). split.
    + now rewrite Em, Ea, app_assoc.
    + apply in_or_app. now right.
Qed.

Lemma returns_addError m : returns (addError m).
Proof. apply returns_modify. Qed.

(** On categories that are all mappings the loop returns. *)
Lemma returns_check_categories (cats : list value) :
  Forall is_record cats -> forall slugs, returns (check_categories slugs cats).
Proof.
  induction 1 as [|c cats [props ->] _ IH]; intro slugs; cbn [check_categories].
  - apply returns_ret.
  - apply returns_bind; [apply returns_lift|]. intro slug.
    apply returns_bind; [apply returns_when, returns_addError|]. intros _.
    apply returns_bind.
    + apply returns_for_each. intro field.
      apply returns_bind; [apply returns_lift|]. intro v.
      apply returns_when, returns_addError.
    + intros _. apply IH.
Qed.

Lemma readFile_exists (p content : jsstring) :
  readFile cwd p = Ok content -> existsSync cwd p = true.
Proof.
  unfold readFile, existsSync. destruct (lookup cwd p); [reflexivity | discriminate].
Qed.

Section Configured.
Variables (text : jsstring) (props : list (jsstring * value)) (cats : list value).
Hypothesis Hread : readFile cwd (utf16 "content.config.json") = Ok text.
Hypothesis Hparse : JSON_parse text = inr (VObj props).
Hypothesis Hcats : prop (utf16 "categories") props = VArr cats.

(** [validateConfiguration] on a configuration that reads and parses to a
    mapping whose [categories] is an array: the sections are looked at, then
    the loop runs over the array, inside the [try]. *)
Lemma validateConfiguration_loop (st : validator) :
  exists s1 before,
    errors s1 = errors st ++ before
    /\ validateConfiguration cwd st
       = try_catch (check_categories [] cats)
                   (fun error => addError (ConfigParseError (exn_message error))) s1.
Proof.
  unfold validateConfiguration. rewrite (readFile_exists _ _ Hread). cbn [negb].
  unfold try_catch at 1. unfold bind at 1. unfold lift at 1. rewrite Hread.
  unfold bind at 1. unfold lift at 1, json_parse. rewrite Hparse.
  unfold bind at 1.
  rewrite (for_each_errors config_sections _
             (fun section => if truthy (prop section props) then []
                             else [MissingConfigSection section])).
  - eexists. eexists. split; [|unfold bind at 1, lift at 1; cbn [get]; rewrite Hcats;
                                 reflexivity].
    reflexivity.
  - intros section s. unfold bind, lift. cbn [get].
    destruct (truthy (prop section props)); simpl.
    + rewrite app_nil_r. now destruct s.
    + reflexivity.
Qed.

Variables (s : jsstring) (pre mid post : list value) (c1 c2 : value).
Hypothesis Hsplit : cats = pre ++ c1 :: mid ++ c2 :: post.
Hypothesis Hc1 : get c1 slug_key = Ok (VStr s).
Hypothesis Hc2 : get c2 slug_key = Ok (VStr s).

(** Whatever the other categories are, something is added to [errors]. *)
Lemma validateConfiguration_blocks (st : validator) :
  exists added,
    errors (snd (validateConfiguration cwd st)) = errors st ++ added /\ added <> [].
Proof.
  destruct (validateConfiguration_loop st) as [s1 [before [Eb ->]]].
  unfold try_catch. destruct (check_categories [] cats s1) as [[[]|e] s2] eqn:E.
  - rewrite Hsplit in E.
    destruct (check_categories_duplicate s pre [] c1 mid c2 post s1 s2 Hc1 Hc2 E)
      as [added [Ea Ia]].
    exists (before ++ added). cbn [snd]. split.
    + now rewrite Ea, Eb, app_assoc.
    + intro N. apply app_eq_nil in N. destruct N as [_ ->]. contradiction.
  - destruct (grows_check_categories [] cats s1) as [more Em]. rewrite E in Em.
    cbn [snd] in *. exists (before ++ more ++ [ConfigParseError (exn_message e)]).
    split.
    + unfold addError, modify. cbn [snd errors]. now rewrite Em, Eb, !app_assoc.
    + intro N. apply app_eq_nil in N. destruct N as [_ N].
      apply app_eq_nil in N. destruct N as [_ N]. discriminate.
Qed.

(** With categories that are all mappings, the duplicated slug is named. *)
Lemma validateConfiguration_names_duplicate (st : validator) :
  Forall is_record cats ->
  exists added,
    errors (snd (validateConfiguration cwd st)) = errors st ++ added
    /\ In (DuplicateSlug (VStr s)) added.
Proof.
  intro R. destruct (validateConfiguration_loop st) as [s1 [before [Eb ->]]].
  unfold try_catch.
  destruct (returns_check_categories cats R [] s1) as [[] [s2 E]]. rewrite E.
  rewrite Hsplit in E.
  destruct (check_categories_duplicate s pre [] c1 mid c2 post s1 s2 Hc1 Hc2 E)
    as [added [Ea Ia]].
  exists (before ++ added). cbn [snd]. split.
  - now rewrite Ea, Eb, app_assoc.
  - apply in_or_app. now right.
Qed.

(** The run ends with code 1. *)
Lemma run_exits_1_on_duplicate : fst (fst (run cwd)) = 1.
Proof.
  unfold run. destruct (run_body cwd new) as [[exit_code|e] v] eqn:E; [|reflexivity].
  apply run_body_returned in E.
  destruct E as [s1 [s2 [s3 [s4 [_ [_ [E3 [E4 [E5 ->]]]]]]]]].
  destruct (validateConfiguration_blocks s2) as [added [Ea Na]].
  rewrite E3 in Ea. cbn [snd] in Ea.
  destruct (grows_validateNamingConventions s3) as [a4 G4]. rewrite E4 in G4.
  destruct (grows_validateIntegrity s4) as [a5 G5]. rewrite E5 in G5.
  cbn [snd fst] in *. rewrite G5, G4, Ea.
  destruct added as [|x added]; [contradiction|].
  rewrite !length_app. simpl.
  destruct (0 <? _)%nat eqn:Z; [reflexivity|].
  apply Nat.ltb_ge in Z. lia.
Qed.

End Configured.


End WithHost.
End ValidatorFacts.

(* ================================================================== *)
(** * The exit code of a run *)
(* ================================================================== *)

Module RunFacts.
Import JS Spec Samples.

(** C2, as the code has it: over a readable content tree the quality check
    exits with a code other than zero exactly when it recorded an issue.  The
    structure validation does so when its checks ran to their end; when an
    exception cut them short it exits with code 1, whatever it had
    recorded. *)
Theorem C2_exit_code_and_blocking_findings :
  forall (H : Host) (cwd : node),
    readable_content cwd ->
    (fst (ContentChecker.run cwd) <> 0
       <-> ContentChecker.issues (snd (ContentChecker.run cwd)) <> [])
    /\ match StructureValidator.run cwd with
       | (exit_code, StructureValidator.Completed, v) =>
           exit_code <> 0 <-> StructureValidator.errors v <> []
       | (exit_code, StructureValidator.Aborted _, _) => exit_code = 1
       end.
Proof.
  intros H cwd R. split.
  - rewrite (CheckerFacts.checker_exit_code cwd R).
    apply ValidatorFacts.nonempty_length.
  - apply ValidatorFacts.validator_exit_code.
Qed.

(** C2 fails as stated: the project has every file and directory the
    structure validator expects and a readable content tree, and its
    configuration is the mapping without entries.  The loop over
    [config.categories] throws, the run exits with code 1, and no error was
    recorded. *)
Lemma C2_counterexample :
  readable_content (project config_empty)
  /\ fst (fst (@StructureValidator.run host (project config_empty))) = 1
  /\ StructureValidator.errors (snd (@StructureValidator.run host (project config_empty)))
     = [].
Proof.
  split; [|split].
  - unfold readable_content. vm_compute. split; reflexivity.
  - vm_compute. reflexivity.
  - vm_compute. reflexivity.
Qed.

(** C3 fails as stated: the configuration declares the category basics with
    modules "1-15", the topic under it declares module 16, and the run of the
    structure validator ends with no warning and no error at all. *)
Lemma C3_counterexample :
  JS.prop (utf16 "modules") (own_properties basics) = str "1-15"
  /\ JS.prop (utf16 "module") topic_frontmatter = num 16
  /\ @StructureValidator.run host (project config)
     = (0, StructureValidator.Completed, StructureValidator.Validator [] []).
Proof.
  split; [|split]; vm_compute; reflexivity.
Qed.

End RunFacts.

(* ================================================================== *)
(** * The word-count rule (content-author.js and content-checker.js) *)
(* ================================================================== *)

Module QualityFacts.
Import JS Spec Samples.

Section WithHost.
Context {H : Host}.

(** [count < q] for a count and a finite threshold. *)
Lemma below_iff (count : nat) (q : Q) :
  ContentAuthor.below count (VNum (Fin q)) = true
  <-> (inject_Z (Z.of_nat count) < q)%Q.
Proof.
  unfold ContentAuthor.below. cbn [to_number num_ltb]. unfold Qltb.
  rewrite negb_true_iff, <- not_true_iff_false, Qle_bool_iff. split.
  - apply Qnot_le_lt.
  - apply Qlt_not_le.
Qed.

(** The word-count entry is in the array [errors] of [validateContent]
    exactly when the count is below the threshold. *)
Lemma word_count_rule (content : jsstring) (standards : value) :
  (exists n m, In (ContentAuthor.WordCountBelow n m)
                  (ContentAuthor.quality_errors content standards))
  <-> ContentAuthor.below (ContentAuthor.countWords content)
        (ContentAuthor.field_of standards "minWords") = true.
Proof.
  unfold ContentAuthor.quality_errors.
  destruct (ContentAuthor.below (ContentAuthor.countWords content)
              (ContentAuthor.field_of standards "minWords")) eqn:B.
  - split; [reflexivity|]. intros _. eexists. eexists. now left.
  - split; [|discriminate]. intros [n [m I]]. exfalso.
    cbn [app] in I.
    repeat match type of I with
           | context [if ?b then _ else _] => destruct b
           end;
      simpl in I; intuition discriminate.
Qed.

(** What [checkContent] appends to [issues]: the word-count issue when the
    body has fewer than 800 words, and the placeholder issue. *)
Lemma checkContent_issues (markdown path : jsstring) (st : ContentChecker.checker) :
  ContentChecker.issues (snd (ContentChecker.checkContent markdown path st))
  = ContentChecker.issues st
    ++ (if (List.length (ContentChecker.words_of markdown) <? 800)%nat
        then [ContentChecker.Finding path
                (ContentChecker.NotEnoughContent
                   (List.length (ContentChecker.words_of markdown)))]
        else [])
    ++ (if test ContentChecker.lorem_re markdown
        then [ContentChecker.Finding path ContentChecker.PlaceholderText]
        else []).
Proof.
  unfold ContentChecker.checkContent.
  destruct (List.length (ContentChecker.words_of markdown) <? 800)%nat;
    destruct (List.length (match_all ContentChecker.heading_re markdown) <? 3)%nat;
    destruct (includes (utf16 "TODO") markdown);
    destruct (test ContentChecker.lorem_re markdown);
    cbn; rewrite <- ?app_assoc, ?app_nil_r; reflexivity.
Qed.

End WithHost.

(** C1, as the code has it: the validator of the author tool
    ([ContentValidator.validateContent]) reports the word count exactly when
    the number of words of the text, counted after its front matter and its
    fenced code blocks are removed, is below the threshold [minWords] of the
    quality standards.  The content checker ([ContentChecker.checkContent])
    reports it exactly when the body the front-matter parser returned has
    fewer than 800 words, fenced code blocks included: it reads no
    standards. *)
Theorem C1_word_count_rule :
  forall (H : Host) (content : jsstring) (standards : value) (minWords : Q)
         (markdown path : jsstring) (st : ContentChecker.checker),
    ContentAuthor.field_of standards "minWords" = VNum (Fin minWords) ->
    ((exists n m, In (ContentAuthor.WordCountBelow n m)
                     (ContentAuthor.quality_errors content standards))
       <-> (inject_Z (Z.of_nat (ContentAuthor.countWords content)) < minWords)%Q)
    /\ exists added,
         ContentChecker.issues (snd (ContentChecker.checkContent markdown path st))
         = ContentChecker.issues st ++ added
         /\ ((exists n, In (ContentChecker.Finding path (ContentChecker.NotEnoughContent n))
                           added)
             <-> List.length (ContentChecker.words_of markdown) < 800).
Proof.
  intros H content standards minWords markdown path st M. split.
  - rewrite word_count_rule, M. apply below_iff.
  - rewrite checkContent_issues. eexists. split; [reflexivity|].
    destruct (List.length (ContentChecker.words_of markdown) <? 800)%nat eqn:W.
    + apply Nat.ltb_lt in W. split; [intros _; exact W|].
      intros _. eexists. now left.
    + apply Nat.ltb_ge in W. split; [|lia].
      intros [n I]. exfalso. cbn [app] in I.
      destruct (test ContentChecker.lorem_re markdown); simpl in I;
        intuition discriminate.
Qed.

(** C1 fails as stated for the content checker: the body has 799 words
    outside its fenced code block, which is below the threshold 800 of the
    quality standards, and the checker's rule reports nothing, because it
    counts the four words of the block as well. *)
Lemma C1_counterexample :
  ContentAuthor.field_of quality_section "minWords" = num 800
  /\ ContentAuthor.countWords body_799_and_code = 799
  /\ List.length (ContentChecker.words_of body_799_and_code) = 803
  /\ ContentChecker.issues
       (snd (ContentChecker.checkContent body_799_and_code (utf16 "content/a.md")
               ContentChecker.new))
     = [].
Proof.
  split; [|split; [|split]]; vm_compute; reflexivity.
Qed.

End QualityFacts.

(* ================================================================== *)
(** * Texts without front matter *)
(* ================================================================== *)

Module FrontMatterFacts.
Import JS Spec Samples StringFacts MonadFacts RegexFacts.

Section WithHost.
Context {H : Host}.

(** Without a match of its front-matter pattern, [validateMarkdownFile]
    pushes the error that the front matter is missing, after the error on the
    size when the file is too large, and looks at nothing else. *)
Lemma validateMarkdownFile_without_match (filePath : jsstring) (entry : node)
      (content : jsstring) (st : GoDojoValidator.validator) :
  read_node entry = Ok content ->
  match_first GoDojoValidator.frontmatter_match_re content = None ->
  GoDojoValidator.validateMarkdownFile filePath entry st
  = (Ok tt,
     GoDojoValidator.Validator
       (GoDojoValidator.errors st
        ++ (if (GoDojoValidator.maxTopicSize <? N.of_nat (List.length content))%N
            then [GoDojoValidator.FileTooLarge (relative_to_cwd filePath)] else [])
        ++ [GoDojoValidator.NoFrontmatter (relative_to_cwd filePath)])
       (GoDojoValidator.warnings st) (GoDojoValidator.passed st)).
Proof.
  intros Hread Hmatch.
  unfold GoDojoValidator.validateMarkdownFile, try_catch, bind, lift.
  rewrite Hread. cbv zeta. rewrite Hmatch.
  destruct (GoDojoValidator.maxTopicSize <? N.of_nat (List.length content))%N; cbn.
  - now rewrite <- app_assoc.
  - reflexivity.
Qed.

(** C5, as the code has it: for every text that does not begin with a
    metadata block between two lines of three dashes, the front-matter
    parsing of the godojo validator fails the file: it records the blocking
    error that the front matter is missing and validates nothing else in the
    file.  The content checker parses with gray-matter and has no such
    failure: when gray-matter returns the empty mapping and the whole text,
    it goes on to its rules and records, for each of the four required
    fields, that the field is missing. *)
Theorem C5_text_without_front_matter :
  forall (filePath : jsstring) (entry : node) (content : jsstring)
         (st : GoDojoValidator.validator) (cwd : node) (checker : ContentChecker.checker),
    read_node entry = Ok content ->
    ~ begins_with_front_matter content ->
    matter content = Ok (VObj [], content) ->
    GoDojoValidator.validateMarkdownFile filePath entry st
    = (Ok tt,
       GoDojoValidator.Validator
         (GoDojoValidator.errors st
          ++ (if (GoDojoValidator.maxTopicSize <? N.of_nat (List.length content))%N
              then [GoDojoValidator.FileTooLarge (relative_to_cwd filePath)] else [])
          ++ [GoDojoValidator.NoFrontmatter (relative_to_cwd filePath)])
         (GoDojoValidator.warnings st) (GoDojoValidator.passed st))
    /\ exists added,
         ContentChecker.issues (snd (ContentChecker.checkFile cwd filePath entry checker))
         = ContentChecker.issues checker ++ added
         /\ forall field,
              In field ContentChecker.requiredFields ->
              In (ContentChecker.Finding (relative_to_cwd filePath)
                    (ContentChecker.MissingField field)) added.
Proof.
  intros filePath entry content st cwd checker Hread Hnone Hmatter. split.
  - apply validateMarkdownFile_without_match; [exact Hread|].
    destruct (match_first GoDojoValidator.frontmatter_match_re content) as [f|] eqn:E;
      [|reflexivity].
    exfalso. apply Hnone. exact (frontmatter_match_sound content f E).
  - destruct (CheckerFacts.grows_checkFile cwd filePath entry checker) as [added E].
    exists added. split; [exact E|]. intros field F.
    destruct (CheckerFacts.checkFile_reports cwd filePath entry content content
                (VObj []) field Hread Hmatter eq_refl F eq_refl checker)
      as [added' [E' I]].
    rewrite E in E'. apply app_inv_head in E'. now subst.
Qed.

End WithHost.

(** C5 fails as stated for the content checker: the text has no front
    matter, gray-matter returns the empty mapping with the whole text as
    body, and the checker goes on to its rules; what it records are the
    findings of the rules, none of them a failure to parse. *)
Lemma C5_counterexample :
  startsWith (utf16 "---") plain_text = false
  /\ @matter host plain_text = Ok (VObj [], plain_text)
  /\ ContentChecker.issues
       (snd (@ContentChecker.checkFile host (project config) (utf16 "content/notes.md")
               (File (Some plain_text)) ContentChecker.new))
     = List.map (ContentChecker.Finding (utf16 "content/notes.md"))
         [ContentChecker.MissingField (utf16 "title");
          ContentChecker.MissingField (utf16 "description");
          ContentChecker.MissingField (utf16 "authorId");
          ContentChecker.MissingField (utf16 "category");
          ContentChecker.NotEnoughContent 8;
          ContentChecker.NotEnoughCodeExamples 0].
Proof.
  split; [|split]; vm_compute; reflexivity.
Qed.

End FrontMatterFacts.

(* ================================================================== *)
(** * The configuration loader of content-author.js *)
(* ================================================================== *)

Module ConfigFacts.
Import JS.

(** Induction on a schema, with the hypothesis at every field of a shape. *)
Lemma schema_ind_fields (P : schema -> Prop) :
  P ZString ->
  (forall positive, P (ZNumber positive)) ->
  (forall options, P (ZEnum options)) ->
  (forall n item, P item -> P (ZArray n item)) ->
  (forall shape, Forall (fun f => P (snd f)) shape -> P (ZObject shape)) ->
  (forall inner, P inner -> P (ZOptional inner)) ->
  forall sch, P sch.
Proof.
  intros Hs Hn He Ha Ho Hopt. fix IH 1. intros [ | p | o | n item | shape | inner].
  - exact Hs.
  - apply Hn.
  - apply He.
  - apply Ha, IH.
  - apply Ho. induction shape as [|[k sk] shape IHshape]; constructor.
    + apply IH.
    + exact IHshape.
  - apply Hopt, IH.
Qed.

Lemma app_nil_iff {A : Type} (xs ys : list A) : xs ++ ys = [] <-> xs = [] /\ ys = [].
Proof.
  split.
  - apply app_eq_nil.
  - intros [-> ->]. reflexivity.
Qed.

(** The items of an array raise no issue exactly when each of them is
    accepted. *)
Lemma parse_items_clean (parse_item : list path_item -> value -> list zod_issue * value)
      (accepts : value -> bool)
      (IH : forall p v, fst (parse_item p v) = [] <-> accepts v = true)
      (at_path : list path_item) (xs : list value) :
  forall i, fst (parse_items parse_item at_path i xs) = [] <-> forallb accepts xs = true.
Proof.
  induction xs as [|x xs IHxs]; intro i; cbn [parse_items forallb].
  - split; reflexivity.
  - specialize (IH (at_path ++ [Index i]) x). specialize (IHxs (S i)).
    destruct (parse_item (at_path ++ [Index i]) x) as [e1 x'].
    destruct (parse_items parse_item at_path (S i) xs) as [e2 rest].
    cbn [fst] in *. rewrite app_nil_iff, Bool.andb_true_iff, IH, IHxs. reflexivity.
Qed.

(** [parse] raises no issue exactly on the values of the schema's type. *)
Lemma zparse_clean (sch : schema) :
  forall at_path v, fst (zparse sch at_path v) = [] <-> Spec.conforms sch v = true.
Proof.
  induction sch as [ | positive | options | n item IH | shape IH | inner IH]
    using schema_ind_fields; intros at_path v.
  - destruct v; cbn; split; congruence.
  - destruct v as [ | | | [ | | | q] | | | ]; cbn [zparse Spec.conforms];
      try (cbn; split; congruence).
    + destruct positive; cbn; split; congruence.
    + destruct positive; cbn; split; congruence.
    + destruct positive; cbn [andb orb negb]; [|split; reflexivity].
      destruct (positive_number (Fin q)); cbn; split; congruence.
  - destruct v; cbn [zparse Spec.conforms]; try (cbn; split; congruence).
    destruct (existsb _ options); cbn; split; congruence.
  - destruct v as [ | | | | | items | ]; cbn [zparse Spec.conforms];
      try (cbn; split; congruence).
    pose proof (parse_items_clean (zparse item) (Spec.conforms item) IH at_path items 0%nat) as Items.
    destruct (parse_items (zparse item) at_path 0 items) as [es out].
    cbn [fst] in *. rewrite app_nil_iff, Bool.andb_true_iff, Items.
    destruct (Nat.ltb_spec (List.length items) n) as [Lt | Ge].
    + assert ((n <=? List.length items)%nat = false) as -> by (apply Nat.leb_gt; exact Lt).
      split; intros [? ?]; congruence.
    + assert ((n <=? List.length items)%nat = true) as -> by (apply Nat.leb_le; exact Ge).
      tauto.
  - destruct v as [ | | | | | | props]; cbn [zparse Spec.conforms];
      try (cbn; split; congruence).
    match goal with
    | |- fst (let (_, _) := ?each shape in _) = [] <-> _ =>
        assert (Fields : fst (each shape) = [] <->
                         (fix all (fields : list (jsstring * schema)) : bool :=
                            match fields with
                            | [] => true
                            | (k, sk) :: fields' =>
                                Spec.conforms sk (prop k props) && all fields'
                            end) shape = true);
        [| destruct (each shape) as [es out]; exact Fields]
    end.
    induction IH as [|[k sk] shape Hk _ IHshape].
    + split; reflexivity.
    + cbn [snd] in Hk. specialize (Hk (at_path ++ [Key k]) (prop k props)).
      destruct (zparse sk (at_path ++ [Key k]) (prop k props)) as [e1 x'].
      match type of IHshape with
      | fst ?rest = [] <-> _ => destruct rest as [e2 others]
      end.
      cbn [fst] in *. rewrite app_nil_iff, Bool.andb_true_iff, Hk, IHshape. reflexivity.
  - destruct v; cbn [zparse Spec.conforms]; try apply IH. split; reflexivity.
Qed.

(** A well-typed configuration is an object whose four sections are
    well-typed. *)
Lemma conforms_ConfigSchema (raw : value) :
  Spec.conforms ContentAuthor.ConfigSchema raw = true <->
  Spec.section_ok "structure" ContentAuthor.structure_schema raw /\
  Spec.section_ok "godojo" ContentAuthor.godojo_schema raw /\
  Spec.section_ok "categories" ContentAuthor.categories_schema raw /\
  Spec.section_ok "quality" ContentAuthor.quality_schema raw.
Proof.
  unfold Spec.section_ok. split.
  - destruct raw as [ | | | | | | props]; try discriminate.
    unfold ContentAuthor.ConfigSchema. cbn [Spec.conforms].
    rewrite !Bool.andb_true_iff. intros (A & B & C & D & _).
    repeat split; exists props; (split; [reflexivity | assumption]).
  - intros ((props & -> & A) & (p2 & E2 & B) & (p3 & E3 & C) & (p4 & E4 & D)).
    injection E2 as <-. injection E3 as <-. injection E4 as <-.
    unfold ContentAuthor.ConfigSchema. cbn [Spec.conforms].
    rewrite A, B, C, D. reflexivity.
Qed.

Section WithHost.
Context {H : Host}.

Lemma schema_parse_conforms (sch : schema) (raw : value) :
  schema_parse sch raw =
  if Spec.conforms sch raw then Ok (snd (zparse sch [] raw))
  else Throw (ZodError (fst (zparse sch [] raw))).
Proof.
  unfold schema_parse. pose proof (zparse_clean sch [] raw) as Clean.
  destruct (zparse sch [] raw) as [[|e es] out]; cbn [fst snd] in *.
  - rewrite (proj1 Clean eq_refl). reflexivity.
  - destruct (Spec.conforms sch raw); [|reflexivity].
    destruct Clean as [_ Back]. discriminate (Back eq_refl).
Qed.

Lemma loadConfig_outcome (cwd : node) (configPath : jsstring) (st : ContentAuthor.manager) :
  fst (ContentAuthor.loadConfig cwd configPath st) = Spec.load_outcome cwd configPath.
Proof.
  unfold ContentAuthor.loadConfig, Spec.load_outcome, existsSync, readFile.
  destruct (lookup cwd configPath) as [n|]; cbn [negb]; [|reflexivity].
  unfold try_catch, bind, lift, json_parse, ContentAuthor.validateConfig.
  destruct n as [[c|] | l es]; cbn [read_node]; try reflexivity.
  destruct (JSON_parse c) as [message | raw]; [reflexivity|].
  rewrite schema_parse_conforms.
  destruct (Spec.conforms ContentAuthor.ConfigSchema raw); reflexivity.
Qed.

(** C4 (as the code has it).  Loading a configuration file always comes to
    one of five results, told apart by [load_outcome]: the file is absent
    (CONFIG_NOT_FOUND), cannot be read (CONFIG_LOAD_FAILED), is not JSON
    (CONFIG_INVALID_JSON), is not a well-typed configuration
    (VALIDATION_SCHEMA_FAILED, with at least one itemised schema error), or is
    loaded.  A configuration is well-typed exactly when it is an object whose
    FOUR sections [structure], [godojo], [categories] and [quality] are
    present and well-typed. *)
Theorem C4_config_needs_four_sections (cwd : node) (configPath : jsstring)
        (st : ContentAuthor.manager) :
  fst (ContentAuthor.loadConfig cwd configPath st) = Spec.load_outcome cwd configPath /\
  (forall raw,
      Spec.conforms ContentAuthor.ConfigSchema raw = true <->
      Spec.section_ok "structure" ContentAuthor.structure_schema raw /\
      Spec.section_ok "godojo" ContentAuthor.godojo_schema raw /\
      Spec.section_ok "categories" ContentAuthor.categories_schema raw /\
      Spec.section_ok "quality" ContentAuthor.quality_schema raw) /\
  (forall raw,
      Spec.conforms ContentAuthor.ConfigSchema raw = false <->
      fst (zparse ContentAuthor.ConfigSchema [] raw) <> []).
Proof.
  split; [apply loadConfig_outcome | split].
  - apply conforms_ConfigSchema.
  - intro raw. rewrite <- Bool.not_true_iff_false.
    rewrite (zparse_clean ContentAuthor.ConfigSchema [] raw). reflexivity.
Qed.

End WithHost.

(** C4, the claim as worded fails: a configuration file whose [structure],
    [categories] and [quality] sections are present and well-typed, and
    which has no [godojo] section, is refused with a schema error at
    [godojo]. *)
Lemma C4_counterexample :
  Spec.section_ok "structure" ContentAuthor.structure_schema Samples.config_without_godojo /\
  Spec.section_ok "categories" ContentAuthor.categories_schema Samples.config_without_godojo /\
  Spec.section_ok "quality" ContentAuthor.quality_schema Samples.config_without_godojo /\
  fst (ContentAuthor.loadConfig (H := Samples.host)
         (Samples.project Samples.config_without_godojo)
         ContentAuthor.CONFIG_FILE ContentAuthor.new)
    = Throw (ContentAuthor.ValidationError "VALIDATION_SCHEMA_FAILED"
               [(utf16 "errors",
                 VArr [issue_value (ZodIssue invalid_type [Key (utf16 "godojo")])])]).
Proof.
  split; [|split; [|split]].
  - eexists. split; [reflexivity | vm_compute; reflexivity].
  - eexists. split; [reflexivity | vm_compute; reflexivity].
  - eexists. split; [reflexivity | vm_compute; reflexivity].
  - vm_compute. reflexivity.
Qed.

End ConfigFacts.

(* ================================================================== *)
(** * The builder of content-builder.js *)
(* ================================================================== *)

Module BuilderFacts.
Import JS Spec StringFacts RegexFacts.
Local Open Scope js_scope.

(** ** The word count and the reading time *)

(** Where a search finds a match, the pattern matches at some position of
    the text. *)
Lemma search_sound (r : regex) :
  forall aft bef f,
    search r bef aft = Some f ->
    exists skipped rest s',
      aft = skipped ++ rest /\ matches r (MState (rev skipped ++ bef) rest []) s'.
Proof.
  induction aft as [|c aft IH]; intros bef f E; cbn [search] in E; unfold exec_at in E.
  - destruct (mt r (MState bef [] []) Some) as [e|] eqn:A; [|discriminate].
    apply mt_sound in A. destruct A as [s' [M _]].
    exists [], [], s'. split; [reflexivity | exact M].
  - destruct (mt r (MState bef (c :: aft) []) Some) as [e|] eqn:A.
    + apply mt_sound in A. destruct A as [s' [M _]].
      exists [], (c :: aft), s'. split; [reflexivity | exact M].
    + apply IH in E. destruct E as (skipped & rest & s' & -> & M).
      exists (c :: skipped), rest, s'. split; [reflexivity|].
      cbn [rev]. rewrite <- app_assoc. exact M.
Qed.

(** A pattern [^---...] finds nothing in a text without three dashes in a
    row, with the m flag or without it. *)
Lemma rule_search (ml : bool) (r : regex) (text : jsstring) (f : found) :
  search (Seq (Bol ml) (Seq (Lit (utf16 "---")) r)) [] text = Some f ->
  occurs (utf16 "---") text.
Proof.
  intro E. apply search_sound in E. destruct E as (skipped & rest & s' & -> & M).
  inversion M as [ | | ? ? ? s1 ? M1 R1 | | | | | | | | | ]; subst. clear M.
  inversion M1; subst. clear M1.
  inversion R1 as [ | | ? ? ? s2 ? M2 R2 | | | | | | | | | ]; subst. clear R1.
  apply (matches_Lit (utf16 "---")) in M2. cbn [after] in M2. subst rest.
  exists skipped, (after s2). reflexivity.
Qed.

Lemma remove_first_without_dashes (ml : bool) (r : regex) (text : jsstring) :
  ~ occurs (utf16 "---") text ->
  remove_first (Seq (Bol ml) (Seq (Lit (utf16 "---")) r)) text = text.
Proof.
  intro N. unfold remove_first.
  destruct (search _ [] text) as [f|] eqn:E; [|reflexivity].
  apply rule_search in E. contradiction.
Qed.

(** X1.  On a body that, its fenced blocks removed, has no three dashes in a
    row, the count of the builder is the count of the words outside the
    fenced blocks: [countWords] of content-builder.js drops nothing else. *)
Theorem countWords_without_dashes (body : jsstring) :
  ~ occurs (utf16 "---") (remove_all ContentBuilder.code_block_re body) ->
  ContentBuilder.countWords body = word_count body.
Proof.
  intro N. unfold ContentBuilder.countWords, word_count, ContentChecker.words_of.
  change fenced_block_re with ContentBuilder.code_block_re.
  unfold ContentBuilder.frontmatter_re, leading_front_matter_re. cbn [seqs].
  rewrite !remove_first_without_dashes by exact N. reflexivity.
Qed.

(** [Math.ceil(n / 200)] is the least number of stretches of 200 that
    cover [n]. *)
Lemma ceil_div_200_is_ceiling (n : nat) :
  (n <= 200 * ContentBuilder.ceil_div_200 n < n + 200)%nat.
Proof.
  unfold ContentBuilder.ceil_div_200.
  pose proof (Nat.div_mod_eq (n + 199) 200) as D.
  pose proof (Nat.mod_upper_bound (n + 199) 200) as U. lia.
Qed.

Lemma prop_set_prop (k : jsstring) (v : value) (props : list (jsstring * value)) :
  prop k (set_prop k v props) = v.
Proof.
  unfold prop. induction props as [|[k' v'] props IH]; cbn [set_prop assoc].
  - now rewrite str_eqb_refl.
  - destruct (str_eqb k k') eqn:E; cbn [assoc]; rewrite ?str_eqb_refl, ?E; [reflexivity | exact IH].
Qed.

(** The [stats] of a built topic: [wordCount] is the count of the builder,
    [readingTime] is its ceiling over 200. *)
Lemma topic_value_stats (frontmatter : value) (categorySlug markdown : jsstring) :
  exists stats,
    ContentBuilder.field "stats"
      (ContentBuilder.topic_value frontmatter categorySlug markdown) = VObj stats /\
    prop (utf16 "wordCount") stats
      = nat_value (ContentBuilder.countWords markdown) /\
    prop (utf16 "readingTime") stats
      = nat_value (ContentBuilder.ceil_div_200 (ContentBuilder.countWords markdown)).
Proof.
  exists (ContentBuilder.topic_stats markdown (ContentBuilder.parseMarkdown markdown)).
  split; [|split].
  - unfold ContentBuilder.topic_value, ContentBuilder.field, spread.
    cbn [fold_left fst snd]. apply prop_set_prop.
  - reflexivity.
  - reflexivity.
Qed.

(** C9, where the code leaves the claim.  The [readingTime] of a built topic
    is the ceiling of its [wordCount] over 200, and on a body without three
    dashes in a row the [wordCount] is the count of the words outside the
    fenced blocks.  On the body [body_with_rules], which has two horizontal
    rules and no front matter, the builder counts 2 words and one minute
    where the body has 254 words and takes two: the 250 words between the
    rules and the 2 dashes-lines are dropped as if they were a front
    matter. *)
Theorem C9_words_between_rules_are_dropped :
  (forall frontmatter categorySlug markdown,
      exists stats,
        ContentBuilder.field "stats"
          (ContentBuilder.topic_value frontmatter categorySlug markdown) = VObj stats /\
        prop (utf16 "wordCount") stats
          = nat_value (ContentBuilder.countWords markdown) /\
        prop (utf16 "readingTime") stats
          = nat_value (ContentBuilder.ceil_div_200 (ContentBuilder.countWords markdown))) /\
  (forall n, n <= 200 * ContentBuilder.ceil_div_200 n < n + 200)%nat /\
  startsWith (utf16 "---") Samples.body_with_rules = false /\
  includes (utf16 "```") Samples.body_with_rules = false /\
  word_count Samples.body_with_rules = 254%nat /\
  ContentBuilder.countWords Samples.body_with_rules = 2%nat /\
  ContentBuilder.ceil_div_200 254 = 2%nat /\
  ContentBuilder.ceil_div_200 2 = 1%nat.
Proof.
  split; [exact topic_value_stats|].
  split; [exact ceil_div_200_is_ceiling|].
  split; [|split; [|split; [|split; [|split]]]]; vm_compute; reflexivity.
Qed.

(** ** Two builds of the same content *)

Section WithHost.
Context {H : Host}.

(** A build reads the configuration file and the content directory, and
    nothing else of the tree. *)
Lemma build_same_inputs (cwd1 cwd2 : node) (st : ContentBuilder.builder) :
  lookup cwd1 (utf16 "content.config.json") = lookup cwd2 (utf16 "content.config.json") ->
  lookup cwd1 (utf16 "content") = lookup cwd2 (utf16 "content") ->
  ContentBuilder.build cwd1 st = ContentBuilder.build cwd2 st.
Proof.
  intros Config Content.
  unfold ContentBuilder.build, ContentBuilder.loadConfig, ContentBuilder.scanContent,
    existsSync, readFile, readdir.
  cbv zeta. rewrite Config, Content. reflexivity.
Qed.

(** The manifest, whatever the time: no manifest at all, or an object that
    holds the time at [generated] and nowhere else. *)
Lemma manifest_value_cases (config : value) (b : ContentBuilder.builder) :
  (exists e, forall now, ContentBuilder.manifest_value now config b = Throw e) \/
  (exists first rest,
      assoc (utf16 "generated") first = None /\
      forall now,
        ContentBuilder.manifest_value now config b
        = Ok (VObj (first ++ (utf16 "generated", VStr now) :: rest))).
Proof.
  unfold ContentBuilder.manifest_value.
  destruct (get config (utf16 "structure")) as [structure | e]; [|left; eauto].
  destruct (get structure (utf16 "defaultLanguage")) as [language | e]; [|left; eauto].
  right. exists [(utf16 "version", str "1.0.0")]. eexists.
  split; [reflexivity|]. intro now. reflexivity.
Qed.

Lemma generateManifest_writes (now : jsstring) (config : value) (b : ContentBuilder.builder) :
  ContentBuilder.generateManifest now config b =
  match ContentBuilder.manifest_value now config b with
  | Ok manifest =>
      (Ok tt,
       ContentBuilder.Builder (ContentBuilder.categories b) (ContentBuilder.topics b)
         (ContentBuilder.stats b)
         (ContentBuilder.written b
            ++ [(ContentBuilder.manifest_path, JSON_stringify manifest)]))
  | Throw e => (Throw e, b)
  end.
Proof.
  unfold ContentBuilder.generateManifest, ContentBuilder.writeFile, bind, gets, lift, modify.
  destruct (ContentBuilder.manifest_value now config b); reflexivity.
Qed.

(** C7.  Two runs of the builder, at any two moments, over two trees with
    the same configuration file and the same content directory, end with
    the same exit code, the same categories, topics and counters, and write
    the same files with the same bytes in the same order: the per-topic
    JSON files, the per-category YAML files and the two indexes.  The
    manifest, written last when it is written, may differ, and then only
    in the text of its field [generated]. *)
Theorem C7_builds_differ_in_generated_only
        (cwd1 cwd2 : node) (now1 now2 : jsstring)
        (Config : lookup cwd1 (utf16 "content.config.json")
                  = lookup cwd2 (utf16 "content.config.json"))
        (Content : lookup cwd1 (utf16 "content") = lookup cwd2 (utf16 "content")) :
  let r1 := ContentBuilder.run cwd1 now1 in
  let r2 := ContentBuilder.run cwd2 now2 in
  let files := ContentBuilder.written (snd (ContentBuilder.build cwd1 ContentBuilder.new)) in
  fst r1 = fst r2 /\
  ContentBuilder.categories (snd r1) = ContentBuilder.categories (snd r2) /\
  ContentBuilder.topics (snd r1) = ContentBuilder.topics (snd r2) /\
  ContentBuilder.stats (snd r1) = ContentBuilder.stats (snd r2) /\
  ((ContentBuilder.written (snd r1) = files /\ ContentBuilder.written (snd r2) = files) \/
   (exists m1 m2,
       ContentBuilder.written (snd r1)
         = files ++ [(ContentBuilder.manifest_path, JSON_stringify m1)] /\
       ContentBuilder.written (snd r2)
         = files ++ [(ContentBuilder.manifest_path, JSON_stringify m2)] /\
       same_but_generated m1 m2)).
Proof.
  cbv zeta. unfold ContentBuilder.run, bind.
  rewrite <- (build_same_inputs cwd1 cwd2 ContentBuilder.new Config Content).
  destruct (ContentBuilder.build cwd1 ContentBuilder.new) as [[config | e] b];
    cbn [fst snd]; [|repeat split; left; split; reflexivity].
  rewrite !generateManifest_writes.
  destruct (manifest_value_cases config b) as [[e E] | (first & rest & Fresh & E)];
    rewrite !E; cbn [fst snd ContentBuilder.categories ContentBuilder.topics
                     ContentBuilder.stats ContentBuilder.written].
  - repeat split; left; split; reflexivity.
  - split; [reflexivity|]. split; [reflexivity|]. split; [reflexivity|].
    split; [reflexivity|]. right.
    exists (VObj (first ++ (utf16 "generated", VStr now1) :: rest)),
           (VObj (first ++ (utf16 "generated", VStr now2) :: rest)).
    split; [reflexivity|]. split; [reflexivity|].
    exists first, rest, now1, now2. split; [reflexivity|]. split; [reflexivity | exact Fresh].
Qed.

End WithHost.

End BuilderFacts.

(* ================================================================== *)
(** * The theorems at the sample project *)
(* ================================================================== *)

Module Instances.
Import JS Spec Samples.

(** A text that does not start with three dashes does not begin with a
    metadata block. *)
Lemma no_dashes_no_front_matter (text : jsstring) :
  startsWith (utf16 "---") text = false -> ~ begins_with_front_matter text.
Proof.
  intros S (mapping & rest & E).
  assert (P : startsWith (utf16 "---") text = true).
  { apply StringFacts.startsWith_prefix. rewrite E. eexists. reflexivity. }
  congruence.
Qed.

(** The word-count rule at a body of 799 words and a fenced block, under the
    threshold 800 of content.config.json. *)
Lemma C1_witness :
  ContentAuthor.field_of quality_section "minWords" = VNum (Fin (inject_Z 800)) /\
  (((exists n m, In (ContentAuthor.WordCountBelow n m)
                    (ContentAuthor.quality_errors (H := host)
                       body_799_and_code quality_section))
      <-> (inject_Z (Z.of_nat (ContentAuthor.countWords body_799_and_code))
           < inject_Z 800)%Q)
   /\ exists added,
        ContentChecker.issues
          (snd (ContentChecker.checkContent (words 799) notes_path ContentChecker.new))
        = ContentChecker.issues ContentChecker.new ++ added
        /\ ((exists n, In (ContentChecker.Finding notes_path
                             (ContentChecker.NotEnoughContent n)) added)
            <-> List.length (ContentChecker.words_of (words 799)) < 800)).
Proof.
  split; [reflexivity|].
  apply (QualityFacts.C1_word_count_rule host). reflexivity.
Defined.

(** The exit codes at the sample project, whose content tree is readable. *)
Lemma C2_witness :
  readable_content (project config) /\
  ((fst (ContentChecker.run (H := host) (project config)) <> 0
    <-> ContentChecker.issues (snd (ContentChecker.run (H := host) (project config))) <> [])
   /\ match StructureValidator.run (H := host) (project config) with
      | (exit_code, StructureValidator.Completed, v) =>
          exit_code <> 0 <-> StructureValidator.errors v <> []
      | (exit_code, StructureValidator.Aborted _, _) => exit_code = 1
      end).
Proof.
  assert (R : readable_content (project config)).
  { unfold readable_content. vm_compute. split; reflexivity. }
  split; [exact R|].
  exact (RunFacts.C2_exit_code_and_blocking_findings host (project config) R).
Defined.

(** The topic of the sample project declares module 16. *)
Lemma C3_witness :
  exists advisories : list StructureValidator.message,
    StructureValidator.warnings
      (snd (StructureValidator.validateTopicFile (H := host) topic_path
              (File (Some topic_text)) StructureValidator.new))
    = StructureValidator.warnings StructureValidator.new ++ advisories
    /\ StructureValidator.errors
         (snd (StructureValidator.validateTopicFile (H := host) topic_path
                 (File (Some topic_text)) StructureValidator.new))
       = StructureValidator.errors StructureValidator.new
         ++ missing_fields topic_frontmatter topic_path
    /\ ((outside_1_79 (inject_Z 16)
         /\ advisories = [StructureValidator.BadModuleNumber (VNum (Fin (inject_Z 16)))
                            (relative_to_cwd topic_path)])
        \/ (~ outside_1_79 (inject_Z 16) /\ advisories = [])).
Proof.
  apply (ValidatorFacts.C3_module_range_is_1_to_79 (H := host) topic_path
           (File (Some topic_text)) topic_text topic_body topic_frontmatter
           (inject_Z 16) StructureValidator.new).
  - reflexivity.
  - vm_compute. reflexivity.
  - vm_compute. reflexivity.
Defined.

(** A text of plain notes, without a metadata block. *)
Lemma C5_witness :
  GoDojoValidator.validateMarkdownFile notes_path (File (Some plain_text))
    GoDojoValidator.new
  = (Ok tt,
     GoDojoValidator.Validator
       (GoDojoValidator.errors GoDojoValidator.new
        ++ (if (GoDojoValidator.maxTopicSize <? N.of_nat (List.length plain_text))%N
            then [GoDojoValidator.FileTooLarge (relative_to_cwd notes_path)] else [])
        ++ [GoDojoValidator.NoFrontmatter (relative_to_cwd notes_path)])
       (GoDojoValidator.warnings GoDojoValidator.new)
       (GoDojoValidator.passed GoDojoValidator.new))
  /\ exists added,
       ContentChecker.issues
         (snd (ContentChecker.checkFile (H := host) (project config) notes_path
                 (File (Some plain_text)) ContentChecker.new))
       = ContentChecker.issues ContentChecker.new ++ added
       /\ forall field,
            In field ContentChecker.requiredFields ->
            In (ContentChecker.Finding (relative_to_cwd notes_path)
                  (ContentChecker.MissingField field)) added.
Proof.
  apply (FrontMatterFacts.C5_text_without_front_matter (H := host) notes_path
           (File (Some plain_text)) plain_text GoDojoValidator.new (project config)
           ContentChecker.new).
  - reflexivity.
  - apply no_dashes_no_front_matter. vm_compute. reflexivity.
  - vm_compute. reflexivity.
Defined.

(** Two builds of the sample project, the second with the output of the
    first beside the content. *)
Lemma C7_witness :
  lookup (project config) (utf16 "content.config.json")
    = lookup (project_built config) (utf16 "content.config.json") /\
  lookup (project config) (utf16 "content")
    = lookup (project_built config) (utf16 "content") /\
  fst (ContentBuilder.run (H := host) (project config) noon)
    = fst (ContentBuilder.run (H := host) (project_built config) midnight).
Proof.
  assert (Config : lookup (project config) (utf16 "content.config.json")
                   = lookup (project_built config) (utf16 "content.config.json"))
    by (vm_compute; reflexivity).
  assert (Content : lookup (project config) (utf16 "content")
                    = lookup (project_built config) (utf16 "content"))
    by (vm_compute; reflexivity).
  split; [exact Config|]. split; [exact Content|].
  exact (proj1 (BuilderFacts.C7_builds_differ_in_generated_only (H := host)
                  (project config) (project_built config) noon midnight
                  Config Content)).
Defined.

(** The plain notes have no front matter, so no title. *)
Lemma C8_witness :
  exists (added : list ContentChecker.finding) (found : ContentChecker.finding),
    ContentChecker.issues
      (snd (ContentChecker.checkFile (H := host) (project config) notes_path
              (File (Some plain_text)) ContentChecker.new))
    = ContentChecker.issues ContentChecker.new ++ added
    /\ In found added
    /\ (found = ContentChecker.Finding (relative_to_cwd notes_path)
                  (ContentChecker.MissingField (utf16 "title"))
        \/ exists m, found = ContentChecker.Finding notes_path
                               (ContentChecker.CannotReadFile m)).
Proof.
  apply (CheckerFacts.C8_missing_required_field_is_blocking (H := host) (project config)
           notes_path (File (Some plain_text)) plain_text plain_text (VObj [])
           (utf16 "title")).
  - reflexivity.
  - vm_compute. reflexivity.
  - left. reflexivity.
  - reflexivity.
Defined.


(** The body of 799 words and a fenced block has no three dashes in a row. *)
Lemma countWords_without_dashes_witness :
  includes (utf16 "---") (remove_all ContentBuilder.code_block_re body_799_and_code) = false /\
  ContentBuilder.countWords body_799_and_code = word_count body_799_and_code.
Proof.
  assert (I : includes (utf16 "---")
                (remove_all ContentBuilder.code_block_re body_799_and_code) = false)
    by (vm_compute; reflexivity).
  split; [exact I|].
  apply BuilderFacts.countWords_without_dashes.
  intro O. apply StringFacts.includes_occurs in O. congruence.
Defined.

End Instances.

(* ================================================================== *)
(** * The numbering of the topics (structure-validator.js) *)
(* ================================================================== *)

Module NumberingFacts.
Import JS Spec StructureValidator.

Lemma insert_sorted_permutation (n : nat) (l : list nat) :
  Permutation (insert_sorted n l) (n :: l).
Proof.
  induction l as [|m l IH]; cbn [insert_sorted].
  - apply Permutation_refl.
  - destruct (n <? m)%nat.
    + apply Permutation_refl.
    + apply perm_trans with (m :: n :: l).
      * apply perm_skip, IH.
      * apply perm_swap.
Qed.

Lemma insert_sorted_sorted (n : nat) (l : list nat) :
  StronglySorted le l -> StronglySorted le (insert_sorted n l).
Proof.
  induction 1 as [|m l S IH F]; cbn [insert_sorted].
  - constructor; constructor.
  - destruct (Nat.ltb_spec n m) as [Lt | Ge].
    + constructor; [constructor; assumption|].
      constructor; [lia|]. rewrite Forall_forall in *. intros x I.
      specialize (F x I). lia.
    + constructor; [exact IH|].
      rewrite Forall_forall in *. intros x I.
      apply (Permutation_in _ (insert_sorted_permutation n l)) in I.
      destruct I as [<- | I]; [exact Ge | now apply F].
Qed.

Lemma sort_from (l acc : list nat) :
  StronglySorted le acc ->
  StronglySorted le (fold_left (fun acc n => insert_sorted n acc) l acc)
  /\ Permutation (fold_left (fun acc n => insert_sorted n acc) l acc) (l ++ acc).
Proof.
  revert acc. induction l as [|n l IH]; intros acc S; cbn [fold_left app].
  - split; [exact S | apply Permutation_refl].
  - destruct (IH (insert_sorted n acc) (insert_sorted_sorted n acc S)) as [S' P].
    split; [exact S'|].
    apply perm_trans with (l ++ insert_sorted n acc); [exact P|].
    apply perm_trans with (l ++ n :: acc).
    + apply Permutation_app_head, insert_sorted_permutation.
    + apply Permutation_sym, Permutation_middle.
Qed.

(** The model of [sort((a, b) => a - b)] sorts: its result is in ascending
    order and holds the same numbers. *)
Lemma sort_numbers_sorts (l : list nat) :
  StronglySorted le (sort_numbers l) /\ Permutation (sort_numbers l) l.
Proof.
  destruct (sort_from l [] (SSorted_nil le)) as [S P].
  split; [exact S|]. now rewrite app_nil_r in P.
Qed.

(** Two ascending lists with the same numbers are the same list. *)
Lemma sorted_unique (a : list nat) :
  forall b, StronglySorted le a -> StronglySorted le b -> Permutation a b -> a = b.
Proof.
  induction a as [|x a IH]; intros b Sa Sb P.
  - apply Permutation_nil in P. now subst.
  - destruct b as [|y b].
    + apply Permutation_sym, Permutation_nil in P. discriminate.
    + inversion Sa as [|? ? Sa' Fa]; subst. inversion Sb as [|? ? Sb' Fb]; subst.
      assert (x = y) as <-.
      { assert (Ix : In x (y :: b)) by (apply (Permutation_in _ P); now left).
        assert (Iy : In y (x :: a))
          by (apply (Permutation_in _ (Permutation_sym P)); now left).
        rewrite Forall_forall in Fa, Fb.
        destruct Ix as [<- | Ix]; [reflexivity|].
        destruct Iy as [<- | Iy]; [reflexivity|].
        specialize (Fa y Iy). specialize (Fb x Ix). lia. }
      f_equal. apply IH; try assumption. now apply Permutation_cons_inv in P.
Qed.

Lemma seq_sorted (n start : nat) : StronglySorted le (seq start n).
Proof.
  revert start. induction n as [|n IH]; intro start; cbn [seq]; constructor.
  - apply IH.
  - rewrite Forall_forall. intros x I. apply in_seq in I. lia.
Qed.

(** The loop over the sorted numbers: nothing is pushed when the numbers
    are [i + 1], [i + 2], ... in a row; otherwise one warning is pushed, for
    the first number out of place. *)
Lemma check_sequence_effect (category : jsstring) (numbers : list nat) :
  forall (i : nat) (st : validator),
    (numbers = seq (i + 1) (List.length numbers)
     /\ check_sequence category i numbers st = (Ok tt, st))
    \/ (numbers <> seq (i + 1) (List.length numbers)
        /\ exists expected found,
             check_sequence category i numbers st
             = (Ok tt, Validator (errors st)
                         (warnings st ++ [NumberingGap category expected found]))).
Proof.
  induction numbers as [|n numbers IH]; intros i st; cbn [check_sequence List.length seq].
  - left. split; reflexivity.
  - destruct (Nat.eqb_spec n (i + 1)) as [-> | Ne]; cbn [negb].
    + destruct (IH (S i) st) as [[E R] | [N R]].
      * left. split; [|exact R]. f_equal. exact E.
      * right. split; [|exact R]. intro E. apply N.
        injection E as E. exact E.
    + right. split; [intro E; injection E as E _; contradiction|].
      exists (i + 1), n. reflexivity.
Qed.

(** X2.  The integrity check of the structure validator accepts the topic
    numbers of a category exactly when they are the numbers 1 to n, each
    once, in any order: then it pushes nothing.  When they are not (a gap, a
    number twice, a numbering that starts elsewhere) it pushes exactly one
    warning, never an error, and it does not throw. *)
Theorem numbering_accepted_iff_1_to_n
        (category : jsstring) (topicNumbers : list nat) (st : validator) :
  (Permutation topicNumbers (seq 1 (List.length topicNumbers))
   /\ check_sequence category 0 (sort_numbers topicNumbers) st = (Ok tt, st))
  \/ (~ Permutation topicNumbers (seq 1 (List.length topicNumbers))
      /\ exists expected found,
           check_sequence category 0 (sort_numbers topicNumbers) st
           = (Ok tt, Validator (errors st)
                       (warnings st ++ [NumberingGap category expected found]))).
Proof.
  destruct (sort_numbers_sorts topicNumbers) as [S P].
  assert (L : List.length (sort_numbers topicNumbers) = List.length topicNumbers)
    by (apply Permutation_length, P).
  destruct (check_sequence_effect category (sort_numbers topicNumbers) 0 st)
    as [[E R] | [N R]]; cbn [Nat.add] in *; rewrite L in *.
  - left. split; [|exact R]. rewrite <- E. apply Permutation_sym, P.
  - right. split; [|exact R]. intro Q. apply N.
    apply sorted_unique; [exact S | apply seq_sorted|].
    apply perm_trans with topicNumbers; assumption.
Qed.

End NumberingFacts.

(* ================================================================== *)
(** * The author identifiers (content-author.js, AuthorManager) *)
(* ================================================================== *)

Module HashFacts.
Import JS Spec AuthorManager.
Local Open Scope Z_scope.

Lemma to_int32_range (z : Z) : - 2 ^ 31 <= to_int32 z < 2 ^ 31.
Proof.
  unfold to_int32. pose proof (Z.mod_pos_bound (z + 2 ^ 31) (2 ^ 32)). lia.
Qed.

(** The 32-bit reading of an integer differs from it by a multiple of
    2^32. *)
Lemma to_int32_multiple (z : Z) : exists q, to_int32 z = z + q * 2 ^ 32.
Proof.
  exists (- ((z + 2 ^ 31) / 2 ^ 32)). unfold to_int32.
  pose proof (Z_div_mod_eq_full (z + 2 ^ 31) (2 ^ 32)). lia.
Qed.

(** Two integers that differ by a multiple of 2^32 have the same 32-bit
    reading. *)
Lemma to_int32_congr (a b q : Z) : a = b + q * 2 ^ 32 -> to_int32 a = to_int32 b.
Proof.
  intros ->. unfold to_int32. f_equal.
  replace (b + q * 2 ^ 32 + 2 ^ 31) with (b + 2 ^ 31 + q * 2 ^ 32) by lia.
  apply Z_mod_plus_full.
Qed.

Lemma to_int32_idem (z : Z) : to_int32 (to_int32 z) = to_int32 z.
Proof.
  destruct (to_int32_multiple z) as [q E]. exact (to_int32_congr _ _ q E).
Qed.

(** One turn of the loop multiplies by 31 and adds the code unit, in 32
    bits. *)
Lemma hash_step_31 (hash : Z) (c : char) :
  hash_step hash c = to_int32 (31 * hash + Z.of_N c).
Proof.
  unfold hash_step, and32, shl32. cbv zeta.
  rewrite Z.land_diag, to_int32_idem.
  rewrite Z.shiftl_mul_pow2 by lia.
  destruct (to_int32_multiple hash) as [q1 E1]. rewrite E1.
  destruct (to_int32_multiple ((hash + q1 * 2 ^ 32) * 2 ^ 5)) as [q2 E2]. rewrite E2.
  apply (to_int32_congr _ _ (32 * q1 + q2)). lia.
Qed.

Lemma fold_left_step {A B : Type} (f : A -> B -> A) (x : B) (xs : list B) (a : A) :
  fold_left f (x :: xs) a = fold_left f xs (f a x).
Proof. reflexivity. Qed.

Lemma fold_hash_step (s : jsstring) :
  forall p : Z,
    fold_left hash_step s (to_int32 p)
    = to_int32 (fold_left (fun acc c => 31 * acc + Z.of_N c) s p).
Proof.
  induction s as [|c s IH]; intro p.
  - reflexivity.
  - rewrite !fold_left_step, hash_step_31.
    destruct (to_int32_multiple p) as [q Q]. rewrite Q.
    rewrite (to_int32_congr (31 * (p + q * 2 ^ 32) + Z.of_N c) (31 * p + Z.of_N c) (31 * q))
      by lia.
    apply IH.
Qed.

Local Close Scope Z_scope.

Lemma hex_digits_length (fuel : nat) :
  forall (n : N) (acc : jsstring) (k : nat),
    (n < 16 ^ N.of_nat (S k))%N ->
    (List.length (hex_digits fuel n acc) <= List.length acc + S k)%nat.
Proof.
  induction fuel as [|fuel IH]; intros n acc k B; cbn [hex_digits].
  - lia.
  - destruct (N.eqb_spec (n / 16) 0) as [Z | NZ]; cbn [List.length].
    + lia.
    + destruct k as [|k].
      * exfalso. apply NZ. apply N.div_small. exact B.
      * specialize (IH (n / 16)%N (hex_digit (n mod 16) :: acc) k).
        cbn [List.length] in IH.
        assert (B' : (n / 16 < 16 ^ N.of_nat (S k))%N).
        { apply N.Div0.div_lt_upper_bound.
          replace (N.of_nat (S (S k))) with (N.succ (N.of_nat (S k))) in B by lia.
          rewrite N.pow_succ_r' in B. exact B. }
        specialize (IH B'). lia.
Qed.

Lemma hex_digits_nonempty (fuel : nat) (n : N) (acc : jsstring) :
  (List.length acc < List.length (hex_digits (S fuel) n acc))%nat.
Proof.
  revert n acc. induction fuel as [|fuel IH]; intros n acc.
  - cbn [hex_digits]. destruct (n / 16 =? 0)%N; cbn [List.length]; lia.
  - change (hex_digits (S (S fuel)) n acc)
      with (let acc' := hex_digit (n mod 16) :: acc in
            if (n / 16 =? 0)%N then acc' else hex_digits (S fuel) (n / 16) acc').
    cbv zeta. destruct (n / 16 =? 0)%N; cbn [List.length]; [lia|].
    specialize (IH (n / 16)%N (hex_digit (n mod 16) :: acc)).
    cbn [List.length] in IH. lia.
Qed.

Lemma hex_digit_is_hex (d : N) : (d < 16)%N -> is_hex_char (hex_digit d) = true.
Proof.
  intro B. unfold is_hex_char, hex_digit, is_digit.
  destruct (N.ltb_spec d 10).
  - apply orb_true_iff. left. apply andb_true_iff. split; apply N.leb_le; lia.
  - apply orb_true_iff. right. apply andb_true_iff. split; apply N.leb_le; lia.
Qed.

Lemma hex_digits_hex (fuel : nat) :
  forall (n : N) (acc : jsstring),
    forallb is_hex_char acc = true -> forallb is_hex_char (hex_digits fuel n acc) = true.
Proof.
  induction fuel as [|fuel IH]; intros n acc A; cbn [hex_digits].
  - exact A.
  - assert (A' : forallb is_hex_char (hex_digit (n mod 16) :: acc) = true).
    { cbn [forallb]. rewrite A, hex_digit_is_hex; [reflexivity|].
      apply N.mod_upper_bound. discriminate. }
    destruct (n / 16 =? 0)%N; [exact A' | now apply IH].
Qed.

Lemma simpleHash_shape (str : jsstring) :
  simpleHash str = to_hex (Z.to_N (Z.abs (to_int32 (polynomial_hash str))))
  /\ (1 <= List.length (simpleHash str) <= 8)%nat
  /\ forallb is_hex_char (simpleHash str) = true.
Proof.
  assert (F : fold_left hash_step str 0%Z = to_int32 (polynomial_hash str)).
  { unfold polynomial_hash. exact (fold_hash_step str 0%Z). }
  assert (L8 : (List.length (to_hex (Z.to_N (Z.abs (to_int32 (polynomial_hash str)))))
                <= 8)%nat).
  { unfold to_hex.
    apply (hex_digits_length _ _ [] 7).
    pose proof (to_int32_range (polynomial_hash str)).
    change (16 ^ N.of_nat 8)%N with 4294967296%N. lia. }
  assert (E : simpleHash str = to_hex (Z.to_N (Z.abs (to_int32 (polynomial_hash str))))).
  { unfold simpleHash. cbv zeta. rewrite F. apply firstn_all2. exact L8. }
  split; [exact E|]. rewrite E. split; [split; [|exact L8]|].
  - unfold to_hex.
    pose proof (hex_digits_nonempty
                  (N.to_nat (N.log2 (Z.to_N (Z.abs (to_int32 (polynomial_hash str))))))
                  (Z.to_N (Z.abs (to_int32 (polynomial_hash str)))) []) as P.
    cbn [List.length] in P. lia.
  - unfold to_hex. apply hex_digits_hex. reflexivity.
Qed.

(** X3.  [#simpleHash] is the polynomial hash in 31 of the code units of
    the string, kept in 32 bits, written in hexadecimal without its sign.
    The text has from one to eight characters, digits and the letters a to
    f, and cutting it at eight characters never drops a digit.  An author
    identifier is [author_], the user name, an underscore and such a
    text. *)
Theorem simpleHash_is_polynomial_hash (str : jsstring) :
  simpleHash str = to_hex (Z.to_N (Z.abs (to_int32 (polynomial_hash str))))
  /\ (1 <= List.length (simpleHash str) <= 8)%nat
  /\ forallb is_hex_char (simpleHash str) = true
  /\ forall (timestamp : N) (username : jsstring),
       exists hash,
         generateAuthorId timestamp username
         = utf16 "author_" ++ username ++ utf16 "_" ++ hash
         /\ (1 <= List.length hash <= 8)%nat
         /\ forallb is_hex_char hash = true.
Proof.
  destruct (simpleHash_shape str) as (E & L & X).
  split; [exact E|]. split; [exact L|]. split; [exact X|].
  intros timestamp username. unfold generateAuthorId. cbv zeta.
  eexists. split; [reflexivity|].
  destruct (simpleHash_shape
              (username ++ utf16 (NilEmpty.string_of_uint (N.to_uint timestamp))))
    as (_ & L' & X').
  split; assumption.
Qed.

End HashFacts.

(* ================================================================== *)
(** * Generated topic directories (content-author.js, ContentGenerator) *)
(* ================================================================== *)

Module SlugFacts.
Import JS Spec.

(** A name that starts with two digits and a hyphen passes [/^\d{2}-/], and
    the group of [/^(\d{2})-/] is the two digits. *)
Lemma two_digit_prefix (d1 d2 : char) (rest : jsstring) :
  is_digit d1 = true -> is_digit d2 = true ->
  test StructureValidator.topic_prefix_re (d1 :: d2 :: StructureValidator.hyphen :: rest)
  = true
  /\ option_map (group 1)
       (match_first StructureValidator.topic_number_re
          (d1 :: d2 :: StructureValidator.hyphen :: rest))
     = Some [d1; d2].
Proof.
  intros D1 D2. split.
  - unfold test, StructureValidator.topic_prefix_re. cbn [seqs Times search].
    unfold exec_at. cbn [mt Chr after step before caps]. unfold at_bol. cbn [before].
    rewrite D1, D2. reflexivity.
  - unfold match_first, StructureValidator.topic_number_re. cbn [seqs Times search].
    unfold exec_at. cbn [mt Chr after step before caps]. unfold at_bol. cbn [before].
    rewrite D1, D2. cbn -[Nat.sub]. unfold group, between. cbn -[Nat.sub firstn].
    replace (S (S (S (List.length rest))) - S (List.length rest))%nat with 2%nat by lia.
    reflexivity.
Qed.

(** The numbers below 100, padded to two characters, are two digits that
    read as the number. *)
Lemma padded_decimals :
  forallb
    (fun n =>
       match ContentGenerator.padStart 2 48%N (decimal n) with
       | [d1; d2] =>
           is_digit d1 && is_digit d2
           && (StructureValidator.parse_digits [d1; d2] =? n)%nat
       | _ => false
       end)
    (seq 0 100) = true.
Proof. vm_compute. reflexivity. Qed.

(** X4.  The directory name [generateSlug] makes for a topic of module [n],
    a whole number below 100, passes the check of the structure validator
    on topic directories ([/^\d{2}-/]), and the integrity check reads the
    number [n] back from it, whatever slugify makes of the title. *)
Theorem generated_slug_carries_its_number
        {H : Host} (slugify : jsstring -> jsstring) (title : jsstring) (n : nat) :
  (n < 100)%nat ->
  number_to_string (Fin (inject_Z (Z.of_nat n))) = decimal n ->
  test StructureValidator.topic_prefix_re
       (ContentGenerator.generateSlug slugify title (VNum (Fin (inject_Z (Z.of_nat n)))))
  = true
  /\ option_map (fun f => StructureValidator.parse_digits (group 1 f))
       (match_first StructureValidator.topic_number_re
          (ContentGenerator.generateSlug slugify title
             (VNum (Fin (inject_Z (Z.of_nat n))))))
     = Some n.
Proof.
  intros L N. unfold ContentGenerator.generateSlug, to_string. cbv zeta.
  rewrite N. clear N.
  pose proof padded_decimals as P. rewrite forallb_forall in P.
  specialize (P n). rewrite in_seq in P. specialize (P ltac:(lia)).
  destruct (ContentGenerator.padStart 2 48%N (decimal n)) as [|d1 [|d2 [|d3 more]]];
    try discriminate.
  apply andb_true_iff in P. destruct P as [P E].
  apply andb_true_iff in P. destruct P as [D1 D2].
  apply Nat.eqb_eq in E.
  destruct (two_digit_prefix d1 d2 (slugify title) D1 D2) as [T G].
  split; [exact T|].
  change (([d1; d2] ++ utf16 "-" ++ slugify title))
    with (d1 :: d2 :: StructureValidator.hyphen :: slugify title).
  destruct (match_first StructureValidator.topic_number_re
              (d1 :: d2 :: StructureValidator.hyphen :: slugify title)) as [f|];
    [|discriminate].
  cbn [option_map] in *. injection G as G. rewrite G, E. reflexivity.
Qed.

End SlugFacts.

(* ================================================================== *)
(** * The configuration a ConfigManager holds (content-author.js) *)
(* ================================================================== *)

Module ManagerFacts.
Import JS Spec StringFacts.
Local Open Scope js_scope.

(** The parse of an object, field by field. *)
Lemma zparse_object (shape : list (jsstring * schema)) (at_path : list path_item)
      (props : list (jsstring * value)) :
  zparse (ZObject shape) at_path (VObj props)
  = (flat_map (field_issues props at_path) shape,
     VObj (flat_map (field_output props at_path) shape)).
Proof.
  cbn [zparse].
  match goal with
  | |- (let (_, _) := ?each shape in _) = _ =>
      assert (E : each shape = (flat_map (field_issues props at_path) shape,
                                flat_map (field_output props at_path) shape));
      [| rewrite E; reflexivity]
  end.
  induction shape as [|[k sk] shape IH]; [reflexivity|].
  rewrite IH. cbn [flat_map]. unfold field_issues, field_output. cbn [fst snd].
  destruct (zparse sk (at_path ++ [Key k]) (prop k props)) as [e1 x']. cbn [fst snd].
  destruct x'; reflexivity.
Qed.

Lemma conforms_object (shape : list (jsstring * schema)) (props : list (jsstring * value)) :
  conforms (ZObject shape) (VObj props)
  = forallb (fun f => conforms (snd f) (prop (fst f) props)) shape.
Proof.
  cbn [conforms]. induction shape as [|[k sk] shape IH]; [reflexivity|].
  cbn [forallb fst snd]. rewrite <- IH. reflexivity.
Qed.

Lemma distinct_keys_object (shape : list (jsstring * schema)) :
  distinct_keys (ZObject shape) = true ->
  forall k sk rest front, shape = front ++ (k, sk) :: rest ->
    distinct_keys sk = true
    /\ existsb (fun f => str_eqb k (fst f)) rest = false.
Proof.
  intros W k sk rest front ->. cbn [distinct_keys] in W.
  induction front as [|[k0 s0] front IH]; cbn [app] in W.
  - apply andb_true_iff in W. destruct W as [W _].
    apply andb_true_iff in W. destruct W as [N W].
    split; [exact W | now apply negb_true_iff].
  - apply andb_true_iff in W. destruct W as [_ W]. now apply IH.
Qed.

(** The entries of the output carry keys of the shape only. *)
Lemma field_output_keys props at_path (k : jsstring) (fields : list (jsstring * schema)) :
  existsb (fun f => str_eqb k (fst f)) fields = false ->
  assoc k (flat_map (field_output props at_path) fields) = None.
Proof.
  induction fields as [|[k' sk] fields IH]; cbn [existsb flat_map fst]; [reflexivity|].
  intro E. apply orb_false_iff in E. destruct E as [Ne E].
  unfold field_output at 1. cbn [fst snd].
  destruct (snd (zparse sk (at_path ++ [Key k']) (prop k' props)));
    cbn [app assoc]; rewrite ?Ne; now apply IH.
Qed.

Lemma assoc_app_none (k : jsstring) (a b : list (jsstring * value)) :
  assoc k a = None -> assoc k (a ++ b) = assoc k b.
Proof.
  induction a as [|[k' v] a IH]; cbn [app assoc]; [reflexivity|].
  destruct (str_eqb k k'); [discriminate | exact IH].
Qed.

Lemma assoc_app_some (k : jsstring) (a b : list (jsstring * value)) (v : value) :
  assoc k a = Some v -> assoc k (a ++ b) = Some v.
Proof.
  induction a as [|[k' v'] a IH]; cbn [app assoc]; [discriminate|].
  destruct (str_eqb k k'); [trivial | exact IH].
Qed.

(** The items of an array that parse without an issue are as many as came
    in, and each is accepted. *)
Lemma parse_items_output (parse_item : list path_item -> value -> list zod_issue * value)
      (accepts : value -> bool)
      (IH : forall p v, fst (parse_item p v) = [] -> accepts (snd (parse_item p v)) = true)
      (at_path : list path_item) (xs : list value) :
  forall i,
    fst (parse_items parse_item at_path i xs) = [] ->
    forallb accepts (snd (parse_items parse_item at_path i xs)) = true
    /\ List.length (snd (parse_items parse_item at_path i xs)) = List.length xs.
Proof.
  induction xs as [|x xs IHxs]; intro i; cbn [parse_items].
  - intros _. split; reflexivity.
  - specialize (IH (at_path ++ [Index i]) x). specialize (IHxs (S i)).
    destruct (parse_item (at_path ++ [Index i]) x) as [e1 x'].
    destruct (parse_items parse_item at_path (S i) xs) as [e2 rest].
    cbn [fst snd forallb List.length] in *. intro E.
    apply app_eq_nil in E. destruct E as [E1 E2].
    destruct (IHxs E2) as [A L]. rewrite (IH E1), A, L. split; reflexivity.
Qed.

(** What a schema without a repeated key lets through, it hands on
    well-typed: the output of a parse without issues has the type of the
    schema. *)
Lemma zparse_output (sch : schema) :
  distinct_keys sch = true ->
  forall at_path v,
    fst (zparse sch at_path v) = [] ->
    conforms sch (snd (zparse sch at_path v)) = true.
Proof.
  induction sch as [ | positive | options | n item IH | shape IH | inner IH]
    using ConfigFacts.schema_ind_fields; intros W at_path v E.
  - apply (ConfigFacts.zparse_clean ZString) in E.
    destruct v; try discriminate. reflexivity.
  - pose proof E as C. apply (ConfigFacts.zparse_clean (ZNumber positive)) in C.
    destruct v as [ | | | [ | | | q] | | | ]; try discriminate; cbn [zparse] in *;
      destruct (positive && negb _); try discriminate; exact C.
  - pose proof E as C. apply (ConfigFacts.zparse_clean (ZEnum options)) in C.
    destruct v; try discriminate. cbn [zparse] in *.
    destruct (existsb _ options); [exact C | discriminate].
  - destruct v as [ | | | | | items | ]; try discriminate. cbn [zparse] in *.
    pose proof (parse_items_output (zparse item) (conforms item)
                  (fun p v => IH W p v) at_path items 0%nat) as Items.
    destruct (parse_items (zparse item) at_path 0 items) as [es out].
    cbn [fst snd] in *. apply app_eq_nil in E. destruct E as [Short E].
    destruct (Items E) as [A L]. cbn [conforms]. rewrite A, L.
    destruct (Nat.ltb_spec (List.length items) n) as [Lt | Ge]; [discriminate|].
    rewrite andb_true_r. now apply Nat.leb_le.
  - destruct v as [ | | | | | | props]; try discriminate.
    rewrite zparse_object in *. cbn [fst snd] in *.
    rewrite conforms_object.
    (* every field of a suffix of the shape is accepted in the whole output *)
    assert (Suffix : forall front fields,
               shape = front ++ fields ->
               flat_map (field_issues props at_path) fields = [] ->
               forallb (fun f =>
                          conforms (snd f)
                            (prop (fst f)
                               (flat_map (field_output props at_path) front
                                ++ flat_map (field_output props at_path) fields)))
                       fields = true).
    { intros front fields. revert front.
      induction fields as [|[k sk] fields IHf]; intros front S Ef; [reflexivity|].
      cbn [flat_map] in Ef. apply app_eq_nil in Ef. destruct Ef as [Ek Ef].
      destruct (distinct_keys_object shape W k sk fields front S) as [Wk Fresh].
      assert (Front : assoc k (flat_map (field_output props at_path) front) = None).
      { clear - W S.
        assert (G : forall k0 s0 mid,
                   In (k0, s0) mid -> forall pre, shape = pre ++ mid ++ (k, sk) :: fields ->
                   str_eqb k0 k = false).
        { intros k0 s0 mid I. apply in_split in I. destruct I as (m1 & m2 & ->).
          intros pre S'. 
          destruct (distinct_keys_object shape W k0 s0 (m2 ++ (k, sk) :: fields)
                      (pre ++ m1)) as [_ F].
          { rewrite S', <- !app_assoc. reflexivity. }
          rewrite existsb_app in F. apply orb_false_iff in F. destruct F as [_ F].
          cbn [existsb fst] in F. apply orb_false_iff in F. tauto. }
        specialize (fun k0 s0 I => G k0 s0 front I [] S).
        clear S. induction front as [|[k0 s0] front IHfr]; [reflexivity|].
        cbn [flat_map]. unfold field_output at 1. cbn [fst snd].
        assert (Ne : str_eqb k k0 = false).
        { destruct (str_eqb k k0) eqn:Q; [|reflexivity].
          apply str_eqb_eq in Q. subst k0.
          rewrite <- (G k s0 (or_introl eq_refl)). symmetry. apply str_eqb_refl. }
        destruct (snd (zparse s0 (at_path ++ [Key k0]) (prop k0 props)));
          cbn [app assoc]; rewrite ?Ne; apply IHfr; intros; eapply G; right; eassumption. }
      cbn [forallb fst snd]. apply andb_true_iff. split.
      - (* the field itself *)
        unfold prop. rewrite (assoc_app_none _ _ _ Front). cbn [flat_map].
        pose proof (Forall_forall (fun f => distinct_keys (snd f) = true ->
                      forall p v, fst (zparse (snd f) p v) = [] ->
                                  conforms (snd f) (snd (zparse (snd f) p v)) = true)
                      shape) as FA.
        assert (IHk := proj1 FA IH (k, sk)
                         ltac:(rewrite S; apply in_or_app; right; left; reflexivity)
                         Wk (at_path ++ [Key k]) (prop k props) Ek).
        cbn [fst snd] in IHk. unfold field_output at 1. cbn [fst snd].
        pose proof (field_output_keys props at_path k fields Fresh) as Rest.
        destruct (snd (zparse sk (at_path ++ [Key k]) (prop k props))) eqn:Out;
          cbn [app assoc]; rewrite ?str_eqb_refl, ?Rest; exact IHk.
      - (* the fields after it *)
        specialize (IHf (front ++ [(k, sk)])).
        rewrite flat_map_app in IHf. cbn [flat_map] in IHf.
        rewrite app_nil_r, <- !app_assoc in IHf. cbn [flat_map].
        apply IHf; [exact S | exact Ef]. }
    apply (Suffix [] shape eq_refl E).
  - destruct v; cbn [zparse conforms] in *; try reflexivity;
      match goal with
      | |- match snd (zparse inner ?p ?v) with _ => _ end = true =>
          pose proof (IH W p v E) as C;
          destruct (snd (zparse inner p v)); [reflexivity | exact C ..]
      end.
Qed.

Section WithHost.
Context {H : Host}.

(** What a call of [loadConfig] comes to. *)
Lemma loadConfig_result
      (cwd : node) (configPath : jsstring) (st : ContentAuthor.manager) :
  match ContentAuthor.loadConfig cwd configPath st with
  | (Ok v, st') =>
      st' = ContentAuthor.Manager (Some v)
      /\ conforms ContentAuthor.ConfigSchema v = true
  | (Throw e, st') => st' = st /\ ContentAuthor.is_author_error e = true
  end.
Proof.
  unfold ContentAuthor.loadConfig, existsSync, readFile.
  destruct (lookup cwd configPath) as [n|]; cbn [negb];
    [|split; [reflexivity | vm_compute; reflexivity]].
  unfold try_catch, bind, lift, json_parse, ContentAuthor.validateConfig.
  destruct n as [[c|] | l es]; cbn [read_node];
    try (split; [reflexivity | vm_compute; reflexivity]).
  destruct (JSON_parse c) as [message | raw];
    [split; [reflexivity | vm_compute; reflexivity]|].
  rewrite ConfigFacts.schema_parse_conforms.
  destruct (conforms ContentAuthor.ConfigSchema raw) eqn:C;
    [|split; [reflexivity | vm_compute; reflexivity]].
  cbn [modify ret]. split; [reflexivity|].
  apply zparse_output; [vm_compute; reflexivity|].
  now apply ConfigFacts.zparse_clean.
Qed.

(** X5.  [loadConfig] either stores the validated configuration and
    returns it, and then the configuration has the type of the schema and
    [getConfig] returns it; or it throws one of the tool's own errors (a
    ConfigError or a ValidationError, never a bare SyntaxError, ZodError or
    file-system error) and leaves the manager as it was.  A manager that
    has loaded nothing answers [getConfig] with CONFIG_NOT_LOADED. *)
Theorem loadConfig_stores_or_leaves
        (cwd : node) (configPath : jsstring) (st : ContentAuthor.manager) :
  match ContentAuthor.loadConfig cwd configPath st with
  | (Ok v, st') =>
      st' = ContentAuthor.Manager (Some v)
      /\ conforms ContentAuthor.ConfigSchema v = true
      /\ ConfigManager.getConfig st' = (Ok v, st')
  | (Throw e, st') => st' = st /\ ContentAuthor.is_author_error e = true
  end
  /\ ConfigManager.getConfig ContentAuthor.new
     = (Throw (ContentAuthor.ConfigError "CONFIG_NOT_LOADED" []), ContentAuthor.new).
Proof.
  split; [|reflexivity].
  pose proof (loadConfig_result cwd configPath st) as R.
  destruct (ContentAuthor.loadConfig cwd configPath st) as [[v|e] st']; [|exact R].
  destruct R as [-> C]. repeat split; assumption.
Qed.

Lemma conforms_positive (v : value) :
  conforms (ZNumber true) v = true -> positive_threshold v.
Proof.
  destruct v as [ | | | [ | | | q] | | | ]; cbn [conforms]; try discriminate;
    intro P; eexists; split; try reflexivity; exact P.
Qed.


End WithHost.
End ManagerFacts.

(* ================================================================== *)
(** * Invariants of the state monad *)
(* ================================================================== *)

Module InvariantFacts.
Import JS Spec.
Local Open Scope js_scope.

Section Keeping.
Variables (St : Type) (P : St -> Prop).

Lemma keeps_ret {A} (a : A) : keeps P (@ret St A a).
Proof. intros st I. exact I. Qed.

Lemma keeps_throw {A} (e : exn) : keeps P (@throw St A e).
Proof. intros st I. exact I. Qed.

Lemma keeps_lift {A} (o : outcome A) : keeps P (@lift St A o).
Proof. intros st I. exact I. Qed.

Lemma keeps_gets {A} (f : St -> A) : keeps P (gets f).
Proof. intros st I. exact I. Qed.

Lemma keeps_modify (f : St -> St) : (forall st, P st -> P (f st)) -> keeps P (modify f).
Proof. intros F st I. now apply F. Qed.

Lemma keeps_bind {A B} (m : M St A) (f : A -> M St B) :
  keeps P m -> (forall a, keeps P (f a)) -> keeps P (bind m f).
Proof.
  intros Hm Hf st I. unfold bind. specialize (Hm st I).
  destruct (m st) as [[a|e] st1]; cbn [snd] in *; [now apply Hf | exact Hm].
Qed.

Lemma keeps_try_catch {A} (m : M St A) (h : exn -> M St A) :
  keeps P m -> (forall e, keeps P (h e)) -> keeps P (try_catch m h).
Proof.
  intros Hm Hh st I. unfold try_catch. specialize (Hm st I).
  destruct (m st) as [[a|e] st1]; cbn [snd] in *; [exact Hm | now apply Hh].
Qed.

Lemma keeps_when (b : bool) (m : M St unit) : keeps P m -> keeps P (when b m).
Proof. intro Hm. destruct b; [exact Hm | apply keeps_ret]. Qed.

Lemma keeps_if {A} (b : bool) (m1 m2 : M St A) :
  keeps P m1 -> keeps P m2 -> keeps P (if b then m1 else m2).
Proof. now destruct b. Qed.

Lemma keeps_for_each {A} (xs : list A) (body : A -> M St unit) :
  (forall x, keeps P (body x)) -> keeps P (for_each xs body).
Proof.
  intro Hb. induction xs as [|x xs IH]; cbn [for_each].
  - apply keeps_ret.
  - apply keeps_bind; [apply Hb | intros _; exact IH].
Qed.

End Keeping.

(** An invariant follows the shape of an action, read off its head; [leaf]
    closes what is specific to a script. *)
Ltac keep_step leaf :=
  lazymatch goal with
  | |- keeps _ (ret _) => apply keeps_ret
  | |- keeps _ (lift _) => apply keeps_lift
  | |- keeps _ (gets _) => apply keeps_gets
  | |- keeps _ (throw _) => apply keeps_throw
  | |- keeps _ (when _ _) => apply keeps_when
  | |- keeps _ (for_each _ _) => apply keeps_for_each; intro
  | |- keeps _ (bind _ _) => apply keeps_bind; [|intro]
  | |- keeps _ (try_catch _ _) => apply keeps_try_catch; [|intro]
  | |- keeps _ (if _ then _ else _) => apply keeps_if
  | |- keeps _ (match ?x with _ => _ end) => destruct x
  | |- keeps _ (let _ := _ in _) => cbv zeta
  | |- _ => leaf
  end.

Ltac keep_with leaf := repeat (keep_step leaf).

End InvariantFacts.

(* ================================================================== *)
(** * The counters of the content checker (content-checker.js) *)
(* ================================================================== *)

Module CounterFacts.
Import JS Spec InvariantFacts ContentChecker.
Local Open Scope js_scope.

Lemma counted_addIssue f m : keeps counted (addIssue f m).
Proof.
  apply keeps_modify. intros [found warned [t c i w]] [I W]. unfold counted. cbn in *. split; [|exact W].
  rewrite length_app. cbn [List.length]. lia.
Qed.

Lemma counted_addWarning f m : keeps counted (addWarning f m).
Proof.
  apply keeps_modify. intros [found warned [t c i w]] [I W]. unfold counted. cbn in *. split; [exact I|].
  rewrite length_app. cbn [List.length]. lia.
Qed.

Lemma counted_for_each_indexed {A} (xs : list A) (body : A -> nat -> M checker unit) :
  (forall x i, keeps counted (body x i)) -> forall i, keeps counted (for_each_indexed i xs body).
Proof.
  intro Hb. induction xs as [|x xs IH]; intro i; cbn [for_each_indexed].
  - apply keeps_ret.
  - apply keeps_bind; [apply Hb | intros _; apply IH].
Qed.

Ltac counted_leaf :=
  idtac;
  lazymatch goal with
  | |- keeps _ (addIssue _ _) => apply counted_addIssue
  | |- keeps _ (addWarning _ _) => apply counted_addWarning
  | |- keeps _ (for_each_indexed _ _ _) => apply counted_for_each_indexed; intros
  end.

Section WithHost.
Context {H : Host}.

Lemma counted_checkFile cwd p entry : keeps counted (checkFile cwd p entry).
Proof.
  unfold checkFile, checkFrontmatter, checkContent, checkStructure, checkCodeExamples,
    checkLinks.
  keep_with counted_leaf.
Qed.

(** A check of one file leaves the file counters alone. *)
Lemma checkFile_file_counters cwd p entry (t k : nat) :
  keeps (fun c => totalFiles (stats c) = t /\ checkedFiles (stats c) = k)
        (checkFile cwd p entry).
Proof.
  assert (I : forall f m, keeps (fun c => totalFiles (stats c) = t /\ checkedFiles (stats c) = k)
                                (addIssue f m))
    by (intros f m; apply keeps_modify; intros [found warned [t0 c0 i w]] E; exact E).
  assert (W : forall f m, keeps (fun c => totalFiles (stats c) = t /\ checkedFiles (stats c) = k)
                                (addWarning f m))
    by (intros f m; apply keeps_modify; intros [found warned [t0 c0 i w]] E; exact E).
  assert (X : forall A (xs : list A) (body : A -> nat -> M checker unit),
             (forall x i, keeps (fun c => totalFiles (stats c) = t /\ checkedFiles (stats c) = k)
                                (body x i)) ->
             forall i, keeps (fun c => totalFiles (stats c) = t /\ checkedFiles (stats c) = k)
                             (for_each_indexed i xs body)).
  { intros A xs body Hb. induction xs as [|x xs IH]; intro i; cbn [for_each_indexed].
    - apply keeps_ret.
    - apply keeps_bind; [apply Hb | intros _; apply IH]. }
  unfold checkFile, checkFrontmatter, checkContent, checkStructure, checkCodeExamples,
    checkLinks.
  keep_with ltac:(idtac;
                  lazymatch goal with
                  | |- keeps _ (addIssue _ _) => apply I
                  | |- keeps _ (addWarning _ _) => apply W
                  | |- keeps _ (for_each_indexed _ _ _) => apply X; intros
                  end).
Qed.

(** The loop of [run] over the files found: it runs to its end, counts
    each file, and keeps the counters of the findings right. *)
Lemma check_loop cwd (files : list (jsstring * node)) :
  forall st,
    exists st',
      for_each files (fun f => checkFile cwd (fst f) (snd f) ;; count_checked) st
      = (Ok tt, st')
      /\ totalFiles (stats st') = totalFiles (stats st)
      /\ checkedFiles (stats st') = (checkedFiles (stats st) + List.length files)%nat
      /\ (counted st -> counted st').
Proof.
  induction files as [|f files IH]; intro st; cbn [for_each List.length].
  - exists st. split; [reflexivity|]. split; [reflexivity|]. split; [lia | trivial].
  - unfold bind at 1. unfold bind at 1.
    pose proof (counted_checkFile cwd (fst f) (snd f) st) as C.
    pose proof (checkFile_file_counters cwd (fst f) (snd f) _ _ st (conj eq_refl eq_refl))
      as [T K].
    destruct (CheckerFacts.returns_checkFile cwd (fst f) (snd f) st) as [[] [st1 E]].
    rewrite E in *. cbn [snd] in *. unfold count_checked at 1, modify at 1.
    match goal with |- context [for_each files _ ?s2] => destruct (IH s2) as (st' & R & T' & K' & C') end.
    exists st'. rewrite R. cbn [stats totalFiles checkedFiles] in *.
    split; [reflexivity|]. split; [congruence|]. split; [lia|].
    intro I. apply C'. specialize (C I). destruct C as [Ci Cw].
    split; cbn; assumption.
Qed.

(** The [try] block of [run] once the files are found. *)
Lemma run_body_counts (cwd n : node) (files : list (jsstring * node)) :
  lookup cwd (utf16 "content") = Some n ->
  findMarkdownFiles (utf16 "content") n = Ok files ->
  exists code c,
    run_body cwd new = (Ok code, c)
    /\ counted c
    /\ totalFiles (stats c) = List.length files
    /\ checkedFiles (stats c) = List.length files.
Proof.
  intros L F. unfold run_body. rewrite L, F.
  unfold bind at 1. unfold lift at 1. unfold bind at 1.
  unfold set_totalFiles at 1, modify at 1. unfold bind at 1.
  match goal with
  | |- context [for_each files _ ?s0] =>
      destruct (check_loop cwd files s0) as (st' & R & T & K & C)
  end.
  rewrite R. unfold bind, gets, ret.
  cbn [stats totalFiles checkedFiles new] in T, K.
  eexists _, st'. split; [reflexivity|].
  split; [apply C; split; reflexivity|]. split; [exact T | exact K].
Qed.

(** X7.  After a run of the content checker, however it ended, the
    counters it prints agree with what it recorded: [stats.issues] is the
    number of the issues, [stats.warnings] the number of the warnings, and
    every file found was checked ([stats.checkedFiles = stats.totalFiles]),
    which is the number of the Markdown files under [content] when that
    directory could be scanned, and zero when it could not. *)
Theorem checker_counters_agree (cwd : node) :
  counted (snd (run cwd))
  /\ checkedFiles (stats (snd (run cwd))) = totalFiles (stats (snd (run cwd)))
  /\ totalFiles (stats (snd (run cwd)))
     = match lookup cwd (utf16 "content") with
       | Some n =>
           match findMarkdownFiles (utf16 "content") n with
           | Ok files => List.length files
           | Throw _ => 0%nat
           end
       | None => 0%nat
       end.
Proof.
  unfold run, existsSync.
  destruct (lookup cwd (utf16 "content")) as [n|] eqn:L; cbn [negb];
    [|repeat split; reflexivity].
  destruct (findMarkdownFiles (utf16 "content") n) as [files | e] eqn:F.
  - destruct (run_body_counts cwd n files L F) as (code & c & -> & C & T & K).
    cbn [snd]. split; [exact C|]. split; [congruence | exact T].
  - unfold run_body. rewrite L, F. repeat split; reflexivity.
Qed.

End WithHost.
End CounterFacts.

(* ================================================================== *)
(** * Paths of directory entries *)
(* ================================================================== *)

Module PathFacts.
Import JS Spec StringFacts.

Lemma entry_name_parts (name : jsstring) :
  is_entry_name name = true ->
  str_eqb name [] = false
  /\ forallb (fun c => negb (char_eqb c slash)) name = true
  /\ str_eqb name dot = false /\ str_eqb name dotdot = false.
Proof.
  unfold is_entry_name. rewrite !andb_true_iff, !negb_true_iff. tauto.
Qed.

Lemma split_char_no_slash (name : jsstring) :
  forallb (fun c => negb (char_eqb c slash)) name = true ->
  split_char slash name = [name].
Proof.
  induction name as [|x name IH]; cbn [forallb split_char]; [reflexivity|].
  rewrite andb_true_iff, negb_true_iff. intros [X N].
  rewrite X, (IH N). reflexivity.
Qed.

Lemma split_char_segment (a b : jsstring) :
  forallb (fun c => negb (char_eqb c slash)) a = true ->
  split_char slash (a ++ slash :: b) = a :: split_char slash b.
Proof.
  induction a as [|x a IH]; cbn [forallb app split_char].
  - intros _. reflexivity.
  - rewrite andb_true_iff, negb_true_iff. intros [X N].
    rewrite X, (IH N). reflexivity.
Qed.

Lemma rev_head_in (name : jsstring) :
  str_eqb name [] = false -> exists c r, rev name = c :: r /\ In c name.
Proof.
  intro N. destruct (rev name) as [|c r] eqn:R.
  - apply (f_equal (@rev char)) in R. rewrite rev_involutive in R. subst. discriminate.
  - exists c, r. split; [reflexivity|]. apply in_rev. rewrite R. now left.
Qed.

Lemma endsWith_entry (front name : jsstring) :
  is_entry_name name = true -> endsWith [slash] (front ++ name) = false.
Proof.
  intro E. destruct (entry_name_parts name E) as (N & S & _ & _).
  destruct (rev_head_in name N) as (c & r & R & I).
  unfold endsWith. rewrite rev_app_distr, R. cbn [rev app startsWith].
  rewrite forallb_forall in S. specialize (S c I). apply negb_true_iff in S.
  unfold char_eqb in *. rewrite N.eqb_sym, S. reflexivity.
Qed.

Lemma normalize_content (name : jsstring) :
  is_entry_name name = true ->
  normalize (utf16 "content/" ++ name) = utf16 "content/" ++ name.
Proof.
  intro E. destruct (entry_name_parts name E) as (N & S & D & DD).
  assert (P : utf16 "content/" ++ name = 99%N :: (utf16 "ontent/" ++ name))
    by reflexivity.
  assert (T : endsWith [slash] (99%N :: (utf16 "ontent/" ++ name)) = false)
    by (rewrite <- P; apply endsWith_entry; exact E).
  assert (Sp : split_char slash (99%N :: (utf16 "ontent/" ++ name))
               = [utf16 "content"; name]).
  { change (99%N :: (utf16 "ontent/" ++ name)) with (utf16 "content" ++ slash :: name).
    rewrite split_char_segment by reflexivity.
    now rewrite (split_char_no_slash name S). }
  rewrite P. unfold normalize. rewrite T, Sp.
  change (char_eqb 99%N slash) with false. cbn [negb normalize_segments].
  change (str_eqb (utf16 "content") [] || str_eqb (utf16 "content") dot) with false.
  change (str_eqb (utf16 "content") dotdot) with false.
  cbv iota. rewrite N, D, DD. cbn [orb rev app join].
  change (utf16 "content" ++ [slash] ++ name) with (99%N :: (utf16 "ontent/" ++ name)).
  cbv iota. rewrite app_nil_r. reflexivity.
Qed.

(** [join('content', name)] for the name of an entry. *)
Lemma path_join_content (name : jsstring) :
  is_entry_name name = true ->
  path_join [utf16 "content"; name] = utf16 "content/" ++ name.
Proof.
  intro E. destruct (entry_name_parts name E) as (N & S & D & DD).
  unfold path_join. cbn [filter].
  change (str_eqb (utf16 "content") []) with false. rewrite N. cbn [negb join].
  change (utf16 "content" ++ [slash] ++ name) with (utf16 "content/" ++ name).
  assert (P : utf16 "content/" ++ name = 99%N :: (utf16 "ontent/" ++ name))
    by reflexivity.
  rewrite <- (normalize_content name E) at 2. rewrite P. reflexivity.
Qed.

Lemma drop_to_slash_app (a b : jsstring) :
  forallb (fun c => negb (char_eqb c slash)) a = true ->
  drop_to_slash (a ++ slash :: b) = slash :: b.
Proof.
  induction a as [|x a IH]; cbn [forallb app drop_to_slash].
  - intros _. reflexivity.
  - rewrite andb_true_iff, negb_true_iff. intros [X N]. rewrite X. now apply IH.
Qed.

(** [dirname('content/' + name)] is [content]. *)
Lemma dirname_content (name : jsstring) :
  is_entry_name name = true -> dirname (utf16 "content/" ++ name) = utf16 "content".
Proof.
  intro E. destruct (entry_name_parts name E) as (N & S & _ & _).
  destruct (rev_head_in name N) as (c & r & R & I).
  change (utf16 "content/" ++ name) with (99%N :: (utf16 "ontent" ++ slash :: name)).
  unfold dirname.
  rewrite rev_app_distr. cbn [rev]. rewrite <- app_assoc. cbn [app].
  assert (Sr : forallb (fun c => negb (char_eqb c slash)) (rev name) = true).
  { rewrite forallb_forall in *. intros x Ix. apply S. now apply in_rev. }
  rewrite R in *. cbn [app strip_trailing_slashes].
  cbn [forallb] in Sr. apply andb_true_iff in Sr. destruct Sr as [Sc Sr'].
  apply negb_true_iff in Sc. rewrite Sc.
  change (c :: r ++ slash :: rev (utf16 "ontent")) with ((c :: r) ++ slash :: rev (utf16 "ontent")).
  rewrite drop_to_slash_app by (cbn [forallb]; rewrite Sc, Sr'; reflexivity).
  reflexivity.
Qed.

(** The slug [scanCategory] derives from the path of a category directory
    is the name of the content directory, not the name of the category. *)
Lemma category_slug_is_content (name : jsstring) :
  is_entry_name name = true ->
  ContentBuilder.pop (split_char slash (dirname (path_join [utf16 "content"; name])))
  = utf16 "content".
Proof.
  intro E. rewrite (path_join_content name E), (dirname_content name E). reflexivity.
Qed.

End PathFacts.

(* ================================================================== *)
(** * The categories of a build (content-builder.js) *)
(* ================================================================== *)

Module CategoryFacts.
Import JS Spec StringFacts InvariantFacts PathFacts ContentBuilder.
Local Open Scope js_scope.

Lemma keeps_bind_gets {St A B} (P : St -> Prop) (f : St -> A) (k : A -> M St B) :
  (forall s0, P s0 -> keeps P (k (f s0))) -> keeps P (bind (gets f) k).
Proof. intros Hk st I. unfold bind, gets. exact (Hk st I st I). Qed.

Lemma keeps_for_each_in {St A} (P : St -> Prop) (xs : list A) (body : A -> M St unit) :
  (forall x, In x xs -> keeps P (body x)) -> keeps P (for_each xs body).
Proof.
  induction xs as [|x xs IH]; intro Hb; cbn [for_each].
  - apply keeps_ret.
  - apply keeps_bind.
    + apply Hb. now left.
    + intros _. apply IH. intros y I. apply Hb. now right.
Qed.

Lemma prop_set_prop_other (k k' : jsstring) (v : value) (props : list (jsstring * value)) :
  str_eqb k k' = false -> prop k (set_prop k' v props) = prop k props.
Proof.
  intro Ne. unfold prop. induction props as [|[k0 v0] props IH]; cbn [set_prop assoc].
  - now rewrite Ne.
  - destruct (str_eqb k' k0) eqn:E; cbn [assoc].
    + apply str_eqb_eq in E. subst k0. now rewrite Ne.
    + destruct (str_eqb k k0); [reflexivity | exact IH].
Qed.

(** The record of a topic carries the slug it was scanned under as its
    category, whatever its front matter says. *)
Lemma topic_value_category (frontmatter : value) (categorySlug markdown : jsstring) :
  field "category" (topic_value frontmatter categorySlug markdown) = VStr categorySlug.
Proof.
  unfold topic_value, field, spread. cbn [fold_left fst snd].
  rewrite prop_set_prop_other by reflexivity.
  rewrite prop_set_prop_other by reflexivity.
  apply BuilderFacts.prop_set_prop.
Qed.

Lemma map_set_single (k : jsstring) (v : value) (cs : list (jsstring * value)) :
  (List.length cs <= 1)%nat -> Forall (fun e => fst e = k) cs ->
  (List.length (map_set k v cs) <= 1)%nat /\ Forall (fun e => fst e = k) (map_set k v cs).
Proof.
  intros L F. destruct cs as [|[k' v'] [|more]]; cbn [List.length] in L; try lia.
  - cbn. split; [lia | repeat constructor].
  - inversion F as [|? ? E _]. cbn [fst] in E. subst.
    cbn [map_set]. rewrite str_eqb_refl. cbn. split; [lia | repeat constructor].
Qed.

Lemma only_content_set_categories (s0 : builder) (v : value) :
  only_content s0 ->
  keeps only_content (set_categories (map_set (utf16 "content") v (categories s0))).
Proof.
  intros (L0 & K0 & _). apply keeps_modify. intros st (_ & _ & T).
  destruct (map_set_single (utf16 "content") v (categories s0) L0 K0) as [L K].
  split; [exact L|]. split; [exact K | exact T].
Qed.

Lemma only_content_push_topic (frontmatter : value) (markdown : jsstring) :
  keeps only_content (push_topic (topic_value frontmatter (utf16 "content") markdown)).
Proof.
  apply keeps_modify. intros st (L & K & T).
  split; [exact L|]. split; [exact K|]. cbn [topics].
  apply Forall_app. split; [exact T|]. constructor; [|constructor].
  apply topic_value_category.
Qed.

Lemma only_content_update_stats (f : counters -> counters) :
  keeps only_content (update_stats f).
Proof. apply keeps_modify. intros st I. exact I. Qed.

Lemma only_content_writeFile (path bytes : jsstring) :
  keeps only_content (writeFile path bytes).
Proof. apply keeps_modify. intros st I. exact I. Qed.

Ltac content_leaf :=
  idtac;
  lazymatch goal with
  | |- keeps _ (push_topic _) => apply only_content_push_topic
  | |- keeps _ (update_stats _) => apply only_content_update_stats
  | |- keeps _ (writeFile _ _) => apply only_content_writeFile
  | |- keeps _ (set_categories _) => apply only_content_set_categories; assumption
  end.

Ltac content_step :=
  lazymatch goal with
  | |- keeps _ (bind (gets _) _) => apply keeps_bind_gets; intros ? ?
  | |- _ => keep_step content_leaf
  end.

Section WithHost.
Context {H : Host}.

Lemma only_content_scanTopic (n : node) :
  keeps only_content (scanTopic n (utf16 "content")).
Proof. unfold scanTopic. repeat content_step. Qed.

Lemma only_content_scanCategory (name : jsstring) (n : node) :
  is_entry_name name = true ->
  keeps only_content (scanCategory (path_join [utf16 "content"; name]) n).
Proof.
  intro E. unfold scanCategory. cbv zeta. rewrite (category_slug_is_content name E).
  content_step.
  - destruct (walk n [utf16 "index.md"]); repeat content_step.
  - repeat content_step. apply only_content_scanTopic.
Qed.

Lemma keeps_bind_lift {St A B} (P : St -> Prop) (o : outcome A) (k : A -> M St B) :
  (forall a, o = Ok a -> keeps P (k a)) -> keeps P (bind (lift o) k).
Proof.
  intros Hk st I. unfold bind, lift. destruct o as [a|e]; [|exact I].
  exact (Hk a eq_refl st I).
Qed.

Lemma only_content_scanContent (cwd : node) :
  named_content cwd = true -> keeps only_content (scanContent cwd).
Proof.
  unfold named_content, scanContent, existsSync, readdir. cbv zeta.
  destruct (lookup cwd (utf16 "content")) as [n|]; intro E; cbn [negb];
    [|apply keeps_throw].
  apply keeps_bind_lift. intros categoryDirs L.
  destruct n as [c | [|] entries]; try discriminate.
  injection L as <-. cbn [entry_names] in E. rewrite forallb_forall in E.
  apply keeps_for_each_in. intros dir I.
  destruct (isDirectory (snd dir)); [|apply keeps_ret].
  apply only_content_scanCategory. now apply E.
Qed.

Lemma only_content_generateOutput : keeps only_content generateOutput.
Proof. unfold generateOutput. repeat content_step. Qed.

Lemma only_content_generateIndexes : keeps only_content generateIndexes.
Proof. unfold generateIndexes. repeat content_step. Qed.

Lemma only_content_generateManifest now config :
  keeps only_content (generateManifest now config).
Proof. unfold generateManifest. repeat content_step. Qed.

Lemma only_content_loadConfig (cwd : node) : keeps only_content (loadConfig cwd).
Proof. unfold loadConfig. cbv zeta. repeat content_step. Qed.

Lemma only_content_new : only_content new.
Proof. split; [cbn; lia|]. split; constructor. Qed.

(** X8.  The builder files every category and every topic under the slug
    [content]: the slug it derives from the path [content/<name>] of a
    category directory is the directory part of that path, not its last
    segment.  So after a run, however it ended, the builder holds at most
    one category, keyed [content] (each category index replaces the one
    before it), and every topic record carries [content] as its category,
    whatever the directory it was found in and whatever its front matter
    says. *)
Theorem builder_files_everything_under_content (cwd : node) (now : jsstring) :
  named_content cwd = true ->
  (forall name, is_entry_name name = true ->
     pop (split_char slash (dirname (path_join [utf16 "content"; name])))
     = utf16 "content")
  /\ only_content (snd (run cwd now)).
Proof.
  intro E. split; [exact category_slug_is_content|].
  assert (K : keeps only_content (config <- build cwd ;; generateManifest now config)).
  { unfold build. apply keeps_bind; [|intro; apply only_content_generateManifest].
    apply keeps_bind; [apply only_content_loadConfig | intro].
    apply keeps_bind; [now apply only_content_scanContent | intro].
    apply keeps_bind; [apply only_content_generateOutput | intro].
    apply keeps_bind; [apply only_content_generateIndexes | intro].
    apply keeps_ret. }
  specialize (K new only_content_new). unfold run.
  destruct ((config <- build cwd ;; generateManifest now config) new) as [[u|e] b];
    exact K.
Qed.

End WithHost.
End CategoryFacts.

(* ================================================================== *)
(** * The counters and the files of a build (content-builder.js) *)
(* ================================================================== *)

Module TallyFacts.
Import JS Spec StringFacts InvariantFacts CategoryFacts ContentBuilder.
Local Open Scope js_scope.

Section Handing.
Variables (St : Type) (P : St -> Prop).

Lemma hands_on_keeps {A} (m : M St A) : keeps P m -> hands_on P m.
Proof. intros K st I a st' E. specialize (K st I). now rewrite E in K. Qed.

Lemma hands_on_bind {A B} (m : M St A) (f : A -> M St B) :
  hands_on P m -> (forall a, hands_on P (f a)) -> hands_on P (bind m f).
Proof.
  intros Hm Hf st I b st2 E. unfold bind in E.
  destruct (m st) as [[a|e] st1] eqn:Em; [|discriminate].
  exact (Hf a st1 (Hm st I a st1 Em) b st2 E).
Qed.

Lemma hands_on_for_each {A} (xs : list A) (body : A -> M St unit) :
  (forall x, hands_on P (body x)) -> hands_on P (for_each xs body).
Proof.
  intro Hb. induction xs as [|x xs IH]; cbn [for_each].
  - apply hands_on_keeps, keeps_ret.
  - apply hands_on_bind; [apply Hb | intros _; exact IH].
Qed.

End Handing.

(** A loop of writes appends one file for each item. *)
Lemma for_each_writeFile {A} (xs : list A) (path bytes : A -> jsstring) :
  forall b,
    for_each xs (fun x => writeFile (path x) (bytes x)) b
    = (Ok tt, Builder (categories b) (topics b) (stats b)
                (written b ++ List.map (fun x => (path x, bytes x)) xs)).
Proof.
  induction xs as [|x xs IH]; intro b; cbn [for_each List.map].
  - unfold ret. rewrite app_nil_r. now destruct b.
  - unfold bind, writeFile at 1, modify. rewrite IH. cbn [categories topics stats written].
    now rewrite <- app_assoc.
Qed.

Lemma field_content (frontmatter : value) (categorySlug markdown : jsstring) :
  examples_of (topic_value frontmatter categorySlug markdown)
  = List.length (examples (parseMarkdown markdown))
  /\ exercises_of (topic_value frontmatter categorySlug markdown)
     = List.length (exercises (parseMarkdown markdown)).
Proof.
  unfold examples_of, exercises_of, topic_value, field at 2 4, spread.
  cbn [fold_left fst snd].
  rewrite prop_set_prop_other by reflexivity.
  rewrite BuilderFacts.prop_set_prop.
  cbn. rewrite !length_map. split; reflexivity.
Qed.

Section WithHost.
Context {H : Host}.

(** What a scan of a topic that returns has done to the topics and to the
    counters. *)
Lemma scanTopic_returned (n : node) (categorySlug : jsstring) (st st' : builder) :
  scanTopic n categorySlug st = (Ok tt, st') ->
  (topics st' = topics st /\ stats st' = stats st)
  \/ exists frontmatter markdown,
       topics st' = topics st ++ [topic_value frontmatter categorySlug markdown]
       /\ stats st'
          = Counters (category_count (stats st)) (S (topic_count (stats st)))
              (exercise_count (stats st)
               + List.length (exercises (parseMarkdown markdown)))
              (example_count (stats st)
               + List.length (examples (parseMarkdown markdown))).
Proof.
  unfold scanTopic. destruct (walk n [utf16 "topic.md"]) as [file|];
    [|intro E; injection E as <-; left; split; reflexivity].
  unfold bind at 1, lift at 1. destruct (read_node file) as [content|e]; [|discriminate].
  unfold bind at 1, lift at 1. destruct (matter content) as [[frontmatter markdown]|e];
    [|discriminate].
  cbv zeta. cbn [fst snd].
  unfold bind at 1, push_topic at 1, modify at 1.
  set (s1 := Builder (categories st)
               (topics st ++ [topic_value frontmatter categorySlug markdown])
               (stats st) (written st)).
  unfold bind at 1, gets at 1. intro E.
  apply MonadFacts.bind_returned in E. destruct E as (u & s2 & E & U).
  assert (K : keeps (fun b => topics b = topics s1 /\ stats b = stats s1)
                (match assoc categorySlug (categories s1) with
                 | Some category =>
                     slug <- lift (get frontmatter (utf16 "slug")) ;;
                     title <- lift (get frontmatter (utf16 "title")) ;;
                     module <- lift (get frontmatter (utf16 "module")) ;;
                     category' <- lift (push_category_topic category
                                          (VObj [(utf16 "slug", slug);
                                                 (utf16 "title", title);
                                                 (utf16 "module", module)])) ;;
                     set_categories (map_set categorySlug category' (categories s1))
                 | None => ret tt
                 end)).
  { keep_with ltac:(idtac;
                    lazymatch goal with
                    | |- keeps _ (set_categories _) =>
                        apply keeps_modify; intros ? I; exact I
                    end). }
  specialize (K s1 (conj eq_refl eq_refl)). rewrite E in K. cbn [snd] in K.
  destruct K as [T S].
  unfold update_stats, modify in U. injection U as <-.
  right. exists frontmatter, markdown. cbn [topics stats].
  rewrite T, S. split; reflexivity.
Qed.

Lemma tallied_scanTopic (n : node) (categorySlug : jsstring) :
  hands_on tallied (scanTopic n categorySlug).
Proof.
  intros st (T & X & R) [] st' E.
  destruct (scanTopic_returned n categorySlug st st' E)
    as [[Et Es] | (frontmatter & markdown & Et & Es)].
  - unfold tallied. rewrite Et, Es. repeat split; assumption.
  - destruct (field_content frontmatter categorySlug markdown) as [Fx Fr].
    unfold tallied. rewrite Et, Es. cbn [topic_count example_count exercise_count].
    rewrite length_app, !map_app, !list_sum_app. cbn [List.length List.map list_sum].
    rewrite Fx, Fr. cbn [list_sum fold_right]. repeat split; lia.
Qed.

Lemma tallied_frame (m : M builder unit) :
  (forall st, topics (snd (m st)) = topics st
              /\ topic_count (stats (snd (m st))) = topic_count (stats st)
              /\ example_count (stats (snd (m st))) = example_count (stats st)
              /\ exercise_count (stats (snd (m st))) = exercise_count (stats st)) ->
  keeps tallied m.
Proof.
  intros F st (T & X & R). destruct (F st) as (Et & E1 & E2 & E3).
  unfold tallied. rewrite Et, E1, E2, E3. repeat split; assumption.
Qed.

Ltac tally_leaf :=
  idtac;
  lazymatch goal with
  | |- hands_on _ (scanTopic _ _) => apply tallied_scanTopic
  | |- hands_on _ (set_categories _) =>
      apply hands_on_keeps, tallied_frame; intro; repeat split; reflexivity
  | |- hands_on _ (update_stats _) =>
      apply hands_on_keeps, tallied_frame; intro; repeat split; reflexivity
  | |- hands_on _ (writeFile _ _) =>
      apply hands_on_keeps, tallied_frame; intro; repeat split; reflexivity
  | |- hands_on _ (ret _) => apply hands_on_keeps, keeps_ret
  | |- hands_on _ (lift _) => apply hands_on_keeps, keeps_lift
  | |- hands_on _ (gets _) => apply hands_on_keeps, keeps_gets
  | |- hands_on _ (throw _) => apply hands_on_keeps, keeps_throw
  | |- hands_on _ (for_each _ _) => apply hands_on_for_each; intro
  | |- hands_on _ (bind _ _) => apply hands_on_bind; [|intro]
  | |- hands_on _ (if _ then _ else _) => 
      match goal with |- hands_on _ (if ?b then _ else _) => destruct b end
  | |- hands_on _ (match ?x with _ => _ end) => destruct x
  | |- hands_on _ (let _ := _ in _) => cbv zeta
  end.

Lemma tallied_scanContent (cwd : node) : hands_on tallied (scanContent cwd).
Proof. unfold scanContent, scanCategory. repeat tally_leaf. Qed.

Lemma tallied_build (cwd : node) : hands_on tallied (build cwd).
Proof.
  unfold build, loadConfig, generateOutput, generateIndexes.
  apply hands_on_bind; [repeat tally_leaf | intro].
  apply hands_on_bind; [apply tallied_scanContent | intro].
  repeat tally_leaf.
Qed.

Ltac frame_leaf :=
  idtac;
  lazymatch goal with
  | |- keeps _ (set_categories _) => apply keeps_modify; intros ? I; exact I
  | |- keeps _ (update_stats _) => apply keeps_modify; intros ? I; exact I
  | |- keeps _ (push_topic _) => apply keeps_modify; intros ? I; exact I
  end.

(** Scanning writes no file. *)
Lemma written_scanContent (cwd : node) (files : list (jsstring * jsstring)) :
  keeps (fun b => written b = files) (scanContent cwd).
Proof. unfold scanContent, scanCategory, scanTopic. keep_with frame_leaf. Qed.

Lemma written_loadConfig (cwd : node) (files : list (jsstring * jsstring)) :
  keeps (fun b => written b = files) (loadConfig cwd).
Proof. unfold loadConfig. keep_with frame_leaf. Qed.

(** [generateOutput] writes one file for each topic record and one for
    each category, and changes nothing else. *)
Lemma generateOutput_writes (b : builder) :
  exists files,
    generateOutput b
    = (Ok tt, Builder (categories b) (topics b) (stats b) (written b ++ files))
    /\ List.length files
       = (List.length (topics b) + List.length (categories b))%nat.
Proof.
  unfold generateOutput. cbv zeta.
  unfold bind at 1, gets at 1. unfold bind at 1.
  rewrite (for_each_writeFile (topics b)
             (fun topic =>
                path_join [outputDir; utf16 "topics"; to_string (field "category" topic);
                           to_string (field "slug" topic) ++ utf16 ".json"])
             (fun topic => JSON_stringify topic)).
  unfold bind at 1, gets at 1. cbn [categories].
  rewrite (for_each_writeFile (categories b)
             (fun entry => path_join [outputDir; utf16 "categories";
                                      fst entry ++ utf16 ".yaml"])
             (fun entry => yaml_stringify (snd entry))).
  cbn [categories topics stats written]. rewrite <- app_assoc.
  eexists. split; [reflexivity|]. rewrite length_app, !length_map. reflexivity.
Qed.

(** [generateIndexes], where it returns, has written the two indexes and
    changed nothing else. *)
Lemma generateIndexes_writes (b b' : builder) :
  generateIndexes b = (Ok tt, b') ->
  exists topicsIndex categoriesIndex,
    b' = Builder (categories b) (topics b) (stats b)
           (written b ++ [topicsIndex; categoriesIndex]).
Proof.
  unfold generateIndexes. cbv zeta.
  unfold bind at 1, gets at 1. unfold bind at 1, writeFile at 1, modify at 1.
  unfold bind at 1, gets at 1. cbn [categories].
  unfold bind at 1, lift at 1.
  match goal with
  | |- context [match ?o with Ok _ => _ | Throw _ => _ end] => destruct o as [index|e]
  end; [|discriminate].
  unfold writeFile, modify. intro E. injection E as <-.
  cbn [categories topics stats written]. rewrite <- app_assoc.
  eexists _, _. reflexivity.
Qed.


End WithHost.
End TallyFacts.

(* ================================================================== *)
(** * The checks of one file contain their failures *)
(* ================================================================== *)

Module ContainmentFacts.
Import JS Spec MonadFacts.
Local Open Scope js_scope.

Section Following.
Variables (St : Type) (R : St -> St -> Prop).
Hypothesis R_refl : forall st, R st st.
Hypothesis R_trans : forall a b c, R a b -> R b c -> R a c.

Lemma follows_ret {A} (a : A) : follows R (@ret St A a).
Proof. intro st. apply R_refl. Qed.

Lemma follows_throw {A} (e : exn) : follows R (@throw St A e).
Proof. intro st. apply R_refl. Qed.

Lemma follows_lift {A} (o : outcome A) : follows R (@lift St A o).
Proof. intro st. apply R_refl. Qed.

Lemma follows_gets {A} (f : St -> A) : follows R (gets f).
Proof. intro st. apply R_refl. Qed.

Lemma follows_bind {A B} (m : M St A) (f : A -> M St B) :
  follows R m -> (forall a, follows R (f a)) -> follows R (bind m f).
Proof.
  intros Hm Hf st. unfold bind. specialize (Hm st).
  destruct (m st) as [[a|e] st1]; cbn [snd] in *; [|exact Hm].
  exact (R_trans _ _ _ Hm (Hf a st1)).
Qed.

Lemma follows_try_catch {A} (m : M St A) (h : exn -> M St A) :
  follows R m -> (forall e, follows R (h e)) -> follows R (try_catch m h).
Proof.
  intros Hm Hh st. unfold try_catch. specialize (Hm st).
  destruct (m st) as [[a|e] st1]; cbn [snd] in *; [exact Hm|].
  exact (R_trans _ _ _ Hm (Hh e st1)).
Qed.

Lemma follows_when (b : bool) (m : M St unit) : follows R m -> follows R (when b m).
Proof. intro Hm. destruct b; [exact Hm | apply follows_ret]. Qed.

Lemma follows_if {A} (b : bool) (m1 m2 : M St A) :
  follows R m1 -> follows R m2 -> follows R (if b then m1 else m2).
Proof. now destruct b. Qed.

Lemma follows_for_each {A} (xs : list A) (body : A -> M St unit) :
  (forall x, follows R (body x)) -> follows R (for_each xs body).
Proof.
  intro Hb. induction xs as [|x xs IH]; cbn [for_each].
  - apply follows_ret.
  - apply follows_bind; [apply Hb | intros _; exact IH].
Qed.

End Following.

Ltac follow_step refl trans leaf :=
  lazymatch goal with
  | |- follows _ (ret _) => apply (follows_ret _ _ refl)
  | |- follows _ (lift _) => apply (follows_lift _ _ refl)
  | |- follows _ (gets _) => apply (follows_gets _ _ refl)
  | |- follows _ (throw _) => apply (follows_throw _ _ refl)
  | |- follows _ (when _ _) => apply (follows_when _ _ refl)
  | |- follows _ (for_each _ _) => apply (follows_for_each _ _ refl trans); intro
  | |- follows _ (bind _ _) => apply (follows_bind _ _ trans); [|intro]
  | |- follows _ (try_catch _ _) => apply (follows_try_catch _ _ trans); [|intro]
  | |- follows _ (if _ then _ else _) => apply follows_if
  | |- follows _ (match ?x with _ => _ end) => destruct x
  | |- follows _ (let _ := _ in _) => cbv zeta
  | |- _ => leaf
  end.

(** ** godojo-validator.js *)

Lemma godojo_refl (st : GoDojoValidator.validator) : godojo_extends st st.
Proof. exists [], []. rewrite !app_nil_r. now destruct st. Qed.

Lemma godojo_trans (a b c : GoDojoValidator.validator) :
  godojo_extends a b -> godojo_extends b c -> godojo_extends a c.
Proof.
  intros (e1 & w1 & ->) (e2 & w2 & ->). exists (e1 ++ e2), (w1 ++ w2).
  cbn. now rewrite !app_assoc.
Qed.

Lemma godojo_addError m : follows godojo_extends (GoDojoValidator.addError m).
Proof. intro st. exists [m], []. cbn. now rewrite app_nil_r. Qed.

Lemma godojo_addWarning m : follows godojo_extends (GoDojoValidator.addWarning m).
Proof. intro st. exists [], [m]. cbn. now rewrite app_nil_r. Qed.

Ltac godojo_leaf :=
  idtac;
  lazymatch goal with
  | |- follows _ (GoDojoValidator.addError _) => apply godojo_addError
  | |- follows _ (GoDojoValidator.addWarning _) => apply godojo_addWarning
  end.

Ltac godojo_follow := repeat (follow_step godojo_refl godojo_trans godojo_leaf).

Lemma godojo_validateMarkdownFile filePath entry :
  follows godojo_extends (GoDojoValidator.validateMarkdownFile filePath entry).
Proof.
  unfold GoDojoValidator.validateMarkdownFile, GoDojoValidator.validateFrontmatter,
    GoDojoValidator.validateContent, GoDojoValidator.validateCodeBlock.
  godojo_follow.
Qed.

Lemma godojo_addError_returns m : returns (GoDojoValidator.addError m).
Proof. apply returns_modify. Qed.

(** X10.  The check of one Markdown file by the godojo validator contains
    its failures: it never throws, it only adds to the errors and to the
    warnings (what was recorded stays, in its order) and it leaves the list
    of passed checks alone.  A file that cannot be read costs exactly one
    error, under the path as given. *)
Theorem godojo_file_check_is_contained
        (filePath : jsstring) (entry : node) (st : GoDojoValidator.validator) :
  (exists es ws,
      GoDojoValidator.validateMarkdownFile filePath entry st
      = (Ok tt, GoDojoValidator.Validator
                  (GoDojoValidator.errors st ++ es) (GoDojoValidator.warnings st ++ ws)
                  (GoDojoValidator.passed st)))
  /\ match read_node entry with
     | Throw e =>
         GoDojoValidator.validateMarkdownFile filePath entry st
         = (Ok tt, GoDojoValidator.Validator
                     (GoDojoValidator.errors st
                      ++ [GoDojoValidator.ReadError filePath (exn_message e)])
                     (GoDojoValidator.warnings st) (GoDojoValidator.passed st))
     | Ok _ => True
     end.
Proof.
  split.
  - destruct (godojo_validateMarkdownFile filePath entry st) as (es & ws & E).
    assert (Rt : returns (GoDojoValidator.validateMarkdownFile filePath entry)).
    { unfold GoDojoValidator.validateMarkdownFile. apply returns_try_catch.
      intro e. apply godojo_addError_returns. }
    destruct (Rt st) as ([] & st' & Q). rewrite Q in *. cbn [snd] in E.
    exists es, ws. now rewrite E.
  - destruct (read_node entry) as [c|e] eqn:Rd; [exact I|].
    unfold GoDojoValidator.validateMarkdownFile, try_catch, bind, lift.
    rewrite Rd. reflexivity.
Qed.

(** ** content-checker.js *)

Lemma checker_refl (st : ContentChecker.checker) : checker_extends st st.
Proof. exists [], []. now rewrite !app_nil_r. Qed.

Lemma checker_trans (a b c : ContentChecker.checker) :
  checker_extends a b -> checker_extends b c -> checker_extends a c.
Proof.
  intros (i1 & w1 & I1 & W1) (i2 & w2 & I2 & W2). exists (i1 ++ i2), (w1 ++ w2).
  rewrite I2, I1, W2, W1, !app_assoc. split; reflexivity.
Qed.

Lemma checker_addIssue f m : follows checker_extends (ContentChecker.addIssue f m).
Proof.
  intro st. exists [ContentChecker.Finding f m], []. cbn. now rewrite app_nil_r.
Qed.

Lemma checker_addWarning f m : follows checker_extends (ContentChecker.addWarning f m).
Proof.
  intro st. exists [], [ContentChecker.Finding f m]. cbn. now rewrite app_nil_r.
Qed.

Lemma checker_for_each_indexed {A} (xs : list A)
      (body : A -> nat -> M ContentChecker.checker unit) :
  (forall x i, follows checker_extends (body x i)) ->
  forall i, follows checker_extends (ContentChecker.for_each_indexed i xs body).
Proof.
  intro Hb. induction xs as [|x xs IH]; intro i; cbn [ContentChecker.for_each_indexed].
  - apply (follows_ret _ _ checker_refl).
  - apply (follows_bind _ _ checker_trans); [apply Hb | intros _; apply IH].
Qed.

Ltac checker_leaf :=
  idtac;
  lazymatch goal with
  | |- follows _ (ContentChecker.addIssue _ _) => apply checker_addIssue
  | |- follows _ (ContentChecker.addWarning _ _) => apply checker_addWarning
  | |- follows _ (ContentChecker.for_each_indexed _ _ _) =>
      apply checker_for_each_indexed; intros
  end.

Section WithHost.
Context {H : Host}.

Lemma checker_checkFile cwd filePath entry :
  follows checker_extends (ContentChecker.checkFile cwd filePath entry).
Proof.
  unfold ContentChecker.checkFile, ContentChecker.checkFrontmatter,
    ContentChecker.checkContent, ContentChecker.checkStructure,
    ContentChecker.checkCodeExamples, ContentChecker.checkLinks.
  repeat (follow_step checker_refl checker_trans checker_leaf).
Qed.


(** ** structure-validator.js *)

Lemma structure_refl (st : StructureValidator.validator) : structure_extends st st.
Proof. exists [], []. rewrite !app_nil_r. now destruct st. Qed.

Lemma structure_trans (a b c : StructureValidator.validator) :
  structure_extends a b -> structure_extends b c -> structure_extends a c.
Proof.
  intros (e1 & w1 & ->) (e2 & w2 & ->). exists (e1 ++ e2), (w1 ++ w2).
  cbn. now rewrite !app_assoc.
Qed.

Lemma structure_addError m : follows structure_extends (StructureValidator.addError m).
Proof. intro st. exists [m], []. cbn. now rewrite app_nil_r. Qed.

Lemma structure_addWarning m : follows structure_extends (StructureValidator.addWarning m).
Proof. intro st. exists [], [m]. cbn. now rewrite app_nil_r. Qed.

Ltac structure_leaf :=
  idtac;
  lazymatch goal with
  | |- follows _ (StructureValidator.addError _) => apply structure_addError
  | |- follows _ (StructureValidator.addWarning _) => apply structure_addWarning
  end.

Ltac structure_follow := repeat (follow_step structure_refl structure_trans structure_leaf).

Lemma structure_check_categories (categories : list value) :
  forall slugs,
    follows structure_extends (StructureValidator.check_categories slugs categories).
Proof.
  induction categories as [|category rest IH]; intro slugs;
    cbn [StructureValidator.check_categories].
  - apply (follows_ret _ _ structure_refl).
  - repeat (follow_step structure_refl structure_trans
              ltac:(idtac;
                    lazymatch goal with
                    | |- follows _ (StructureValidator.check_categories _ _) => apply IH
                    | |- _ => structure_leaf
                    end)).
Qed.

Lemma structure_returns_addError m : returns (StructureValidator.addError m).
Proof. apply returns_modify. Qed.

(** X12.  The checks of the structure validator that read one file
    contain their failures: reading the configuration, the check of a
    category index, the check of a topic file and the check of the
    configuration never throw, and they only add to the errors and to the
    warnings.  A topic file that cannot be read costs exactly one error
    and no warning. *)
Theorem structure_file_checks_are_contained
        (cwd : node) (path : jsstring) (file : node) (categoryConfig : value)
        (st : StructureValidator.validator) :
  (exists config st',
      StructureValidator.loadConfig cwd st = (Ok config, st')
      /\ structure_extends st st')
  /\ (exists st',
         StructureValidator.validateCategoryIndex cwd path categoryConfig st = (Ok tt, st')
         /\ structure_extends st st')
  /\ (exists st',
         StructureValidator.validateTopicFile path file st = (Ok tt, st')
         /\ structure_extends st st')
  /\ (exists st',
         StructureValidator.validateConfiguration cwd st = (Ok tt, st')
         /\ structure_extends st st')
  /\ match read_node file with
     | Throw e =>
         StructureValidator.validateTopicFile path file st
         = (Ok tt, StructureValidator.Validator
                     (StructureValidator.errors st
                      ++ [StructureValidator.TopicReadError (relative_to_cwd path)
                            (exn_message e)])
                     (StructureValidator.warnings st))
     | Ok _ => True
     end.
Proof.
  split; [|split; [|split; [|split]]].
  - assert (F : follows structure_extends (StructureValidator.loadConfig cwd))
      by (unfold StructureValidator.loadConfig; structure_follow).
    assert (Rt : returns (StructureValidator.loadConfig cwd)).
    { unfold StructureValidator.loadConfig. apply returns_try_catch. intro e.
      apply returns_bind; [apply structure_returns_addError | intro; apply returns_ret]. }
    specialize (F st). destruct (Rt st) as (config & st' & Q). rewrite Q in F.
    exists config, st'. split; [exact Q | exact F].
  - assert (F : follows structure_extends
                  (StructureValidator.validateCategoryIndex cwd path categoryConfig))
      by (unfold StructureValidator.validateCategoryIndex; structure_follow).
    assert (Rt : returns (StructureValidator.validateCategoryIndex cwd path categoryConfig)).
    { unfold StructureValidator.validateCategoryIndex. apply returns_try_catch. intro e.
      apply structure_returns_addError. }
    specialize (F st). destruct (Rt st) as ([] & st' & Q). rewrite Q in F.
    exists st'. split; [exact Q | exact F].
  - assert (F : follows structure_extends (StructureValidator.validateTopicFile path file))
      by (unfold StructureValidator.validateTopicFile; structure_follow).
    assert (Rt : returns (StructureValidator.validateTopicFile path file)).
    { unfold StructureValidator.validateTopicFile. apply returns_try_catch. intro e.
      apply structure_returns_addError. }
    specialize (F st). destruct (Rt st) as ([] & st' & Q). rewrite Q in F.
    exists st'. split; [exact Q | exact F].
  - assert (F : follows structure_extends (StructureValidator.validateConfiguration cwd)).
    { unfold StructureValidator.validateConfiguration.
      repeat (follow_step structure_refl structure_trans
                ltac:(idtac;
                      lazymatch goal with
                      | |- follows _ (StructureValidator.check_categories _ _) =>
                          apply structure_check_categories
                      | |- _ => structure_leaf
                      end)). }
    assert (Rt : returns (StructureValidator.validateConfiguration cwd)).
    { unfold StructureValidator.validateConfiguration. cbv zeta.
      destruct (negb _); [apply structure_returns_addError|].
      apply returns_try_catch. intro e. apply structure_returns_addError. }
    specialize (F st). destruct (Rt st) as ([] & st' & Q). rewrite Q in F.
    exists st'. split; [exact Q | exact F].
  - destruct (read_node file) as [c|e] eqn:Rd; [exact I|].
    unfold StructureValidator.validateTopicFile, try_catch, bind, lift.
    rewrite Rd. reflexivity.
Qed.

End WithHost.
End ContainmentFacts.

(* ================================================================== *)
(** * The quality rules of the author tool (content-author.js) *)
(* ================================================================== *)

Module StandardsFacts.
Import JS Spec.
Local Open Scope js_scope.

Section WithHost.
Context {H : Host}.

Lemma below_false_iff (count : nat) (q : Q) :
  ContentAuthor.below count (VNum (Fin q)) = false
  <-> (q <= inject_Z (Z.of_nat count))%Q.
Proof.
  unfold ContentAuthor.below. cbn [to_number num_ltb]. unfold Qltb.
  rewrite negb_false_iff. apply Qle_bool_iff.
Qed.

(** X13.  [validateContent] on a file that can be read, under quality
    standards whose three thresholds are finite numbers, returns exactly
    when the words, the fenced go blocks and the exercise headings of the
    file each reach their threshold; otherwise it throws the
    ValidationError VALIDATION_QUALITY_FAILED, whose [errors] hold one
    text for each rule that failed, in the order words, code examples,
    exercises.  Either way the manager is left as it was. *)
Theorem validateContent_passes_iff
        (cwd : node) (filePath content : jsstring) (st : ContentAuthor.manager)
        (standards : value) (minWords minCodeExamples minExercises : Q) :
  readFile cwd filePath = Ok content ->
  ContentAuthor.getQualityStandards st = (Ok standards, st) ->
  ContentAuthor.field_of standards "minWords" = VNum (Fin minWords) ->
  ContentAuthor.field_of standards "minCodeExamples" = VNum (Fin minCodeExamples) ->
  ContentAuthor.field_of standards "minExercises" = VNum (Fin minExercises) ->
  (ContentAuthor.validateContent cwd filePath st = (Ok tt, st)
   <-> (minWords <= inject_Z (Z.of_nat (ContentAuthor.countWords content))
        /\ minCodeExamples <= inject_Z (Z.of_nat (ContentAuthor.countCodeExamples content))
        /\ minExercises <= inject_Z (Z.of_nat (ContentAuthor.countExercises content)))%Q)
  /\ (ContentAuthor.validateContent cwd filePath st = (Ok tt, st)
      \/ ContentAuthor.validateContent cwd filePath st
         = (Throw (ContentAuthor.ValidationError "VALIDATION_QUALITY_FAILED"
                     [(utf16 "filePath", VStr filePath);
                      (utf16 "errors",
                       VArr (List.map (fun e => VStr (ContentAuthor.render e))
                               (ContentAuthor.quality_errors content standards)))]),
            st)).
Proof.
  intros Rd G Fw Fc Fe.
  assert (Ex : existsSync cwd filePath = true).
  { unfold existsSync. unfold readFile in Rd.
    destruct (lookup cwd filePath); [reflexivity | discriminate]. }
  assert (Obj : exists props, standards = VObj props).
  { destruct standards; try discriminate. eauto. }
  destruct Obj as [props ->].
  assert (V : ContentAuthor.validateContent cwd filePath st
              = if (0 <? List.length (ContentAuthor.quality_errors content (VObj props)))%nat
                then (Throw (ContentAuthor.ValidationError "VALIDATION_QUALITY_FAILED"
                               [(utf16 "filePath", VStr filePath);
                                (utf16 "errors",
                                 VArr (List.map (fun e => VStr (ContentAuthor.render e))
                                         (ContentAuthor.quality_errors content
                                            (VObj props))))]), st)
                else (Ok tt, st)).
  { unfold ContentAuthor.validateContent. rewrite Ex. cbn [negb].
    unfold bind at 1, lift at 1. rewrite Rd.
    unfold bind at 1. rewrite G. cbv zeta.
    destruct (0 <? _)%nat; reflexivity. }
  rewrite V.
  unfold ContentAuthor.quality_errors. cbv zeta. rewrite Fw, Fc, Fe.
  rewrite <- !below_false_iff.
  destruct (ContentAuthor.below (ContentAuthor.countWords content) _);
    destruct (ContentAuthor.below (ContentAuthor.countCodeExamples content) _);
    destruct (ContentAuthor.below (ContentAuthor.countExercises content) _);
    cbn [app List.length Nat.ltb Nat.leb];
    (split; [split; [intro; try discriminate; repeat split; reflexivity
                    | intros (A & B & C); try discriminate; reflexivity]
            | first [left; reflexivity | right; reflexivity]]).
Qed.

End WithHost.
End StandardsFacts.

(* ================================================================== *)
(** * The formatter's fences (godojo-validator.js, ContentFormatter) *)
(* ================================================================== *)

Module FormatterFacts.
Import JS Spec StringFacts ContentFormatter.

(** The matcher on a literal: it goes on exactly when the input starts
    with the literal, from the position after it. *)
Lemma mt_Lit (p : jsstring) :
  forall (s : mstate) (k : mstate -> option mstate),
    mt (Lit p) s k
    = if startsWith p (after s)
      then k (MState (rev p ++ before s) (skipn (List.length p) (after s)) (caps s))
      else None.
Proof.
  induction p as [|c p IH]; intros [bef aft cs] k.
  - cbn. reflexivity.
  - assert (One : mt (Chr c) (MState bef aft cs) k
                  = match aft with
                    | x :: rest => if char_eqb c x then k (MState (x :: bef) rest cs)
                                   else None
                    | [] => None
                    end) by reflexivity.
    destruct p as [|c2 p].
    + change (Lit [c]) with (Chr c). rewrite One. cbn [after before caps startsWith List.length skipn rev app].
      destruct aft as [|x rest]; [reflexivity|].
      cbn [startsWith skipn]. rewrite andb_true_r.
      destruct (char_eqb c x) eqn:E; [|reflexivity].
      apply char_eqb_eq in E. now subst.
    + change (Lit (c :: c2 :: p)) with (Seq (Chr c) (Lit (c2 :: p))).
      change (mt (Seq (Chr c) (Lit (c2 :: p))) (MState bef aft cs) k)
        with (mt (Chr c) (MState bef aft cs) (fun s1 => mt (Lit (c2 :: p)) s1 k)).
      assert (Two : forall k', mt (Chr c) (MState bef aft cs) k'
                  = match aft with
                    | x :: rest => if char_eqb c x then k' (MState (x :: bef) rest cs)
                                   else None
                    | [] => None
                    end) by reflexivity.
      rewrite Two. cbn [after before caps].
      destruct aft as [|x rest]; [reflexivity|].
      change (startsWith (c :: c2 :: p) (x :: rest))
        with (char_eqb c x && startsWith (c2 :: p) rest).
      change (skipn (List.length (c :: c2 :: p)) (x :: rest))
        with (skipn (List.length (c2 :: p)) rest).
      destruct (char_eqb c x) eqn:E; [|reflexivity].
      apply char_eqb_eq in E. subst x. cbn [andb].
      rewrite IH. cbn [after before caps].
      destruct (startsWith (c2 :: p) rest); [|reflexivity].
      cbn [rev]. rewrite <- !app_assoc. reflexivity.
Qed.

Lemma exec_at_Lit (p bef aft : jsstring) :
  exec_at (Lit p) bef aft
  = if startsWith p aft
    then Some (Found (MState bef aft [])
                 (MState (rev p ++ bef) (skipn (List.length p) aft) []))
    else None.
Proof.
  unfold exec_at. rewrite mt_Lit. cbn [after before caps].
  destruct (startsWith p aft); reflexivity.
Qed.

(** The leftmost match of a literal: what is passed over holds no start of
    the literal. *)
Lemma search_Lit (p : jsstring) :
  forall aft bef,
    match search (Lit p) bef aft with
    | None => includes p aft = false
    | Some f =>
        exists skipped rest,
          aft = skipped ++ p ++ rest
          /\ m_start f = MState (rev skipped ++ bef) (p ++ rest) []
          /\ m_end f = MState (rev p ++ rev skipped ++ bef) rest []
          /\ forall a b, skipped = a ++ b -> b <> [] ->
               startsWith p (b ++ p ++ rest) = false
    end.
Proof.
  induction aft as [|c aft IH]; intro bef; cbn [search]; rewrite exec_at_Lit.
  - destruct (startsWith p []) eqn:S.
    + exists [], []. destruct p; [|discriminate].
      repeat split; try reflexivity. intros a b E N.
      destruct a; destruct b; try discriminate. contradiction.
    + cbn [includes]. now rewrite S.
  - destruct (startsWith p (c :: aft)) eqn:S.
    + apply startsWith_prefix in S. destruct S as [rest S].
      exists [], rest. cbn [rev app m_start m_end]. rewrite S.
      assert (Sk : skipn (List.length p) (p ++ rest) = rest).
      { rewrite skipn_app, skipn_all, Nat.sub_diag. reflexivity. }
      rewrite Sk. repeat split; try reflexivity. intros a b E N.
      destruct a; destruct b; try discriminate. contradiction.
    + specialize (IH (c :: bef)). destruct (search (Lit p) (c :: bef) aft) as [f|].
      * destruct IH as (skipped & rest & -> & Ms & Me & Clean).
        exists (c :: skipped), rest. cbn [rev app]. rewrite <- !app_assoc. cbn [app].
        repeat split; try assumption. intros a b E N.
        destruct a as [|x a].
        -- cbn [app] in E. subst b. exact S.
        -- injection E as _ E. now apply (Clean a b).
      * cbn [includes]. now rewrite S, IH.
Qed.

Lemma includes_app_r (p a s : jsstring) : includes p s = true -> includes p (a ++ s) = true.
Proof. rewrite !includes_occurs. apply occurs_app_r. Qed.

Lemma includes_middle (p a b : jsstring) : includes p (a ++ p ++ b) = true.
Proof. apply includes_occurs. now exists a, b. Qed.

(** Whether a text starts with the bare fence is settled by its first
    four characters. *)
Lemma starts_bare_fence (b x y : jsstring) :
  b <> [] -> firstn 3 x = firstn 3 y ->
  startsWith bare_fence (b ++ x) = startsWith bare_fence (b ++ y).
Proof.
  intros N E. destruct b as [|b1 [|b2 [|b3 [|b4 b]]]]; try contradiction; cbn [app].
  - destruct x as [|x1 [|x2 [|x3 x]]]; destruct y as [|y1 [|y2 [|y3 y]]];
      cbn [firstn] in E; try discriminate; try injection E as -> -> ->;
      try injection E as -> ->; try injection E as ->; reflexivity.
  - destruct x as [|x1 [|x2 [|x3 x]]]; destruct y as [|y1 [|y2 [|y3 y]]];
      cbn [firstn] in E; try discriminate; try injection E as -> -> ->;
      try injection E as -> ->; try injection E as ->; reflexivity.
  - destruct x as [|x1 [|x2 [|x3 x]]]; destruct y as [|y1 [|y2 [|y3 y]]];
      cbn [firstn] in E; try discriminate; try injection E as -> -> ->;
      try injection E as -> ->; try injection E as ->; reflexivity.
  - reflexivity.
Qed.

(** No bare fence starts in what was passed over, nor in the fence that
    replaces the match. *)
Lemma no_fence_before (skipped rest out : jsstring) :
  (forall a b, skipped = a ++ b -> b <> [] ->
     startsWith bare_fence (b ++ bare_fence ++ rest) = false) ->
  includes bare_fence out = false ->
  includes bare_fence (skipped ++ go_fence ++ out) = false.
Proof.
  intros Clean Out. induction skipped as [|c skipped IH].
  - cbn [app]. unfold go_fence.
    change (utf16 "```go" ++ [newline]) with [96%N; 96%N; 96%N; 103%N; 111%N; 10%N].
    cbn [app includes]. rewrite Out.
    destruct out as [|o1 [|o2 [|o3 out]]]; reflexivity.
  - cbn [app includes].
    rewrite IH by (intros a b E N; apply (Clean (c :: a) b); [now rewrite E | exact N]).
    rewrite orb_false_r.
    change (c :: skipped ++ go_fence ++ out) with ((c :: skipped) ++ go_fence ++ out).
    rewrite (starts_bare_fence (c :: skipped) (go_fence ++ out) (bare_fence ++ rest))
      by (try discriminate; reflexivity).
    apply (Clean [] (c :: skipped)); [reflexivity | discriminate].
Qed.

Lemma firstn_passed (skipped tail : jsstring) :
  firstn (List.length (skipped ++ tail) - List.length tail) (skipped ++ tail) = skipped.
Proof.
  rewrite length_app. replace (List.length skipped + List.length tail - List.length tail)%nat
    with (List.length skipped + 0)%nat by lia.
  rewrite firstn_app_2. cbn [firstn]. apply app_nil_r.
Qed.

Lemma replace_fences (fuel : nat) :
  forall aft bef,
    (List.length aft < fuel)%nat ->
    includes bare_fence (replace_from fuel (Lit bare_fence) go_fence bef aft) = false.
Proof.
  induction fuel as [|fuel IH]; intros aft bef L; [lia|].
  cbn [replace_from]. pose proof (search_Lit bare_fence aft bef) as S.
  destruct (search (Lit bare_fence) bef aft) as [f|]; [|exact S].
  destruct S as (skipped & rest & -> & Ms & Me & Clean).
  cbv zeta. rewrite Ms, Me. cbn [after before].
  change (bare_fence ++ rest) with (bare_fence ++ rest).
  rewrite (firstn_passed skipped (bare_fence ++ rest)).
  assert (NE : is_empty_match f = false).
  { unfold is_empty_match. rewrite Ms, Me. cbn [after].
    rewrite length_app. apply Nat.eqb_neq.
    change (List.length bare_fence) with 4%nat. lia. }
  rewrite NE.
  apply (no_fence_before skipped rest); [exact Clean|].
  apply IH. rewrite !length_app in L.
  change (List.length bare_fence) with 4%nat in L. lia.
Qed.

(** A text without a bare fence is left as it is. *)
Lemma replace_nothing (fuel : nat) (bef aft : jsstring) :
  includes bare_fence aft = false ->
  replace_from fuel (Lit bare_fence) go_fence bef aft = aft.
Proof.
  intro N. destruct fuel as [|fuel]; [reflexivity|]. cbn [replace_from].
  pose proof (search_Lit bare_fence aft bef) as S.
  destruct (search (Lit bare_fence) bef aft) as [f|]; [|reflexivity].
  destruct S as (skipped & rest & -> & _). rewrite includes_middle in N. discriminate.
Qed.

(** Where a literal first occurs is settled by the text. *)
Lemma first_occurrence_unique (p s1 r1 s2 r2 : jsstring) :
  s1 ++ p ++ r1 = s2 ++ p ++ r2 ->
  (forall a b, s1 = a ++ b -> b <> [] -> startsWith p (b ++ p ++ r1) = false) ->
  (forall a b, s2 = a ++ b -> b <> [] -> startsWith p (b ++ p ++ r2) = false) ->
  s1 = s2 /\ r1 = r2.
Proof.
  intros E C1 C2.
  assert (P : forall x, startsWith p (p ++ x) = true)
    by (intro x; apply startsWith_prefix; now exists x).
  destruct (app_eq_app _ _ _ _ E) as [l [[E1 E2]|[E1 E2]]].
  - destruct l as [|c l].
    + rewrite app_nil_r in E1. subst s1. cbn [app] in E2.
      apply app_inv_head in E2. now split.
    + pose proof (C1 s2 (c :: l) E1 ltac:(discriminate)) as F.
      rewrite <- E2, P in F. discriminate.
  - destruct l as [|c l].
    + rewrite app_nil_r in E1. subst s2. cbn [app] in E2.
      apply app_inv_head in E2. now split.
    + pose proof (C2 s1 (c :: l) E1 ltac:(discriminate)) as F.
      rewrite <- E2, P in F. discriminate.
Qed.

Lemma first_fence (aft : jsstring) :
  includes bare_fence aft = false
  \/ exists skipped rest,
       aft = skipped ++ bare_fence ++ rest
       /\ forall a b, skipped = a ++ b -> b <> [] ->
            startsWith bare_fence (b ++ bare_fence ++ rest) = false.
Proof.
  pose proof (search_Lit bare_fence aft []) as S.
  destruct (search (Lit bare_fence) [] aft) as [f|]; [right | now left].
  destruct S as (skipped & rest & E & _ & _ & Clean). now exists skipped, rest.
Qed.

(** One step of the replacement: the text up to the first bare fence is
    kept, the fence gets the language, and the rest is treated alike. *)
Lemma replace_step (fuel : nat) (bef skipped rest : jsstring) :
  (forall a b, skipped = a ++ b -> b <> [] ->
     startsWith bare_fence (b ++ bare_fence ++ rest) = false) ->
  replace_from (S fuel) (Lit bare_fence) go_fence bef (skipped ++ bare_fence ++ rest)
  = skipped ++ go_fence
    ++ replace_from fuel (Lit bare_fence) go_fence
         (rev bare_fence ++ rev skipped ++ bef) rest.
Proof.
  intro Clean. cbn [replace_from].
  pose proof (search_Lit bare_fence (skipped ++ bare_fence ++ rest) bef) as S.
  destruct (search (Lit bare_fence) bef (skipped ++ bare_fence ++ rest)) as [f|].
  - destruct S as (skipped' & rest' & E & Ms & Me & Clean').
    destruct (first_occurrence_unique _ _ _ _ _ E Clean Clean') as [<- <-].
    cbv zeta. rewrite Ms, Me. cbn [after before].
    rewrite (firstn_passed skipped (bare_fence ++ rest)).
    assert (NE : is_empty_match f = false).
    { unfold is_empty_match. rewrite Ms, Me. cbn [after].
      rewrite length_app. apply Nat.eqb_neq.
      change (List.length bare_fence) with 4%nat. lia. }
    rewrite NE. reflexivity.
  - rewrite includes_middle in S. discriminate.
Qed.

(** With enough fuel the result depends on the text alone. *)
Lemma replace_from_any (fuel : nat) :
  forall aft bef fuel' bef',
    (List.length aft < fuel)%nat -> (List.length aft < fuel')%nat ->
    replace_from fuel (Lit bare_fence) go_fence bef aft
    = replace_from fuel' (Lit bare_fence) go_fence bef' aft.
Proof.
  induction fuel as [|fuel IH]; intros aft bef fuel' bef' L L'; [lia|].
  destruct fuel' as [|fuel']; [lia|].
  destruct (first_fence aft) as [N|(skipped & rest & -> & Clean)].
  - now rewrite !replace_nothing.
  - rewrite !replace_step by exact Clean. do 2 f_equal.
    rewrite !length_app in L, L'.
    change (List.length bare_fence) with 4%nat in L, L'.
    apply IH; lia.
Qed.

(** The fence after a text that holds no bare fence, even with three
    backticks put after it, is the first one. *)
Lemma fence_after_clean (front rest : jsstring) :
  includes bare_fence (front ++ utf16 "```") = false ->
  forall a b, front = a ++ b -> b <> [] ->
    startsWith bare_fence (b ++ bare_fence ++ rest) = false.
Proof.
  intros N a b -> NE.
  rewrite (starts_bare_fence b (bare_fence ++ rest) (utf16 "```")) by (try exact NE; reflexivity).
  destruct (startsWith bare_fence (b ++ utf16 "```")) eqn:S; [|reflexivity].
  rewrite <- app_assoc in N. rewrite includes_app_r in N; [discriminate|].
  destruct (b ++ utf16 "```"); cbn [includes]; now rewrite S.
Qed.

Lemma format_through_fence (front rest : jsstring) :
  includes bare_fence (front ++ utf16 "```") = false ->
  formatCodeBlocks (front ++ bare_fence ++ rest)
  = front ++ go_fence ++ formatCodeBlocks rest.
Proof.
  intro N. unfold formatCodeBlocks, replace_all.
  rewrite replace_step by (now apply fence_after_clean). do 2 f_equal.
  apply replace_from_any; [|lia].
  rewrite !length_app. change (List.length bare_fence) with 4%nat. lia.
Qed.

(** The text of a block that holds no three backticks in a row, with the
    line end and the three backticks that close it, holds no bare fence. *)
Lemma block_body_clean (code : jsstring) :
  includes (utf16 "```") code = false ->
  includes bare_fence (code ++ newline :: utf16 "```") = false.
Proof.
  induction code as [|c code IH]; intro N; [reflexivity|].
  cbn [includes] in N. apply orb_false_elim in N. destruct N as [S N].
  change ((c :: code) ++ newline :: utf16 "```")
    with (c :: (code ++ newline :: utf16 "```")).
  cbn [includes]. rewrite (IH N), orb_false_r.
  change (utf16 "```") with [96%N; 96%N; 96%N] in *.
  change bare_fence with [96%N; 96%N; 96%N; 10%N].
  destruct code as [|d [|e code]]; cbn [app startsWith] in *.
  - now rewrite andb_false_r.
  - destruct (char_eqb 96%N c); [|reflexivity]. cbn [andb].
    now rewrite andb_false_r.
  - destruct (char_eqb 96%N c); [|reflexivity].
    destruct (char_eqb 96%N d); [|reflexivity].
    destruct (char_eqb 96%N e); [discriminate S | reflexivity].
Qed.

(** X14.  [formatCodeBlocks] leaves no fence without a language: its
    output never holds three backticks followed by a line end.  A text
    without such a fence is left as it is, so a second pass changes
    nothing.  Otherwise the text up to the first bare fence is kept, the
    fence becomes [```go], and what follows is formatted in the same way,
    whatever the fence stood for. *)
Theorem formatCodeBlocks_tags_every_fence (markdown : jsstring) :
  includes bare_fence (formatCodeBlocks markdown) = false
  /\ formatCodeBlocks (formatCodeBlocks markdown) = formatCodeBlocks markdown
  /\ (includes bare_fence markdown = false -> formatCodeBlocks markdown = markdown)
  /\ (forall front rest,
         markdown = front ++ bare_fence ++ rest ->
         includes bare_fence (front ++ utf16 "```") = false ->
         formatCodeBlocks markdown = front ++ go_fence ++ formatCodeBlocks rest).
Proof.
  assert (Clean : forall s, includes bare_fence (formatCodeBlocks s) = false).
  { intro s. unfold formatCodeBlocks, replace_all. apply replace_fences. lia. }
  assert (Same : forall s, includes bare_fence s = false -> formatCodeBlocks s = s).
  { intros s N. unfold formatCodeBlocks, replace_all. now apply replace_nothing. }
  split; [apply Clean|]. split; [apply Same, Clean|]. split; [apply Same|].
  intros front rest -> N. now apply format_through_fence.
Qed.

(** X15.  The fence that closes a Go block is tagged as well: a block that
    opens with [```go], whose text holds no three backticks in a row, and
    that ends the document comes out closed by [```go] instead of [```]. *)
Theorem formatCodeBlocks_tags_the_closing_fence (code : jsstring) :
  includes (utf16 "```") code = false ->
  formatCodeBlocks (go_fence ++ code ++ [newline] ++ bare_fence)
  = go_fence ++ code ++ [newline] ++ go_fence.
Proof.
  intro N.
  replace (go_fence ++ code ++ [newline] ++ bare_fence)
    with ((go_fence ++ code ++ [newline]) ++ bare_fence ++ [])
    by (rewrite <- !app_assoc; reflexivity).
  rewrite format_through_fence.
  - rewrite <- !app_assoc. reflexivity.
  - rewrite <- !app_assoc.
    change (go_fence ++ code ++ [newline] ++ utf16 "```")
      with (96%N :: 96%N :: 96%N :: 103%N :: 111%N :: 10%N
              :: (code ++ newline :: utf16 "```")).
    cbn [includes]. rewrite (block_body_clean code N).
    destruct (code ++ newline :: utf16 "```") as [|x1 [|x2 [|x3 x]]]; reflexivity.
Qed.

End FormatterFacts.

(* ================================================================== *)
(** * The further properties on the sample project *)
(* ================================================================== *)

Module Examples.
Import JS Spec Samples.

(** The topic of module 7 with an untouched title. *)
Lemma generated_slug_carries_its_number_witness :
  (7 < 100)%nat
  /\ number_to_string (Host := host) (Fin (inject_Z (Z.of_nat 7))) = decimal 7
  /\ test StructureValidator.topic_prefix_re
       (ContentGenerator.generateSlug (H := host) (fun title => title) (utf16 "goroutines")
          (VNum (Fin (inject_Z (Z.of_nat 7)))))
     = true
  /\ option_map (fun f => StructureValidator.parse_digits (group 1 f))
       (match_first StructureValidator.topic_number_re
          (ContentGenerator.generateSlug (H := host) (fun title => title)
             (utf16 "goroutines") (VNum (Fin (inject_Z (Z.of_nat 7))))))
     = Some 7%nat.
Proof.
  split; [lia|]. split; [vm_compute; reflexivity|].
  apply (SlugFacts.generated_slug_carries_its_number (H := host)
           (fun title => title) (utf16 "goroutines") 7).
  - lia.
  - vm_compute. reflexivity.
Defined.


(** The sample project's content directory holds plain names. *)
Lemma builder_files_everything_under_content_witness :
  named_content (project config) = true
  /\ (forall name, is_entry_name name = true ->
        ContentBuilder.pop (split_char slash (dirname (path_join [utf16 "content"; name])))
        = utf16 "content")
  /\ only_content (snd (ContentBuilder.run (H := host) (project config) noon)).
Proof.
  split; [vm_compute; reflexivity|].
  apply (CategoryFacts.builder_files_everything_under_content (H := host)
           (project config) noon).
  vm_compute. reflexivity.
Defined.


(** The sample topic against the sample project's standards: 11 words, no
    fenced block and no exercise, where 800, 3 and 2 are asked for. *)
Lemma validateContent_passes_iff_witness :
  readFile (project config) (utf16 "content/basics/01-goroutines/topic.md") = Ok topic_text
  /\ ContentAuthor.getQualityStandards (ContentAuthor.Manager (Some config))
     = (Ok quality_section, ContentAuthor.Manager (Some config))
  /\ ContentAuthor.field_of quality_section "minWords" = VNum (Fin (inject_Z 800))
  /\ ContentAuthor.field_of quality_section "minCodeExamples" = VNum (Fin (inject_Z 3))
  /\ ContentAuthor.field_of quality_section "minExercises" = VNum (Fin (inject_Z 2))
  /\ (ContentAuthor.validateContent (H := host) (project config)
        (utf16 "content/basics/01-goroutines/topic.md")
        (ContentAuthor.Manager (Some config))
      = (Ok tt, ContentAuthor.Manager (Some config))
      <-> (inject_Z 800 <= inject_Z (Z.of_nat (ContentAuthor.countWords topic_text))
           /\ inject_Z 3 <= inject_Z (Z.of_nat (ContentAuthor.countCodeExamples topic_text))
           /\ inject_Z 2 <= inject_Z (Z.of_nat (ContentAuthor.countExercises topic_text)))%Q)
  /\ (ContentAuthor.validateContent (H := host) (project config)
        (utf16 "content/basics/01-goroutines/topic.md")
        (ContentAuthor.Manager (Some config))
      = (Ok tt, ContentAuthor.Manager (Some config))
      \/ ContentAuthor.validateContent (H := host) (project config)
           (utf16 "content/basics/01-goroutines/topic.md")
           (ContentAuthor.Manager (Some config))
         = (Throw (ContentAuthor.ValidationError "VALIDATION_QUALITY_FAILED"
                     [(utf16 "filePath",
                       VStr (utf16 "content/basics/01-goroutines/topic.md"));
                      (utf16 "errors",
                       VArr (List.map (fun e => VStr (ContentAuthor.render (H := host) e))
                               (ContentAuthor.quality_errors (H := host) topic_text quality_section)))]),
            ContentAuthor.Manager (Some config))).
Proof.
  split; [vm_compute; reflexivity|]. split; [vm_compute; reflexivity|].
  split; [reflexivity|]. split; [reflexivity|]. split; [reflexivity|].
  apply (StandardsFacts.validateContent_passes_iff (H := host) (project config)
           (utf16 "content/basics/01-goroutines/topic.md") topic_text
           (ContentAuthor.Manager (Some config)) quality_section
           (inject_Z 800) (inject_Z 3) (inject_Z 2));
    try reflexivity; vm_compute; reflexivity.
Defined.

(** A block of one line. *)
Lemma formatCodeBlocks_tags_the_closing_fence_witness :
  includes (utf16 "```") (utf16 "x := 1") = false
  /\ ContentFormatter.formatCodeBlocks
       (ContentFormatter.go_fence ++ utf16 "x := 1" ++ [newline]
          ++ ContentFormatter.bare_fence)
     = ContentFormatter.go_fence ++ utf16 "x := 1" ++ [newline]
         ++ ContentFormatter.go_fence.
Proof.
  split; [vm_compute; reflexivity|].
  apply (FormatterFacts.formatCodeBlocks_tags_the_closing_fence (utf16 "x := 1")).
  vm_compute. reflexivity.
Defined.

End Examples.
